(** * Market-CSGO-Undercut: the repricing engine and its marketplace client

    A shallow embedding of [modules/api_client.py], [modules/config_manager.py]
    and [modules/price_manager.py].

    - Python [float] is IEEE-754 binary64; it is modelled by [spec_float] with
      the operations of [SpecFloat] at precision 53 and maximal exponent 1024
      (round to nearest, ties to even).
    - The network, the operator's keyboard, [time.sleep] and [print] are
      modelled by an oracle ([env]) and an explicit [world] that records every
      effect in order.
    - A Python exception is a value: every effectful function returns a
      [result] together with the world it leaves behind.
    - The configuration file is modelled by the dictionary it parses to; a
      [ConfigManager] object is its dictionary together with the file and
      the console ([ConfigFile]). *)

From Stdlib Require Import ZArith QArith Qround Lia Bool List SpecFloat.
From stdpp Require Import base strings gmap.
Import ListNotations.

Local Open Scope Z_scope.

(** ** Python exceptions and results *)

Inductive exn : Type :=
| ValueError
| OverflowError
| AttributeError
| TypeError.

Inductive result (A : Type) : Type :=
| Ok (a : A)
| Raise (e : exn).

Arguments Ok {A} a.
Arguments Raise {A} e.

(** ** binary64 arithmetic, as CPython's [float] uses it *)

Module Float64.

Definition prec : Z := 53.
Definition emax : Z := 1024.

Definition float : Type := spec_float.

Definition fadd : float -> float -> float := SFadd prec emax.
Definition fsub : float -> float -> float := SFsub prec emax.
Definition fmul : float -> float -> float := SFmul prec emax.
Definition fdiv : float -> float -> float := SFdiv prec emax.

(** [x <= y], [x < y], [x >= y]: false as soon as an operand is NaN. *)
Definition fle (x y : float) : bool := SFleb x y.
Definition flt (x y : float) : bool := SFltb x y.
Definition fge (x y : float) : bool := SFleb y x.

Definition is_nan (x : float) : bool :=
  match x with S754_nan => true | _ => false end.

Definition is_finite (x : float) : bool :=
  match x with S754_zero _ | S754_finite _ _ _ => true | _ => false end.

Definition valid (x : float) : bool := valid_binary prec emax x.

(** [bool(x)] of a float: everything but the two zeros. *)
Definition truthy (x : float) : bool :=
  match x with S754_zero _ => false | _ => true end.

(** [float(n)] of a Python [int]: correctly rounded, [OverflowError] when
    the rounded value does not fit. *)
Definition of_int (n : Z) : result float :=
  match binary_normalize prec emax n 0 false with
  | S754_infinity _ => Raise OverflowError
  | f => Ok f
  end.

(** An [int] operand of a mixed [float]/[int] operation that is small
    enough to convert exactly ([1000] in this program). *)
Definition of_small_int (n : Z) : float := binary_normalize prec emax n 0 false.

(** A decimal literal [num / 10^digits] of the source text: the nearest
    binary64, which is what the correctly rounded quotient of two exactly
    representable integers gives. *)
Definition literal (num : Z) (digits : Z) : float :=
  fdiv (of_small_int num) (of_small_int (10 ^ digits)).

(** [int(x)]: truncation towards zero. *)
Definition to_int (x : float) : result Z :=
  match x with
  | S754_nan => Raise ValueError
  | S754_infinity _ => Raise OverflowError
  | S754_zero _ => Ok 0
  | S754_finite s m e => Ok (cond_Zopp s (Z.shiftl (Z.pos m) e))
  end.

(** The mathematical floor of a finite float ([None] otherwise). *)
Definition floor (x : float) : option Z :=
  match x with
  | S754_zero _ => Some 0
  | S754_finite s m e => Some (Z.shiftl (cond_Zopp s (Z.pos m)) e)
  | _ => None
  end.

(** Nearest integer of [m / 2^k], ties to even, for [m >= 0] and [k > 0]. *)
Definition round_half_even_shift (m k : Z) : Z :=
  let d := 2 ^ k in
  let q := m / d in
  let r := m mod d in
  match 2 * r ?= d with
  | Lt => q
  | Gt => q + 1
  | Eq => if Z.even q then q else q + 1
  end.

(** [round(x)] with one argument: the nearest integer, ties to even. *)
Definition round (x : float) : result Z :=
  match x with
  | S754_nan => Raise ValueError
  | S754_infinity _ => Raise OverflowError
  | S754_zero _ => Ok 0
  | S754_finite s m e =>
      Ok (cond_Zopp s
            (if 0 <=? e then Z.shiftl (Z.pos m) e
             else round_half_even_shift (Z.pos m) (- e)))
  end.

End Float64.

Import Float64.

(** ** The outside world *)

Inductive pval : Type :=
| PStr (s : string)
| PInt (n : Z).

(** One HTTP GET: the endpoint under [BASE_URL] and the query parameters. *)
Record request : Type := { endpoint : string; params : list (string * pval) }.

(** A JSON number. *)
Inductive jnum : Type :=
| JInt (n : Z)
| JFloat (f : float).

(** [float(v)] of a JSON number. *)
Definition float_of_jnum (v : jnum) : result float :=
  match v with
  | JInt n => of_int n
  | JFloat f => Ok f
  end.

(** A listing object of the [items] endpoint. A key that is absent carries the
    default the code reads it with: [""] for the two names, [0] for [price]
    and [status]. *)
Record raw_item : Type := {
  raw_item_id : string;
  raw_market_hash_name : string;
  raw_price : jnum;
  raw_status : Z
}.

(** An offer object of [search-item-by-hash-name]; an absent [price] is [0]. *)
Record offer : Type := { offer_price : jnum }.

(** A decoded JSON response. [resp_success] is the truth value of
    [get("success", False)]; [resp_items] is [None] when the key is absent;
    [resp_data] is empty when [data] is absent, null or an empty array (the
    code only tests its truth value before indexing it). *)
Record response : Type := {
  resp_success : bool;
  resp_error : option string;
  resp_items : option (list raw_item);
  resp_data : list offer;
  resp_money : option jnum
}.

(** What one [session.get(...)] followed by [raise_for_status()] and [json()]
    does. The body of an answer with status 200 is taken to be a JSON object,
    as every endpoint of the marketplace answers; a body that is [null] or an
    array is outside this model. *)
Inductive http_result : Type :=
| HttpOk (body : response)
| HttpStatusError (e : string)      (* raise_for_status(): HTTPError, 4xx/5xx *)
| HttpTimeout (e : string)          (* requests.exceptions.Timeout *)
| HttpConnectionError (e : string)  (* requests.exceptions.ConnectionError *)
| HttpOtherError (e : string).      (* any other RequestException of get() *)

(** The lines the program prints, one constructor per [print] call; the
    arguments are the values interpolated into the line. *)
Inductive message : Type :=
| MsgDebugUrl (r : request)
| MsgConnectionError (e : string)
| MsgWaitRetry (delay : Z) (next_attempt max_retries : Z)
| MsgFailedAfter (max_retries : Z) (e : string)
| MsgRequestError (e : string)
| MsgDebugTotal (n : nat)
| MsgDebugSkippedSold (name : string) (status : Z)
| MsgDebugActive (n : nat)
| MsgDebugSold (n : Z)
| MsgDebugSending
| MsgDebugItemId (item_id : string)
| MsgDebugPrice (price : float)
| MsgDebugPriceFormatted (price_formatted : Z)
| MsgDebugCurrency (currency : string)
| MsgItemsError (e : string)
| MsgNoItems
| MsgFound (n : nat)
| MsgQuerying (name : string)
| MsgBestPrice (best_price : float)
| MsgNoOffers
| MsgPricesUnavailable (name : string)
| MsgOurPrice (current_price : float)
| MsgPositionFirst (position : Z)
| MsgPositionNotFirst (position : Z)
| MsgBlank
| MsgBelowMin (name : string) (new_price min_price : float)
| MsgPlanned (name : string)
| MsgCurrentPrice (current_price : float)
| MsgNewPrice (new_price : float)
| MsgDifference (diff : float)
| MsgCancelled
| MsgAttempt (attempt max_retries : Z)
| MsgUpdated (new_price : float)
| MsgCheckSite
| MsgTooOftenWait (delay : Z)
| MsgUpdateError (e : string)
| MsgRetriesExceeded (max_retries : Z)
| MsgDebugResponse (r : response)
| MsgAlreadyFirst (name : string).

Inductive event : Type :=
| EvGet (r : request)          (* session.get(url, params=params, timeout=10) *)
| EvSleep (seconds : Q)        (* time.sleep(seconds) *)
| EvInput                      (* input(...) *)
| EvPrint (m : message).

(** The oracle: what the [n]-th HTTP request of the run answers, and what the
    operator types at the [n]-th prompt, after [.strip().lower()]. *)
Record env : Type := {
  http_get : nat -> request -> http_result;
  operator_answer : nat -> string
}.

Record world : Type := {
  http_count : nat;
  input_count : nat;
  trace : list event
}.

Definition world0 : world := {| http_count := 0; input_count := 0; trace := [] |}.

(** ** A state-and-exception monad over the world *)

Definition M (A : Type) : Type := env -> world -> result A * world.

Definition ret {A : Type} (a : A) : M A := fun _ w => (Ok a, w).

Definition raise {A : Type} (x : exn) : M A := fun _ w => (Raise x, w).

Definition bind {A B : Type} (m : M A) (k : A -> M B) : M B :=
  fun e w =>
    match m e w with
    | (Ok a, w') => k a e w'
    | (Raise x, w') => (Raise x, w')
    end.

Definition lift {A : Type} (r : result A) : M A := fun _ w => (r, w).

Declare Scope io_scope.
Delimit Scope io_scope with io.
Notation "'let*' x ':=' m 'in' k" := (bind m (fun x => k))
  (at level 10, x pattern, m at level 100, k at level 200) : io_scope.
Notation "m ';;' k" := (bind m (fun _ => k))
  (at level 100, k at level 200, right associativity) : io_scope.
Local Open Scope io_scope.

Definition emit (ev : event) : M unit :=
  fun _ w => (Ok tt, {| http_count := http_count w;
                        input_count := input_count w;
                        trace := trace w ++ [ev] |}).

Definition print (m : message) : M unit := emit (EvPrint m).

Definition sleep (seconds : Q) : M unit := emit (EvSleep seconds).

Definition session_get (r : request) : M http_result :=
  fun e w => (Ok (http_get e (http_count w) r),
              {| http_count := S (http_count w);
                 input_count := input_count w;
                 trace := trace w ++ [EvGet r] |}).

Definition input : M string :=
  fun e w => (Ok (operator_answer e (input_count w)),
              {| http_count := http_count w;
                 input_count := S (input_count w);
                 trace := trace w ++ [EvInput] |}).

Definition when (b : bool) (m : M unit) : M unit := if b then m else ret tt.

(** [range(n)] *)
Definition range (n : Z) : list Z := map Z.of_nat (seq 0 (Z.to_nat n)).

(** The projections of a trace the statements below speak about. *)
Definition gets (t : list event) : list request :=
  flat_map (fun ev => match ev with EvGet r => [r] | _ => [] end) t.

Definition sleeps (t : list event) : list Q :=
  flat_map (fun ev => match ev with EvSleep s => [s] | _ => [] end) t.

Definition prints (t : list event) : list message :=
  flat_map (fun ev => match ev with EvPrint m => [m] | _ => [] end) t.

(** ** [modules/api_client.py] *)

Module MarketAPI.
Section Client.

(** [self.api_key] *)
Variable api_key : string.

(** [{"success": False, "error": str(e)}] *)
Definition failure (e : string) : response :=
  {| resp_success := false; resp_error := Some e;
     resp_items := None; resp_data := []; resp_money := None |}.

Definition retry_delay : Z := 10.

(** The body of [for attempt in range(max_retries)], over the attempts that
    remain. Falling off the end of the loop returns Python's [None]. *)
Fixpoint _make_request_loop (req : request) (max_retries : Z) (attempts : list Z)
  : M (option response) :=
  match attempts with
  | [] => ret None
  | attempt :: rest =>
      let* r := session_get req in
      match r with
      | HttpOk body =>
          when (String.eqb (endpoint req) "set-price") (print (MsgDebugUrl req));;
          ret (Some body)
      | HttpStatusError e =>
          when (String.eqb (endpoint req) "set-price") (print (MsgDebugUrl req));;
          print (MsgRequestError e);;
          ret (Some (failure e))
      | HttpTimeout e | HttpConnectionError e =>
          if attempt <? max_retries - 1 then
            print (MsgConnectionError e);;
            print (MsgWaitRetry retry_delay (attempt + 2) max_retries);;
            sleep (inject_Z retry_delay);;
            _make_request_loop req max_retries rest
          else
            print (MsgFailedAfter max_retries e);;
            ret (Some (failure e))
      | HttpOtherError e =>
          print (MsgRequestError e);;
          ret (Some (failure e))
      end
  end.

Definition _make_request_retries (endpoint : string) (params : list (string * pval))
    (max_retries : Z) : M (option response) :=
  let params := params ++ [("key", PStr api_key)] in
  _make_request_loop {| endpoint := endpoint; params := params |}
                     max_retries (range max_retries).

(** [max_retries: int = 3]; every caller uses the default. *)
Definition _make_request (endpoint : string) (params : list (string * pval))
  : M (option response) :=
  _make_request_retries endpoint params 3.

(** Calling [.get] on what [_make_request] returned. *)
Definition dict_of (r : option response) : M response :=
  match r with
  | Some d => ret d
  | None => raise AttributeError
  end.

Definition get_my_inventory : M (option response) :=
  _make_request "my-inventory" [].

(** The filtering loop of [get_items_on_sale], with its debug lines. *)
Fixpoint filter_active (all_items : list raw_item) (active_items : list raw_item)
    (sold_count : Z) : M (list raw_item * Z) :=
  match all_items with
  | [] => ret (active_items, sold_count)
  | item :: rest =>
      if negb (raw_status item =? 2) then
        filter_active rest (active_items ++ [item]) sold_count
      else
        print (MsgDebugSkippedSold (raw_market_hash_name item) (raw_status item));;
        filter_active rest active_items (sold_count + 1)
  end.

Definition get_items_on_sale : M response :=
  let* r := _make_request "items" [("v", PStr "2")] in
  let* response := dict_of r in
  match resp_success response, resp_items response with
  | true, Some all_items =>
      print (MsgDebugTotal (length all_items));;
      let* (active_items, sold_count) := filter_active all_items [] 0 in
      print (MsgDebugActive (length active_items));;
      print (MsgDebugSold sold_count);;
      ret {| resp_success := resp_success response;
             resp_error := resp_error response;
             resp_items := Some active_items;
             resp_data := resp_data response;
             resp_money := resp_money response |}
  | _, _ => ret response
  end.

Definition get_price_list (market_hash_name : string) : M (option response) :=
  _make_request "search-item-by-hash-name" [("hash_name", PStr market_hash_name)].

Definition get_best_offer_for_item (market_hash_name : string) : M (option response) :=
  _make_request "search-item-by-hash-name" [("hash_name", PStr market_hash_name)].

(** [int(round(price * 1000))] *)
Definition price_formatted (price : float) : result Z :=
  round (fmul price (of_small_int 1000)).

Definition set_price_cur (item_id : string) (price : float) (currency : string)
  : M (option response) :=
  let* price_formatted := lift (price_formatted price) in
  let params := [("item_id", PStr item_id);
                 ("price", PInt price_formatted);
                 ("cur", PStr currency)] in
  print MsgDebugSending;;
  print (MsgDebugItemId item_id);;
  print (MsgDebugPrice price);;
  print (MsgDebugPriceFormatted price_formatted);;
  print (MsgDebugCurrency currency);;
  _make_request "set-price" params.

(** [currency: str = "USD"] *)
Definition set_price (item_id : string) (price : float) : M (option response) :=
  set_price_cur item_id price "USD".

Definition ping : M (option response) :=
  _make_request "ping-new" [("v", PStr "2")].

Definition get_balance : M (option response) :=
  _make_request "get-money" [].

End Client.
End MarketAPI.

(** ** [modules/config_manager.py] *)

Module ConfigManager.

(** [self.config], with the defaults of the [get] calls applied. *)
Record config : Type := {
  api_key : string;
  check_interval : Z;
  min_prices : gmap string float
}.

Definition get_api_key (c : config) : string := api_key c.

Definition get_check_interval (c : config) : Z := check_interval c.

Definition get_min_price (c : config) (market_hash_name : string) : option float :=
  min_prices c !! market_hash_name.

Definition get_all_min_prices (c : config) : gmap string float := min_prices c.

End ConfigManager.

(** ** [modules/price_manager.py] *)

Record ItemInfo : Type := {
  item_id : string;
  market_hash_name : string;
  current_price : float;
  best_price : float;
  position : Z
}.

(** The [stats] dictionary of [process_all_items]. *)
Record stats : Type := {
  total : Z;
  updated : Z;
  skipped : Z;
  first_position : Z;
  below_min : Z
}.

Module PriceManager.
Section Manager.

(** The key of [self.api], and [self.config]. *)
Variable api_key : string.
Variable config : ConfigManager.config.

(** The literal [0.01] of the source. *)
Definition cent : float := literal 1 2.

Definition _calculate_position (current_price best_price : float) : result Z :=
  if fle current_price best_price then Ok 1
  else
    match to_int (fdiv (fsub current_price best_price) cent) with
    | Ok n => let position_diff := n + 1 in Ok (Z.max 2 position_diff)
    | Raise x => Raise x
    end.

(** [float(raw_best_price) / 1000]: the search endpoint returns prices
    multiplied by 1000. *)
Definition decode_price (raw_best_price : jnum) : result float :=
  match float_of_jnum raw_best_price with
  | Ok f => Ok (fdiv f (of_small_int 1000))
  | Raise x => Raise x
  end.

(** The body of [for item in my_items] in [get_my_items_info]: the
    [ItemInfo] that is appended to [items_info]. *)
Definition query_item_info (item : raw_item) : M ItemInfo :=
  let item_id := raw_item_id item in
  let market_hash_name := raw_market_hash_name item in
  let* current_price := lift (float_of_jnum (raw_price item)) in
  print (MsgQuerying market_hash_name);;
  let* r := MarketAPI.get_best_offer_for_item api_key market_hash_name in
  let* price_info := MarketAPI.dict_of r in
  let* best_price :=
    (if resp_success price_info && negb (bool_decide (resp_data price_info = [])) then
       let offers := resp_data price_info in
       match offers with
       | first :: _ =>
           let raw_best_price := offer_price first in
           let* best_price := lift (decode_price raw_best_price) in
           print (MsgBestPrice best_price);;
           ret best_price
       | [] =>
           print MsgNoOffers;;
           ret current_price
       end
     else
       print (MsgPricesUnavailable market_hash_name);;
       ret current_price) in
  let* position := lift (_calculate_position current_price best_price) in
  print (MsgOurPrice current_price);;
  (if position =? 1 then print (MsgPositionFirst position)
   else print (MsgPositionNotFirst position));;
  print MsgBlank;;
  let item_info := {| item_id := item_id;
                      market_hash_name := market_hash_name;
                      current_price := current_price;
                      best_price := best_price;
                      position := position |} in
  sleep (1 # 2);;
  ret item_info.

Fixpoint get_my_items_info_loop (my_items : list raw_item) (items_info : list ItemInfo)
  : M (list ItemInfo) :=
  match my_items with
  | [] => ret items_info
  | item :: rest =>
      let* item_info := query_item_info item in
      get_my_items_info_loop rest (items_info ++ [item_info])
  end.

Definition get_my_items_info : M (list ItemInfo) :=
  let items_info := [] in
  let* my_items_response := MarketAPI.get_items_on_sale api_key in
  if negb (resp_success my_items_response) then
    print (MsgItemsError (default "неизвестная ошибка" (resp_error my_items_response)));;
    ret items_info
  else
    let my_items := default [] (resp_items my_items_response) in
    match my_items with
    | [] => print MsgNoItems;; ret items_info
    | _ =>
        print (MsgFound (length my_items));;
        get_my_items_info_loop my_items items_info
    end.

Definition should_update_price (item : ItemInfo) : M (bool * option float) :=
  if position item =? 1 then ret (false, None)
  else
    let new_price := fsub (best_price item) cent in
    let min_price := ConfigManager.get_min_price config (market_hash_name item) in
    let* below :=
      match min_price with
      | Some min_price =>
          if flt new_price min_price then
            print (MsgBelowMin (market_hash_name item) new_price min_price);;
            ret true
          else ret false
      | None => ret false
      end in
    if below then ret (false, None)
    else if fge new_price (current_price item) then ret (false, None)
    else ret (true, Some new_price).

Definition max_retries : Z := 3.
Definition retry_delay : Z := 10.

(** The retry loop of [update_item_price], over the attempts that remain;
    falling off the end returns [False]. *)
Fixpoint update_item_price_loop (item : ItemInfo) (new_price : float)
    (attempts : list Z) : M bool :=
  match attempts with
  | [] => ret false
  | attempt :: rest =>
      when (0 <? attempt) (print (MsgAttempt (attempt + 1) max_retries));;
      let* r := MarketAPI.set_price api_key (item_id item) new_price in
      let* response := MarketAPI.dict_of r in
      if resp_success response then
        print (MsgUpdated new_price);;
        print MsgCheckSite;;
        ret true
      else
        let error := default "Неизвестная ошибка" (resp_error response) in
        if String.eqb error "too_often" && (attempt <? max_retries - 1) then
          print (MsgTooOftenWait retry_delay);;
          sleep (inject_Z retry_delay);;
          update_item_price_loop item new_price rest
        else
          print (MsgUpdateError error);;
          when (attempt =? max_retries - 1) (print (MsgRetriesExceeded max_retries));;
          print (MsgDebugResponse response);;
          ret false
  end.

Definition update_item_price (item : ItemInfo) (new_price : float)
    (auto_confirm : bool) : M bool :=
  print (MsgPlanned (market_hash_name item));;
  print (MsgCurrentPrice (current_price item));;
  print (MsgNewPrice new_price);;
  print (MsgDifference (fsub (current_price item) new_price));;
  let* go :=
    (if negb auto_confirm then
       let* confirm := input in
       if negb (bool_decide (confirm ∈ ["yes"; "y"; "да"])) then
         print MsgCancelled;; ret false
       else ret true
     else ret true) in
  if negb go then ret false
  else update_item_price_loop item new_price (range max_retries).

(** The body of [for item in items] in [process_all_items]. *)
Definition process_item (auto_confirm : bool) (item : ItemInfo) (st : stats) : M stats :=
  if position item =? 1 then
    print (MsgAlreadyFirst (market_hash_name item));;
    ret {| total := total st; updated := updated st; skipped := skipped st;
           first_position := first_position st + 1; below_min := below_min st |}
  else
    let* (should_update, new_price) := should_update_price item in
    if should_update then
      let* done :=
        match new_price with
        | Some new_price => update_item_price item new_price auto_confirm
        | None => raise TypeError
        end in
      if done then
        ret {| total := total st; updated := updated st + 1; skipped := skipped st;
               first_position := first_position st; below_min := below_min st |}
      else
        ret {| total := total st; updated := updated st; skipped := skipped st + 1;
               first_position := first_position st; below_min := below_min st |}
    else
      let st := {| total := total st; updated := updated st; skipped := skipped st + 1;
                   first_position := first_position st; below_min := below_min st |} in
      let min_price := ConfigManager.get_min_price config (market_hash_name item) in
      match min_price with
      | Some min_price =>
          if truthy min_price && flt (fsub (best_price item) cent) min_price then
            ret {| total := total st; updated := updated st; skipped := skipped st;
                   first_position := first_position st; below_min := below_min st + 1 |}
          else ret st
      | None => ret st
      end.

Fixpoint process_items (auto_confirm : bool) (items : list ItemInfo) (st : stats) : M stats :=
  match items with
  | [] => ret st
  | item :: rest =>
      let* st := process_item auto_confirm item st in
      process_items auto_confirm rest st
  end.

Definition process_all_items (auto_confirm : bool) : M stats :=
  let* items := get_my_items_info in
  let st := {| total := Z.of_nat (length items);
               updated := 0; skipped := 0; first_position := 0; below_min := 0 |} in
  process_items auto_confirm items st.

End Manager.
End PriceManager.

(** ** Vocabulary of the statements *)

(** The network-facing part of a trace: requests and waits, in order. *)
Definition is_net (ev : event) : bool :=
  match ev with EvGet _ | EvSleep _ => true | _ => false end.

Definition net (t : list event) : list event := List.filter is_net t.

(** [n] attempts of one request with a [delay]-second wait between two
    consecutive attempts. *)
Fixpoint attempts_with_waits (n : nat) (req : request) (delay : Q) : list event :=
  match n with
  | O => []
  | S O => [EvGet req]
  | S n' => EvGet req :: EvSleep delay :: attempts_with_waits n' req delay
  end.

(** The request [set_price] sends for an encoded price. *)
Definition set_price_request (api_key item_id : string) (price_formatted : Z) : request :=
  {| endpoint := "set-price";
     params := [("item_id", PStr item_id); ("price", PInt price_formatted);
                ("cur", PStr "USD"); ("key", PStr api_key)] |}.

(** The request [get_best_offer_for_item] sends. *)
Definition best_offer_request (api_key market_hash_name : string) : request :=
  {| endpoint := "search-item-by-hash-name";
     params := [("hash_name", PStr market_hash_name); ("key", PStr api_key)] |}.

(** The answer "requests submitted too frequently". *)
Definition too_often (r : http_result) : Prop :=
  exists body, r = HttpOk body /\ resp_success body = false
               /\ resp_error body = Some "too_often".

(** An application error other than "too frequent". *)
Definition other_error (body : response) : Prop :=
  resp_success body = false /\ resp_error body <> Some "too_often".

(** A connection failure or a request timeout, with its text. *)
Definition transient (r : http_result) (e : string) : Prop :=
  r = HttpTimeout e \/ r = HttpConnectionError e.

(** What happened to one listing in a cycle. [NotUpdated] is an update that
    was decided and then declined by the operator or refused by the
    marketplace. *)
Inductive outcome : Type :=
| AlreadyFirst
| BelowFloor (floor : float)
| NoImprovement
| Updated (new_price : float)
| NotUpdated (new_price : float).

Section Outcomes.

Variable api_key : string.
Variable config : ConfigManager.config.

(** [process_item], returning what happened instead of the counters. *)
Definition item_outcome (auto_confirm : bool) (item : ItemInfo) : M outcome :=
  if position item =? 1 then
    print (MsgAlreadyFirst (market_hash_name item));;
    ret AlreadyFirst
  else
    let* (should_update, new_price) :=
      PriceManager.should_update_price config item in
    if should_update then
      match new_price with
      | Some new_price =>
          let* done :=
            PriceManager.update_item_price api_key item new_price auto_confirm in
          ret (if done then Updated new_price else NotUpdated new_price)
      | None => raise TypeError
      end
    else
      match ConfigManager.get_min_price config (market_hash_name item) with
      | Some min_price =>
          if flt (fsub (best_price item) PriceManager.cent) min_price
          then ret (BelowFloor min_price) else ret NoImprovement
      | None => ret NoImprovement
      end.

Fixpoint outcomes (auto_confirm : bool) (items : list ItemInfo) : M (list outcome) :=
  match items with
  | [] => ret []
  | item :: rest =>
      let* o := item_outcome auto_confirm item in
      let* os := outcomes auto_confirm rest in
      ret (o :: os)
  end.

End Outcomes.

(** The counters one outcome moves. *)
Definition count (o : outcome) (st : stats) : stats :=
  match o with
  | AlreadyFirst =>
      {| total := total st; updated := updated st; skipped := skipped st;
         first_position := first_position st + 1; below_min := below_min st |}
  | Updated _ =>
      {| total := total st; updated := updated st + 1; skipped := skipped st;
         first_position := first_position st; below_min := below_min st |}
  | NotUpdated _ | NoImprovement =>
      {| total := total st; updated := updated st; skipped := skipped st + 1;
         first_position := first_position st; below_min := below_min st |}
  | BelowFloor floor =>
      {| total := total st; updated := updated st; skipped := skipped st + 1;
         first_position := first_position st;
         below_min := below_min st + (if truthy floor then 1 else 0) |}
  end.

Definition stats0 (n : Z) : stats :=
  {| total := n; updated := 0; skipped := 0; first_position := 0; below_min := 0 |}.

(** The world after one attempt that failed in transit and was followed by
    the wait. *)
Definition after_transient (req : request) (attempt : Z) (e : string) (w : world) : world :=
  {| http_count := S (http_count w);
     input_count := input_count w;
     trace := (((trace w ++ [EvGet req])
                ++ [EvPrint (MsgConnectionError e)])
                ++ [EvPrint (MsgWaitRetry 10 (attempt + 2) 3)])
                ++ [EvSleep (10 # 1)] |}.

(** The world after an attempt whose answer ends the call. *)
Definition after_final (req : request) (r : http_result) (w : world) : world :=
  {| http_count := S (http_count w);
     input_count := input_count w;
     trace := (trace w ++ [EvGet req]) ++
              match r with
              | HttpOk _ =>
                  if String.eqb (endpoint req) "set-price"
                  then [EvPrint (MsgDebugUrl req)] else []
              | HttpStatusError e =>
                  (if String.eqb (endpoint req) "set-price"
                   then [EvPrint (MsgDebugUrl req)] else [])
                  ++ [EvPrint (MsgRequestError e)]
              | HttpTimeout e | HttpConnectionError e => [EvPrint (MsgFailedAfter 3 e)]
              | HttpOtherError e => [EvPrint (MsgRequestError e)]
              end |}.

(** The dictionary a final answer is turned into. *)
Definition final_response (r : http_result) : response :=
  match r with
  | HttpOk body => body
  | HttpStatusError e | HttpTimeout e | HttpConnectionError e | HttpOtherError e =>
      MarketAPI.failure e
  end.

(** The counters after a list of outcomes, in order. *)
Definition tally (os : list outcome) (st : stats) : stats :=
  fold_left (fun st o => count o st) os st.

(** ** Scenarios *)

Module Scenario.

Definition ok_response : response :=
  {| resp_success := true; resp_error := None; resp_items := None;
     resp_data := []; resp_money := None |}.

Definition error_response (e : string) : response :=
  {| resp_success := false; resp_error := Some e; resp_items := None;
     resp_data := []; resp_money := None |}.

Definition offers_response (prices : list Z) : response :=
  {| resp_success := true; resp_error := None; resp_items := None;
     resp_data := map (fun p => {| offer_price := JInt p |}) prices;
     resp_money := None |}.

Definition items_response (l : list raw_item) : response :=
  {| resp_success := true; resp_error := None; resp_items := Some l;
     resp_data := []; resp_money := None |}.

Definition listing (id name : string) (price : float) : raw_item :=
  {| raw_item_id := id; raw_market_hash_name := name;
     raw_price := JFloat price; raw_status := 1 |}.

(** Three listings: one at the best offer, two above it. *)
Definition three_listings : list raw_item :=
  [listing "1" "AK-47" (literal 950 2);
   listing "2" "M4A4" (literal 1000 2);
   listing "3" "AWP" (literal 1000 2)].

(** A marketplace that lists [l], offers every good at [best] thousandths
    and answers every submission with [on_set_price]. *)
Definition market (l : list raw_item) (best : list Z) (on_set_price : http_result) : env :=
  {| http_get := fun _ r =>
       if String.eqb (endpoint r) "items" then HttpOk (items_response l)
       else if String.eqb (endpoint r) "search-item-by-hash-name"
            then HttpOk (offers_response best)
       else if String.eqb (endpoint r) "set-price" then on_set_price
       else HttpOk ok_response;
     operator_answer := fun _ => "no" |}.

(** A network on which every request times out. *)
Definition offline : env :=
  {| http_get := fun _ _ => HttpTimeout "timed out";
     operator_answer := fun _ => "no" |}.

(** A floor of 9.50 on the third good only. *)
Definition config : ConfigManager.config :=
  {| ConfigManager.api_key := "KEY";
     ConfigManager.check_interval := 30;
     ConfigManager.min_prices := {[ "AWP" := literal 950 2 ]} |}.

Definition no_floor : ConfigManager.config :=
  {| ConfigManager.api_key := "KEY";
     ConfigManager.check_interval := 30;
     ConfigManager.min_prices := ∅ |}.

(** The three listings as evaluated against a best offer of 9.50. *)
Definition first : ItemInfo :=
  {| item_id := "1"; market_hash_name := "AK-47";
     current_price := literal 950 2; best_price := literal 950 2; position := 1 |}.

Definition second : ItemInfo :=
  {| item_id := "2"; market_hash_name := "M4A4";
     current_price := literal 1000 2; best_price := literal 950 2; position := 51 |}.

Definition third : ItemInfo :=
  {| item_id := "3"; market_hash_name := "AWP";
     current_price := literal 1000 2; best_price := literal 950 2; position := 51 |}.

End Scenario.

(** ** Vocabulary for the rounding of binary floats

    Values are counted in units of [2^emin], the spacing of the subnormal
    numbers, so that every valid finite float is an integer. *)

(** The location of a remainder [r] in [[0, P)]: zero, or below, at or above
    one half of [P]. *)
Definition loc_of_rem (r P : Z) : location :=
  if r =? 0 then loc_Exact else loc_Inexact (2 * r ?= P).

(** The truncated mantissa [m] and the location [l] of [A / P]. *)
Definition Repr (A P m : Z) (l : location) : Prop :=
  m = A / P /\ l = loc_of_rem (A mod P) P.

(** The number of units in [2^e]. *)
Definition scale (prec emax e : Z) : Z := 2 ^ (e - SpecFloat.emin prec emax).

(** The value, in units, of [A / B] units rounded to nearest even at
    exponent [E]. *)
Definition rnd_at (prec emax A B E : Z) : Z :=
  let P := B * scale prec emax E in
  round_nearest_even (A / P) (loc_of_rem (A mod P) P) * scale prec emax E.

(** The magnitude of [A / B] units. *)
Definition mag (prec emax A B : Z) : Z := Zdigits2 (A / B) + SpecFloat.emin prec emax.

(** [A / B] units rounded to the format. *)
Definition rnd (prec emax A B : Z) : Z :=
  rnd_at prec emax A B (SpecFloat.fexp prec emax (mag prec emax A B)).

(** The value of a finite float in units (0 for the others). *)
Definition Nval (prec emax : Z) (x : spec_float) : Z :=
  match x with
  | S754_finite s m e => cond_Zopp s (Z.pos m * scale prec emax e)
  | _ => 0
  end.

(** The mantissa of the literal [0.01]; its exponent is [-59]. *)
Definition cent_mantissa : positive := 5764607523034235.

(** The quotient [(c - b) / 0.01] in units, from the exact difference [D] of
    [c] and [b] in units: the difference is rounded, then the quotient is. *)
Definition quotient_units (D : Z) : Z :=
  rnd prec emax (rnd prec emax D 1 * 2 ^ 59) (Z.pos cent_mantissa).

(** [2^900]: a bound far beyond any price. *)
Definition price_limit : float := of_small_int (2 ^ 900).

(** ** What a run adds to the world *)

Definition is_input (ev : event) : bool :=
  match ev with EvInput => true | _ => false end.

(** The prompts among the events of a trace. *)
Definition prompts (t : list event) : list event := List.filter is_input t.

(** [w'] is [w] after the events [evs]: the trace grows by [evs] and the two
    counters by the requests and the prompts among them. *)
Definition after (w : world) (evs : list event) (w' : world) : Prop :=
  trace w' = trace w ++ evs
  /\ http_count w' = (http_count w + length (gets evs))%nat
  /\ input_count w' = (input_count w + length (prompts evs))%nat.

(** The request [get_items_on_sale] sends. *)
Definition items_request (api_key : string) : request :=
  {| endpoint := "items"; params := [("v", PStr "2"); ("key", PStr api_key)] |}.

(** A submission that the decision rule allows for one of [items]: the
    listing is not first, the price sent is the encoded candidate, and the
    candidate is neither below the listing's floor nor at or above its
    current price. *)
Definition allowed_submission (api_key : string) (config : ConfigManager.config)
    (items : list ItemInfo) (req : request) : Prop :=
  exists item pf,
    In item items
    /\ position item <> 1
    /\ let new_price := fsub (best_price item) PriceManager.cent in
       MarketAPI.price_formatted new_price = Ok pf
       /\ req = set_price_request api_key (item_id item) pf
       /\ fge new_price (current_price item) = false
       /\ forall floor,
            ConfigManager.get_min_price config (market_hash_name item) = Some floor ->
            flt new_price floor = false.

(** A listing as [get_my_items_info] builds it from a raw item: identifier,
    name and price are the raw item's, the best price is the listing's own
    price or a decoded offer price, and the position is the one
    [_calculate_position] gives for the two prices. *)
Definition evaluated (raw : raw_item) (info : ItemInfo) : Prop :=
  item_id info = raw_item_id raw
  /\ market_hash_name info = raw_market_hash_name raw
  /\ float_of_jnum (raw_price raw) = Ok (current_price info)
  /\ PriceManager._calculate_position (current_price info) (best_price info)
     = Ok (position info)
  /\ (best_price info = current_price info
      \/ exists first, PriceManager.decode_price first = Ok (best_price info)).

(** The two requests that only read: the list of the account's listings and
    the offers for one name. *)
Definition read_request (api_key : string) (req : request) : Prop :=
  req = items_request api_key
  \/ exists name, req = best_offer_request api_key name.

(** ** [modules/config_manager.py]: the dictionary, the file and the updates

    [ConfigManager.config] above is the configuration as the getters see it.
    Here is the dictionary itself, whose three keys may be absent, together
    with the file it is loaded from and saved to. The values are of the types
    the program writes: a string, an integer and an object of numbers. [json]
    writes a float with [repr] and reads it back with [float], which gives
    the same float, so that the file is modelled by the dictionary it parses
    to. *)

Module ConfigFile.

(** [self.config] *)
Record dict : Type := {
  api_key : option string;
  check_interval : option Z;
  min_prices : option (gmap string float)
}.

(** The lines [ConfigManager] prints. *)
Inductive line : Type :=
| LoadError
| SaveError
| MinPriceSet (market_hash_name : string) (price : float)
| MinPriceRemoved (market_hash_name : string).

(** The outside of the manager: the file at [config_path] ([None] when it
    does not exist, [Some None] when reading or parsing it raises), whether
    it can be opened for writing, and the console. *)
Record store : Type := {
  file : option (option dict);
  writable : bool;
  console : list line
}.

(** A [ConfigManager] object with the outside it lives in. *)
Record manager : Type := {
  config : dict;
  outside : store
}.

Definition print (l : line) (w : store) : store :=
  {| file := file w; writable := writable w; console := console w ++ [l] |}.

Definition _save_config (config : dict) (w : store) : store :=
  if writable w then
    {| file := Some (Some config); writable := writable w; console := console w |}
  else print SaveError w.

Definition default_config : dict :=
  {| api_key := Some ""; check_interval := Some 30; min_prices := Some ∅ |}.

(** [{}] *)
Definition empty : dict :=
  {| api_key := None; check_interval := None; min_prices := None |}.

Definition _load_config (w : store) : dict * store :=
  match file w with
  | None => (default_config, _save_config default_config w)
  | Some (Some config) => (config, w)
  | Some None => (empty, print LoadError w)
  end.

(** [ConfigManager()] *)
Definition init (w : store) : manager :=
  let (config, w) := _load_config w in
  {| config := config; outside := w |}.

(** The dictionary as the getters read it. *)
Definition view (config : dict) : ConfigManager.config :=
  {| ConfigManager.api_key := default "" (api_key config);
     ConfigManager.check_interval := default 30 (check_interval config);
     ConfigManager.min_prices := default ∅ (min_prices config) |}.

Definition get_api_key (m : manager) : string :=
  ConfigManager.get_api_key (view (config m)).

Definition get_check_interval (m : manager) : Z :=
  ConfigManager.get_check_interval (view (config m)).

Definition get_min_price (m : manager) (market_hash_name : string) : option float :=
  ConfigManager.get_min_price (view (config m)) market_hash_name.

Definition get_all_min_prices (m : manager) : gmap string float :=
  ConfigManager.get_all_min_prices (view (config m)).

Definition set_min_price (market_hash_name : string) (price : float) (m : manager)
  : manager :=
  let config :=
    match min_prices (config m) with
    | None => {| api_key := api_key (config m);
                 check_interval := check_interval (config m);
                 min_prices := Some ∅ |}
    | Some _ => config m
    end in
  let config :=
    {| api_key := api_key config;
       check_interval := check_interval config;
       min_prices := Some (<[market_hash_name := price]> (default ∅ (min_prices config))) |} in
  let w := _save_config config (outside m) in
  {| config := config; outside := print (MinPriceSet market_hash_name price) w |}.

Definition remove_min_price (market_hash_name : string) (m : manager) : manager :=
  match min_prices (config m) with
  | Some prices =>
      if bool_decide (is_Some (prices !! market_hash_name)) then
        let config :=
          {| api_key := api_key (config m);
             check_interval := check_interval (config m);
             min_prices := Some (delete market_hash_name prices) |} in
        let w := _save_config config (outside m) in
        {| config := config; outside := print (MinPriceRemoved market_hash_name) w |}
      else m
  | None => m
  end.

End ConfigFile.

(** A network on which no request fails in transit. *)
Definition reliable (env : env) : Prop :=
  forall (n : nat) (req : request) (e : string), ~ transient (http_get env n req) e.

(** The network side of the evaluation of a list of raw items: one
    best-offer request and a pause of half a second for each. *)
Definition paced_queries (api_key : string) (my_items : list raw_item) : list event :=
  flat_map (fun raw => [EvGet (best_offer_request api_key (raw_market_hash_name raw));
                        EvSleep (1 # 2)]) my_items.

(** The position as the specification words it, on decimal prices and in
    exact arithmetic: 1 when the current price is at most the best price,
    and [max(2, floor((current - best) / 0.01) + 1)] otherwise. *)
Definition decimal_position (current_price best_price : Q) : Z :=
  if Qle_bool current_price best_price then 1
  else Z.max 2 (Qfloor ((current_price - best_price) / (1 # 100)) + 1).

(** [k] is the integer nearest to the float [x], and the even one of the two
    nearest when [x] lies halfway between them. The float [s m e] is the
    fraction [num / den] below. *)
Definition nearest_integer (x : float) (k : Z) : Prop :=
  match x with
  | S754_zero _ => k = 0
  | S754_finite s m e =>
      let num := cond_Zopp s (Z.pos m) * 2 ^ Z.max 0 e in
      let den := 2 ^ Z.max 0 (- e) in
      2 * Z.abs (k * den - num) <= den
      /\ (2 * Z.abs (k * den - num) = den -> Z.even k = true)
  | S754_infinity _ | S754_nan => False
  end.

(** * Properties *)

(** ** The literals of the source as binary64 values *)

Example literal_cent : literal 1 2 = S754_finite false 5764607523034235 (-59).
Proof. vm_compute. reflexivity. Qed.

Example literal_114_391 : literal 114391 3 = S754_finite false 8049551015227163 (-46).
Proof. vm_compute. reflexivity. Qed.

Example thousand : of_small_int 1000 = S754_finite false 8796093022208000 (-43).
Proof. vm_compute. reflexivity. Qed.

(** ** Traces *)

Lemma net_app (t u : list event) : net (t ++ u) = net t ++ net u.
Proof. unfold net. apply List.filter_app. Qed.

Lemma gets_app (t u : list event) : gets (t ++ u) = gets t ++ gets u.
Proof. unfold gets. apply flat_map_app. Qed.

Lemma prints_app (t u : list event) : prints (t ++ u) = prints t ++ prints u.
Proof. unfold prints. apply flat_map_app. Qed.

Lemma net_print (t : list event) (m : message) : net (t ++ [EvPrint m]) = net t.
Proof. rewrite net_app. simpl. apply app_nil_r. Qed.

Lemma gets_print (t : list event) (m : message) : gets (t ++ [EvPrint m]) = gets t.
Proof. rewrite gets_app. simpl. apply app_nil_r. Qed.

Ltac io_unfold :=
  unfold when in *;
  unfold bind, ret, raise, lift, print, sleep, emit, session_get, input in *.

(** ** The generic client: [_make_request] *)

Lemma loop_retries (req : request) (attempt : Z) (rest : list Z) (e : string)
    (env : env) (w : world) :
  transient (http_get env (http_count w) req) e ->
  (attempt <? 3 - 1) = true ->
  MarketAPI._make_request_loop req 3 (attempt :: rest) env w
  = MarketAPI._make_request_loop req 3 rest env (after_transient req attempt e w).
Proof.
  intros [H|H] Ha; simpl; io_unfold; simpl; rewrite H, Ha; reflexivity.
Qed.

Lemma loop_gives_up (req : request) (attempt : Z) (rest : list Z) (e : string)
    (env : env) (w : world) :
  transient (http_get env (http_count w) req) e ->
  (attempt <? 3 - 1) = false ->
  MarketAPI._make_request_loop req 3 (attempt :: rest) env w
  = (Ok (Some (MarketAPI.failure e)),
     after_final req (http_get env (http_count w) req) w).
Proof.
  intros [H|H] Ha; simpl; io_unfold; simpl; rewrite H, Ha; reflexivity.
Qed.

Lemma loop_returns (req : request) (attempt : Z) (rest : list Z)
    (env : env) (w : world) :
  (forall e, ~ transient (http_get env (http_count w) req) e) ->
  MarketAPI._make_request_loop req 3 (attempt :: rest) env w
  = (Ok (Some (final_response (http_get env (http_count w) req))),
     after_final req (http_get env (http_count w) req) w).
Proof.
  intros Hnt. simpl. io_unfold. simpl.
  destruct (http_get env (http_count w) req) as [body|e|e|e|e];
    try (exfalso; apply (Hnt e); unfold transient; auto; fail);
    unfold after_final, final_response; simpl;
    destruct (String.eqb (endpoint req) "set-price"); simpl;
    rewrite ?app_nil_r, <- ?app_assoc; reflexivity.
Qed.

Lemma net_after_final (req : request) (r : http_result) (w : world) :
  net (trace (after_final req r w)) = net (trace w) ++ [EvGet req].
Proof.
  unfold after_final; simpl. rewrite !net_app. simpl.
  destruct r; simpl; try destruct (String.eqb (endpoint req) "set-price");
    simpl; rewrite ?app_nil_r; reflexivity.
Qed.

Lemma net_after_transient (req : request) (a : Z) (e : string) (w : world) :
  net (trace (after_transient req a e w)) = net (trace w) ++ [EvGet req; EvSleep (10 # 1)].
Proof.
  unfold after_transient; simpl. rewrite !net_app. simpl.
  rewrite <- !app_assoc. reflexivity.
Qed.

Section MakeRequest.

Variable api_key : string.
Variables (ep : string) (ps : list (string * pval)).
Variables (env : env) (w : world).

Let req : request :=
  {| endpoint := ep; params := ps ++ [("key", PStr api_key)] |}.
Let answer (k : nat) : http_result := http_get env (http_count w + k)%nat req.
Let run := MarketAPI._make_request api_key ep ps env w.

(** C6. Every call of the client goes through [_make_request]. When the
    three attempts all end in a connection failure or a timeout, the request
    has been sent exactly three times with a 10-second wait between two
    attempts, and the call returns (as a value, not as an exception) the
    failed result that carries the text of the last failure. When [j < 3]
    such failures are followed by any other answer, that answer ends the
    call after [j + 1] attempts: a decoded body is returned as it is, and
    any other request failure (an HTTP error status, for one) is returned
    at once as a failed result, with no further attempt. *)
Theorem make_request_retry_policy :
  (forall e0 e1 e2 : string,
      transient (answer 0) e0 -> transient (answer 1) e1 -> transient (answer 2) e2 ->
      fst run = Ok (Some (MarketAPI.failure e2))
      /\ net (trace (snd run)) = net (trace w) ++ attempts_with_waits 3 req (10 # 1)
      /\ http_count (snd run) = (http_count w + 3)%nat)
  /\ (forall (j : nat) (r : http_result),
        (j < 3)%nat ->
        (forall k, (k < j)%nat -> exists e, transient (answer k) e) ->
        answer j = r -> (forall e, ~ transient r e) ->
        fst run = Ok (Some (final_response r))
        /\ net (trace (snd run)) = net (trace w) ++ attempts_with_waits (S j) req (10 # 1)
        /\ http_count (snd run) = (http_count w + S j)%nat).
Proof.
  unfold run, MarketAPI._make_request, MarketAPI._make_request_retries.
  fold req. change (range 3) with [0; 1; 2]. unfold answer.
  split.
  - intros e0 e1 e2 H0 H1 H2. rewrite Nat.add_0_r in H0.
    rewrite (loop_retries _ _ _ e0) by (exact H0 || reflexivity).
    rewrite (loop_retries _ _ _ e1)
      by ((simpl; rewrite <- Nat.add_1_r; exact H1) || reflexivity).
    rewrite (loop_gives_up _ _ _ e2)
      by ((simpl; replace (S (S (http_count w))) with (http_count w + 2)%nat by lia;
           exact H2) || reflexivity).
    cbn [fst snd]. rewrite net_after_final, !net_after_transient. simpl.
    rewrite <- !app_assoc. simpl. split; [reflexivity|]. split; [reflexivity|lia].
  - intros j r Hj Hk Hr Hnt.
    destruct j as [|[|[|j]]]; [| | |lia].
    + rewrite Nat.add_0_r in Hr. subst r.
      rewrite loop_returns by exact Hnt. cbn [fst snd].
      rewrite net_after_final. simpl. split; [reflexivity|]. split; [reflexivity|lia].
    + destruct (Hk 0%nat ltac:(lia)) as [e0 H0]. rewrite Nat.add_0_r in H0.
      rewrite (loop_retries _ _ _ e0) by (exact H0 || reflexivity).
      rewrite Nat.add_1_r in Hr. subst r.
      rewrite loop_returns by exact Hnt. cbn [fst snd].
      rewrite net_after_final, net_after_transient. simpl.
      rewrite <- !app_assoc. simpl. split; [reflexivity|]. split; [reflexivity|lia].
    + destruct (Hk 0%nat ltac:(lia)) as [e0 H0]. rewrite Nat.add_0_r in H0.
      destruct (Hk 1%nat ltac:(lia)) as [e1 H1]. rewrite Nat.add_1_r in H1.
      rewrite (loop_retries _ _ _ e0) by (exact H0 || reflexivity).
      rewrite (loop_retries _ _ _ e1) by (exact H1 || reflexivity).
      replace (http_count w + 2)%nat with (S (S (http_count w))) in Hr by lia. subst r.
      rewrite loop_returns by exact Hnt. cbn [fst snd].
      rewrite net_after_final, !net_after_transient. simpl.
      rewrite <- !app_assoc. simpl. split; [reflexivity|]. split; [reflexivity|lia].
Qed.

End MakeRequest.

(** ** Submitting a price: [set_price] and [update_item_price] *)

Lemma set_price_answered (api_key item_id : string) (price : float) (pf : Z)
    (env : env) (w : world) :
  MarketAPI.price_formatted price = Ok pf ->
  let req := set_price_request api_key item_id pf in
  let r := http_get env (http_count w) req in
  (forall e, ~ transient r e) ->
  exists w',
    MarketAPI.set_price api_key item_id price env w = (Ok (Some (final_response r)), w')
    /\ net (trace w') = net (trace w) ++ [EvGet req]
    /\ http_count w' = S (http_count w)
    /\ input_count w' = input_count w.
Proof.
  intros Hpf req r Hnt.
  unfold MarketAPI.set_price, MarketAPI.set_price_cur.
  unfold bind at 1. unfold lift. rewrite Hpf.
  unfold MarketAPI._make_request, MarketAPI._make_request_retries.
  change (range 3) with [0; 1; 2].
  change ([("item_id", PStr item_id); ("price", PInt pf); ("cur", PStr "USD")]
            ++ [("key", PStr api_key)]) with (params req).
  change {| endpoint := "set-price"; params := params req |} with req.
  io_unfold. cbn [fst snd].
  match goal with
  | |- context [MarketAPI._make_request_loop req 3 _ env ?w0] => set (w5 := w0)
  end.
  assert (Hc : http_count w5 = http_count w) by reflexivity.
  rewrite loop_returns by (rewrite Hc; exact Hnt).
  rewrite Hc. fold r. eexists. split; [reflexivity|].
  rewrite net_after_final. unfold w5; simpl. rewrite !net_app. simpl.
  rewrite !app_nil_r. repeat split; reflexivity.
Qed.

Lemma bind_ok {A B : Type} (m : M A) (k : A -> M B) (env : env) (w w' : world) (a : A) :
  m env w = (Ok a, w') -> bind m k env w = k a env w'.
Proof. intros H. unfold bind. rewrite H. reflexivity. Qed.

Lemma bind_raise {A B : Type} (m : M A) (k : A -> M B) (env : env) (w w' : world) (x : exn) :
  m env w = (Raise x, w') -> bind m k env w = (Raise x, w').
Proof. intros H. unfold bind. rewrite H. reflexivity. Qed.

Section UpdateLoop.

Variables (api_key : string) (item : ItemInfo) (new_price : float) (pf : Z).
Variable env : env.

Hypothesis Hpf : MarketAPI.price_formatted new_price = Ok pf.

Let req : request := set_price_request api_key (item_id item) pf.

(** An attempt that is answered "too often" before the last one: wait and go
    on with the remaining attempts. *)
Lemma update_loop_waits (attempt : Z) (rest : list Z) (w : world) :
  (attempt <? 3 - 1) = true ->
  too_often (http_get env (http_count w) req) ->
  exists w',
    PriceManager.update_item_price_loop api_key item new_price (attempt :: rest) env w
    = PriceManager.update_item_price_loop api_key item new_price rest env w'
    /\ net (trace w') = net (trace w) ++ [EvGet req; EvSleep (10 # 1)]
    /\ http_count w' = S (http_count w)
    /\ input_count w' = input_count w.
Proof.
  intros Ha (body & Hb & Hs & He).
  cbn [PriceManager.update_item_price_loop].
  set (w0 := snd (when (0 <? attempt)
                    (print (MsgAttempt (attempt + 1) PriceManager.max_retries)) env w)).
  assert (H0 : when (0 <? attempt)
                 (print (MsgAttempt (attempt + 1) PriceManager.max_retries)) env w
               = (Ok tt, w0)) by (unfold w0; destruct (0 <? attempt); reflexivity).
  assert (Hw0 : http_count w0 = http_count w /\ input_count w0 = input_count w
                /\ net (trace w0) = net (trace w)).
  { unfold w0; destruct (0 <? attempt); simpl; rewrite ?net_app; simpl;
      rewrite ?app_nil_r; auto. }
  destruct Hw0 as (Hc0 & Hi0 & Hn0).
  rewrite (bind_ok _ _ _ _ _ _ H0).
  destruct (set_price_answered api_key (item_id item) new_price pf env w0 Hpf)
    as (w1 & Hsp & Hn1 & Hc1 & Hi1).
  { rewrite Hc0. fold req. rewrite Hb. intros e [H|H]; discriminate. }
  rewrite (bind_ok _ _ _ _ _ _ Hsp).
  rewrite Hc0 in Hsp |- *. fold req in Hn1, Hsp |- *. rewrite Hb. cbn [final_response].
  unfold MarketAPI.dict_of. rewrite (bind_ok _ _ _ w1 w1 body) by reflexivity.
  rewrite Hs, He. cbn [default]. unfold PriceManager.max_retries. rewrite Ha.
  cbn [String.eqb Ascii.eqb Bool.eqb andb].
  io_unfold. eexists. split; [reflexivity|]. cbn [trace http_count input_count].
  rewrite !net_app, Hn1, Hn0. simpl. rewrite <- !app_assoc. simpl.
  repeat split; congruence.
Qed.

(** An attempt whose answer ends the submission: any failure on the last
    attempt, and a failure other than "too often" on an earlier one. *)
Lemma update_loop_fails (attempt : Z) (rest : list Z) (w : world) :
  let r := http_get env (http_count w) req in
  (forall e, ~ transient r e) ->
  resp_success (final_response r) = false ->
  (attempt <? 3 - 1) = false \/ resp_error (final_response r) <> Some "too_often" ->
  exists w',
    PriceManager.update_item_price_loop api_key item new_price (attempt :: rest) env w
    = (Ok false, w')
    /\ net (trace w') = net (trace w) ++ [EvGet req]
    /\ last (prints (trace w')) = Some (MsgDebugResponse (final_response r))
    /\ http_count w' = S (http_count w)
    /\ input_count w' = input_count w.
Proof.
  intros r Hnt Hs Hor.
  cbn [PriceManager.update_item_price_loop].
  set (w0 := snd (when (0 <? attempt)
                    (print (MsgAttempt (attempt + 1) PriceManager.max_retries)) env w)).
  assert (H0 : when (0 <? attempt)
                 (print (MsgAttempt (attempt + 1) PriceManager.max_retries)) env w
               = (Ok tt, w0)) by (unfold w0; destruct (0 <? attempt); reflexivity).
  assert (Hw0 : http_count w0 = http_count w /\ input_count w0 = input_count w
                /\ net (trace w0) = net (trace w)).
  { unfold w0; destruct (0 <? attempt); simpl; rewrite ?net_app; simpl;
      rewrite ?app_nil_r; auto. }
  destruct Hw0 as (Hc0 & Hi0 & Hn0).
  rewrite (bind_ok _ _ _ _ _ _ H0).
  destruct (set_price_answered api_key (item_id item) new_price pf env w0 Hpf)
    as (w1 & Hsp & Hn1 & Hc1 & Hi1).
  { rewrite Hc0. exact Hnt. }
  rewrite (bind_ok _ _ _ _ _ _ Hsp).
  rewrite Hc0 in Hsp |- *. fold req in Hn1, Hsp |- *. fold r.
  unfold MarketAPI.dict_of. rewrite (bind_ok _ _ _ w1 w1 (final_response r)) by reflexivity.
  rewrite Hs. unfold PriceManager.max_retries.
  assert (Hcond : String.eqb (default "Неизвестная ошибка" (resp_error (final_response r)))
                             "too_often" && (attempt <? 3 - 1) = false).
  { destruct Hor as [Ha|He]; [rewrite Ha; apply andb_false_r|].
    apply andb_false_iff. left. apply String.eqb_neq.
    destruct (resp_error (final_response r)) as [s|]; simpl;
      [congruence|discriminate]. }
  rewrite Hcond.
  io_unfold. destruct (attempt =? 3 - 1); eexists; (split; [reflexivity|]);
    cbn [trace http_count input_count];
    rewrite !net_app, !prints_app, Hn1, Hn0; simpl; rewrite ?app_nil_r;
    (split; [reflexivity|]); (split; [|split; congruence]);
    rewrite ?app_assoc; apply last_snoc.
Qed.

End UpdateLoop.

(** Once the update is confirmed (automatically or by the operator),
    [update_item_price] is its retry loop, started in a world that differs
    only by console lines and the prompt. *)
Lemma update_item_price_confirmed (api_key : string) (item : ItemInfo)
    (new_price : float) (auto_confirm : bool) (env : env) (w : world) :
  auto_confirm = true \/ operator_answer env (input_count w) ∈ ["yes"; "y"; "да"] ->
  exists w0,
    PriceManager.update_item_price api_key item new_price auto_confirm env w
    = PriceManager.update_item_price_loop api_key item new_price
        (range PriceManager.max_retries) env w0
    /\ net (trace w0) = net (trace w)
    /\ http_count w0 = http_count w.
Proof.
  intros Hc. unfold PriceManager.update_item_price. io_unfold. cbn [fst snd].
  destruct auto_confirm; cbn [negb].
  - eexists. split; [reflexivity|]. cbn [trace http_count].
    rewrite !net_app. simpl. rewrite !app_nil_r. auto.
  - destruct Hc as [Hc|Hc]; [discriminate|]. cbn [input_count].
    rewrite bool_decide_eq_true_2 by exact Hc. cbn [negb].
    eexists. split; [reflexivity|]. cbn [trace http_count].
    rewrite !net_app. simpl. rewrite !app_nil_r. auto.
Qed.

Section UpdateItemPrice.

Variables (api_key : string) (item : ItemInfo) (new_price : float) (pf : Z).
Variables (auto_confirm : bool) (env : env) (w : world).

Let req : request := set_price_request api_key (item_id item) pf.
Let answer (k : nat) : http_result := http_get env (http_count w + k)%nat req.
Let run := PriceManager.update_item_price api_key item new_price auto_confirm env w.

(** C5. A confirmed submission whose every attempt is answered "too often"
    sends the request exactly three times, waits 10 seconds between two
    attempts, returns [False], and ends by printing the raw response of the
    last attempt. An answer that carries any other application error ends the
    submission at that attempt: [False] is returned, the raw response is
    printed, and no further request is sent. *)
Theorem update_item_price_retry_policy :
  MarketAPI.price_formatted new_price = Ok pf ->
  auto_confirm = true \/ operator_answer env (input_count w) ∈ ["yes"; "y"; "да"] ->
  (too_often (answer 0) -> too_often (answer 1) ->
   forall body, answer 2 = HttpOk body ->
                resp_success body = false -> resp_error body = Some "too_often" ->
     fst run = Ok false
     /\ net (trace (snd run)) = net (trace w) ++ attempts_with_waits 3 req (10 # 1)
     /\ last (prints (trace (snd run))) = Some (MsgDebugResponse body)
     /\ http_count (snd run) = (http_count w + 3)%nat)
  /\ (forall (j : nat) (r : http_result),
        (j < 3)%nat ->
        (forall k, (k < j)%nat -> too_often (answer k)) ->
        answer j = r -> (forall e, ~ transient r e) -> other_error (final_response r) ->
        fst run = Ok false
        /\ net (trace (snd run)) = net (trace w) ++ attempts_with_waits (S j) req (10 # 1)
        /\ last (prints (trace (snd run))) = Some (MsgDebugResponse (final_response r))
        /\ http_count (snd run) = (http_count w + S j)%nat).
Proof.
  intros Hpf Hconf.
  destruct (update_item_price_confirmed api_key item new_price auto_confirm env w Hconf)
    as (w0 & Hrun & Hn0 & Hc0).
  unfold run. rewrite Hrun. change (range PriceManager.max_retries) with [0; 1; 2].
  unfold answer. clear Hrun run. split.
  - intros H0 H1 body H2 Hs He. rewrite Nat.add_0_r, <- Hc0 in H0.
    destruct (update_loop_waits api_key item new_price pf env Hpf 0 [1; 2] w0 eq_refl H0)
      as (w1 & E1 & Hn1 & Hc1 & _). rewrite E1.
    rewrite Nat.add_1_r, <- Hc0, <- Hc1 in H1.
    destruct (update_loop_waits api_key item new_price pf env Hpf 1 [2] w1 eq_refl H1)
      as (w2 & E2 & Hn2 & Hc2 & _). rewrite E2.
    replace (http_count w + 2)%nat with (http_count w2) in H2 by lia.
    destruct (update_loop_fails api_key item new_price pf env Hpf 2 [] w2)
      as (w3 & E3 & Hn3 & Hl3 & Hc3 & _).
    { fold req. rewrite H2. intros e [H|H]; discriminate. }
    { fold req. rewrite H2. exact Hs. }
    { left. reflexivity. }
    rewrite E3. cbn [fst snd]. fold req in Hn1, Hn2, Hn3, Hl3. rewrite H2 in Hl3.
    rewrite Hn3, Hn2, Hn1, Hn0, <- !app_assoc. simpl.
    repeat split; [exact Hl3|lia].
  - intros j r Hj Hk Hr Hnt [Hs He].
    destruct j as [|[|[|j]]]; [| | |lia].
    + rewrite Nat.add_0_r, <- Hc0 in Hr. subst r.
      destruct (update_loop_fails api_key item new_price pf env Hpf 0 [1; 2] w0)
        as (w3 & E3 & Hn3 & Hl3 & Hc3 & _); [exact Hnt|exact Hs|right; exact He|].
      rewrite E3. cbn [fst snd]. fold req in Hn3, Hl3.
      rewrite Hn3, Hn0. simpl. repeat split; [exact Hl3|lia].
    + pose proof (Hk 0%nat ltac:(lia)) as H0. rewrite Nat.add_0_r, <- Hc0 in H0.
      destruct (update_loop_waits api_key item new_price pf env Hpf 0 [1; 2] w0 eq_refl H0)
        as (w1 & E1 & Hn1 & Hc1 & _). rewrite E1.
      rewrite Nat.add_1_r, <- Hc0, <- Hc1 in Hr. subst r.
      destruct (update_loop_fails api_key item new_price pf env Hpf 1 [2] w1)
        as (w3 & E3 & Hn3 & Hl3 & Hc3 & _); [exact Hnt|exact Hs|right; exact He|].
      rewrite E3. cbn [fst snd]. fold req in Hn1, Hn3, Hl3.
      rewrite Hn3, Hn1, Hn0, <- !app_assoc. simpl. repeat split; [exact Hl3|lia].
    + pose proof (Hk 0%nat ltac:(lia)) as H0. rewrite Nat.add_0_r, <- Hc0 in H0.
      destruct (update_loop_waits api_key item new_price pf env Hpf 0 [1; 2] w0 eq_refl H0)
        as (w1 & E1 & Hn1 & Hc1 & _). rewrite E1.
      pose proof (Hk 1%nat ltac:(lia)) as H1. rewrite Nat.add_1_r, <- Hc0, <- Hc1 in H1.
      destruct (update_loop_waits api_key item new_price pf env Hpf 1 [2] w1 eq_refl H1)
        as (w2 & E2 & Hn2 & Hc2 & _). rewrite E2.
      replace (http_count w + 2)%nat with (http_count w2) in Hr by lia. subst r.
      destruct (update_loop_fails api_key item new_price pf env Hpf 2 [] w2)
        as (w3 & E3 & Hn3 & Hl3 & Hc3 & _); [exact Hnt|exact Hs|right; exact He|].
      rewrite E3. cbn [fst snd]. fold req in Hn1, Hn2, Hn3, Hl3.
      rewrite Hn3, Hn2, Hn1, Hn0, <- !app_assoc. simpl. repeat split; [exact Hl3|lia].
Qed.

End UpdateItemPrice.

(** ** Facts of binary64 arithmetic *)

Section Rounding.

Variables prec emax : Z.

Lemma iter_pos_invariant {A : Type} (P : A -> Prop) (f : A -> A) :
  (forall x, P x -> P (f x)) -> forall (p : positive) (x : A), P x -> P (SpecFloat.iter_pos f p x).
Proof.
  intros Hf p. induction p as [p IH|p IH|]; intros x Hx; simpl; auto.
Qed.

Lemma shr_1_nonneg (mrs : shr_record) : 0 <= shr_m mrs -> 0 <= shr_m (shr_1 mrs).
Proof.
  destruct mrs as [m r s]. simpl. intros Hm.
  destruct m as [|[p|p|]|p]; simpl; lia.
Qed.

Lemma shr_nonneg (mrs : shr_record) (e n : Z) :
  0 <= shr_m mrs -> 0 <= shr_m (fst (shr mrs e n)).
Proof.
  intros Hm. unfold shr. destruct n as [|p|p]; simpl; auto.
  apply (iter_pos_invariant (fun x => 0 <= shr_m x)); auto using shr_1_nonneg.
Qed.

Lemma shr_m_of_loc (m : Z) (l : location) : shr_m (shr_record_of_loc m l) = m.
Proof. destruct l as [|[ | | ]]; reflexivity. Qed.

Lemma shr_fexp_nonneg (m e : Z) (l : location) :
  0 <= m -> 0 <= shr_m (fst (shr_fexp prec emax m e l)).
Proof.
  intros Hm. unfold shr_fexp. apply shr_nonneg. rewrite shr_m_of_loc. exact Hm.
Qed.

Lemma round_nearest_even_nonneg (m : Z) (l : location) :
  0 <= m -> 0 <= round_nearest_even m l.
Proof.
  intros Hm. unfold round_nearest_even.
  destruct l as [|[ | | ]]; try destruct (Z.even m); lia.
Qed.

(** Rounding a non-negative mantissa never produces NaN, and keeps the sign
    it is given. *)
Lemma binary_round_aux_shape (sx : bool) (mx ex : Z) (lx : location) :
  0 <= mx ->
  match binary_round_aux prec emax sx mx ex lx with
  | S754_zero s | S754_infinity s | S754_finite s _ _ => s = sx
  | S754_nan => False
  end.
Proof.
  intros Hm. unfold binary_round_aux.
  pose proof (shr_fexp_nonneg mx ex lx Hm) as H1.
  destruct (shr_fexp prec emax mx ex lx) as [mrs' e']. simpl in H1.
  pose proof (shr_fexp_nonneg _ e' loc_Exact
                (round_nearest_even_nonneg _ (loc_of_shr_record mrs') H1)) as H2.
  destruct (shr_fexp prec emax _ e' loc_Exact) as [mrs'' e'']. simpl in H2.
  destruct (shr_m mrs'') as [|p|p]; [reflexivity| |lia].
  destruct (e'' <=? emax - prec); reflexivity.
Qed.

Lemma binary_round_shape (sx : bool) (mx : positive) (ex : Z) :
  match binary_round prec emax sx mx ex with
  | S754_zero s | S754_infinity s | S754_finite s _ _ => s = sx
  | S754_nan => False
  end.
Proof.
  unfold binary_round. destruct (shl_align mx ex _) as [mz ez].
  apply binary_round_aux_shape. lia.
Qed.

Lemma binary_normalize_not_nan (m e : Z) (szero : bool) :
  binary_normalize prec emax m e szero <> S754_nan.
Proof.
  unfold binary_normalize. destruct m as [|p|p]; [discriminate| |];
    match goal with
    | |- binary_round _ _ ?s ?m ?e <> _ =>
        pose proof (binary_round_shape s m e) as H;
        destruct (binary_round prec emax s m e); [discriminate..|contradiction|discriminate]
    end.
Qed.

(** A difference is NaN only when an operand is NaN or both are infinities. *)
Lemma SFsub_finite_not_nan (x y : spec_float) :
  x <> S754_nan -> is_finite y = true -> SFsub prec emax x y <> S754_nan.
Proof.
  intros Hx Hy. destruct x as [sx|sx| |sx mx ex]; [| |contradiction|];
    destruct y as [sy|sy| |sy my ey]; try discriminate; simpl;
    try (destruct sx, sy; discriminate).
  apply binary_normalize_not_nan.
Qed.

End Rounding.

(** The order of floats: comparing the other way round gives the opposite
    answer. *)
Lemma SFcompare_antisym (x y : spec_float) (c : comparison) :
  SFcompare x y = Some c -> SFcompare y x = Some (CompOpp c).
Proof.
  destruct x as [sx|sx| |sx mx ex], y as [sy|sy| |sy my ey]; simpl;
    try discriminate; intros H; injection H as <-;
    try (destruct sx; reflexivity); try (destruct sy; reflexivity);
    try (destruct sx, sy; reflexivity).
  pose proof (Pos.compare_cont_antisym mx my Eq) as Hm. simpl in Hm.
  destruct sx, sy; try reflexivity;
    rewrite (Z.compare_antisym ex ey); destruct (ex ?= ey) eqn:E; simpl; try reflexivity;
    rewrite <- Hm; destruct (Pos.compare_cont Eq mx my); reflexivity.
Qed.

Lemma SFcompare_defined (x y : spec_float) :
  is_nan x = false -> is_nan y = false -> exists c, SFcompare x y = Some c.
Proof.
  destruct x, y; simpl; try discriminate; eauto.
Qed.

(** For two numbers, [not (x >= y)] is [x < y]. *)
Lemma not_fge_flt (x y : float) :
  is_nan x = false -> is_nan y = false -> fge x y = false -> flt x y = true.
Proof.
  intros Hx Hy. unfold fge, flt, SFleb, SFltb.
  destruct (SFcompare_defined x y Hx Hy) as [c Hc].
  rewrite (SFcompare_antisym x y c Hc), Hc. destruct c; simpl; congruence.
Qed.

Lemma cent_finite : is_finite PriceManager.cent = true.
Proof. reflexivity. Qed.

Lemma candidate_not_nan (best_price : float) :
  is_nan best_price = false -> is_nan (fsub best_price PriceManager.cent) = false.
Proof.
  intros Hb. pose proof (SFsub_finite_not_nan prec emax best_price PriceManager.cent) as H.
  destruct (fsub best_price PriceManager.cent) eqn:E; try reflexivity.
  exfalso. apply H; [destruct best_price; discriminate|apply cent_finite|exact E].
Qed.

(** ** The decision: [should_update_price] *)

Section Decision.

Variable config : ConfigManager.config.
Variable item : ItemInfo.
Variables (env : env) (w : world).

Let new_price : float := fsub (best_price item) PriceManager.cent.
Let decision := PriceManager.should_update_price config item env w.

(** The decision never raises; it is either "no update" or an update to the
    candidate price, and it performs no request. *)
Lemma should_update_price_cases :
  (fst decision = Ok (false, None) \/ decision = (Ok (true, Some new_price), w))
  /\ net (trace (snd decision)) = net (trace w)
  /\ http_count (snd decision) = http_count w
  /\ input_count (snd decision) = input_count w.
Proof.
  unfold decision, PriceManager.should_update_price. fold new_price.
  destruct (position item =? 1); [simpl; auto|].
  io_unfold.
  destruct (ConfigManager.get_min_price config (market_hash_name item)) as [m|].
  - destruct (flt new_price m); cbn [fst snd trace http_count input_count].
    + rewrite net_print. auto.
    + destruct (fge new_price (current_price item)); simpl; auto.
  - destruct (fge new_price (current_price item)); simpl; auto.
Qed.


End Decision.

Section Floor.

Variables (api_key : string) (config : ConfigManager.config).
Variable item : ItemInfo.
Variable floor_price : float.
Variables (auto_confirm : bool) (st : stats).
Variables (env : env) (w : world).

Let decision := PriceManager.should_update_price config item env w.
Let run := PriceManager.process_item api_key config auto_confirm item st env w.

(** C2. With a configured floor that the candidate price
    [best_price - 0.01] is strictly below, the decision is "no update",
    whatever the current price and the position are, and processing the
    listing sends no request and does not count an update. *)
Theorem floor_blocks_update :
  ConfigManager.get_min_price config (market_hash_name item) = Some floor_price ->
  flt (fsub (best_price item) PriceManager.cent) floor_price = true ->
  fst decision = Ok (false, None)
  /\ (exists st', fst run = Ok st' /\ updated st' = updated st)
  /\ gets (trace (snd run)) = gets (trace w)
  /\ http_count (snd run) = http_count w.
Proof.
  intros Hm Hf.
  unfold decision, run, PriceManager.process_item, PriceManager.should_update_price.
  destruct (position item =? 1).
  - io_unfold. cbn [fst snd trace http_count]. rewrite gets_print. eauto 6.
  - io_unfold. rewrite Hm, Hf. cbn [fst snd].
    destruct (truthy floor_price); cbn [andb fst snd trace http_count];
      rewrite gets_print; eauto 6.
Qed.

End Floor.

(** ** Evaluating a listing: [query_item_info] *)





Section Fallback.

Variable api_key : string.
Variable raw : raw_item.
Variable current : float.
Variables (env : env) (w : world).
Variables (price_info : response) (w2 : world).

Let name : string := raw_market_hash_name raw.
Let w1 : world := snd (print (MsgQuerying name) env w).

Hypothesis Hprice : float_of_jnum (raw_price raw) = Ok current.
Hypothesis Hnum : is_nan current = false.
Hypothesis Hquery :
  MarketAPI.get_best_offer_for_item api_key name env w1 = (Ok (Some price_info), w2).


End Fallback.

Section NoOffers.

Variable api_key : string.
Variable raw : raw_item.
Variable current : float.
Variables (env : env) (w : world).
Variables (price_info : response) (w2 : world).

Let name : string := raw_market_hash_name raw.
Let w1 : world := snd (print (MsgQuerying name) env w).
Let info : ItemInfo :=
  {| item_id := raw_item_id raw; market_hash_name := name;
     current_price := current; best_price := current; position := 1 |}.


End NoOffers.

Section FailedQuery.

Variable api_key : string.
Variable raw : raw_item.
Variable current : float.
Variables (env : env) (w : world).
Variables (price_info : response) (w2 : world).

Let name : string := raw_market_hash_name raw.
Let w1 : world := snd (print (MsgQuerying name) env w).
Let info : ItemInfo :=
  {| item_id := raw_item_id raw; market_hash_name := name;
     current_price := current; best_price := current; position := 1 |}.


End FailedQuery.

(** ** A cycle: [process_all_items] *)

Section Cycle.

Variables (api_key : string) (config : ConfigManager.config).
Variable auto_confirm : bool.

(** [process_item] moves the counters as the outcome of the listing says. *)
Lemma process_item_outcome (item : ItemInfo) (st : stats) (env : env) (w : world) :
  PriceManager.process_item api_key config auto_confirm item st env w
  = match item_outcome api_key config auto_confirm item env w with
    | (Ok o, w') => (Ok (count o st), w')
    | (Raise x, w') => (Raise x, w')
    end.
Proof.
  unfold PriceManager.process_item, item_outcome.
  destruct (position item =? 1); [reflexivity|].
  unfold bind at 1 3.
  destruct (PriceManager.should_update_price config item env w)
    as [[[should_update new_price]|x] w1]; [|reflexivity].
  destruct should_update.
  - destruct new_price as [p|]; [|reflexivity].
    unfold bind.
    destruct (PriceManager.update_item_price api_key item p auto_confirm env w1)
      as [[[|]|x] w2]; reflexivity.
  - destruct (ConfigManager.get_min_price config (market_hash_name item)) as [m|];
      [|reflexivity].
    destruct (flt (fsub (best_price item) PriceManager.cent) m);
      [|rewrite andb_false_r; reflexivity].
    rewrite andb_true_r. unfold ret, count. destruct st, (truthy m); simpl;
      rewrite ?Z.add_0_r; reflexivity.
Qed.

Lemma process_items_outcomes (items : list ItemInfo) (st : stats) (env : env) (w : world) :
  PriceManager.process_items api_key config auto_confirm items st env w
  = match outcomes api_key config auto_confirm items env w with
    | (Ok os, w') => (Ok (tally os st), w')
    | (Raise x, w') => (Raise x, w')
    end.
Proof.
  revert st w. induction items as [|item rest IH]; intros st w; [reflexivity|].
  cbn [PriceManager.process_items outcomes]. unfold bind at 1 2.
  rewrite process_item_outcome.
  destruct (item_outcome api_key config auto_confirm item env w) as [[o|x] w1];
    [|reflexivity].
  rewrite IH. unfold bind.
  destruct (outcomes api_key config auto_confirm rest env w1) as [[os|x] w2];
    reflexivity.
Qed.

Lemma outcomes_length (items : list ItemInfo) (env : env) (w w' : world)
    (os : list outcome) :
  outcomes api_key config auto_confirm items env w = (Ok os, w') ->
  length os = length items.
Proof.
  revert w w' os. induction items as [|item rest IH]; intros w w' os.
  - intros H. injection H as <- _. reflexivity.
  - cbn [outcomes]. unfold bind at 1.
    destruct (item_outcome api_key config auto_confirm item env w) as [[o|x] w1];
      [|discriminate].
    unfold bind at 1.
    destruct (outcomes api_key config auto_confirm rest env w1) as [[os1|x] w2] eqn:E;
      [|discriminate].
    intros H. injection H as <- _. simpl. f_equal. exact (IH _ _ _ E).
Qed.

End Cycle.

(** Each outcome moves exactly one of the three counters, by one. *)
Lemma count_one (o : outcome) (st : stats) :
  total (count o st) = total st
  /\ ((first_position (count o st) = first_position st + 1
       /\ updated (count o st) = updated st /\ skipped (count o st) = skipped st
       /\ below_min (count o st) = below_min st)
      \/ (first_position (count o st) = first_position st
          /\ updated (count o st) = updated st + 1 /\ skipped (count o st) = skipped st
          /\ below_min (count o st) = below_min st)
      \/ (first_position (count o st) = first_position st
          /\ updated (count o st) = updated st /\ skipped (count o st) = skipped st + 1
          /\ below_min st <= below_min (count o st) <= below_min st + 1)).
Proof.
  destruct o as [|m| | |]; simpl; try destruct (truthy m); split; auto; lia.
Qed.

Lemma tally_invariant (os : list outcome) (st : stats) :
  total (tally os st) = total st
  /\ first_position (tally os st) + updated (tally os st) + skipped (tally os st)
     = first_position st + updated st + skipped st + Z.of_nat (length os)
  /\ below_min st <= below_min (tally os st)
  /\ below_min (tally os st) - below_min st <= skipped (tally os st) - skipped st.
Proof.
  revert st. induction os as [|o os IH]; intros st; [simpl; lia|].
  change (tally (o :: os) st) with (tally os (count o st)).
  specialize (IH (count o st)). pose proof (count_one o st) as H.
  rewrite length_cons, Nat2Z.inj_succ. lia.
Qed.

Lemma count_comm (o1 o2 : outcome) (st : stats) :
  count o1 (count o2 st) = count o2 (count o1 st).
Proof.
  destruct o1, o2, st; simpl; f_equal; lia.
Qed.

Lemma tally_permutation (os os' : list outcome) :
  Permutation os os' -> forall st, tally os st = tally os' st.
Proof.
  induction 1 as [|o l l' _ IH|o1 o2 l|l l' l'' _ IH1 _ IH2]; intros st.
  - reflexivity.
  - apply IH.
  - unfold tally. simpl. rewrite count_comm. reflexivity.
  - rewrite IH1. apply IH2.
Qed.

Section Counters.

Variables (api_key : string) (config : ConfigManager.config).
Variable auto_confirm : bool.
Variables (env : env) (w : world).

(** C10. The statistics [process_all_items] returns satisfy
    [first_position + updated + skipped = total] and
    [0 <= below_min <= skipped]; the reason is that every listing moves
    exactly one of [first_position], [updated] and [skipped], by one, and
    [below_min] only together with [skipped]. *)
Theorem process_all_items_counters (st : stats) (w' : world) :
  PriceManager.process_all_items api_key config auto_confirm env w = (Ok st, w') ->
  first_position st + updated st + skipped st = total st
  /\ 0 <= below_min st <= skipped st
  /\ forall item st0 st1 env0 w0 w1,
      PriceManager.process_item api_key config auto_confirm item st0 env0 w0 = (Ok st1, w1) ->
      total st1 = total st0
      /\ ((first_position st1 = first_position st0 + 1
           /\ updated st1 = updated st0 /\ skipped st1 = skipped st0
           /\ below_min st1 = below_min st0)
          \/ (first_position st1 = first_position st0
              /\ updated st1 = updated st0 + 1 /\ skipped st1 = skipped st0
              /\ below_min st1 = below_min st0)
          \/ (first_position st1 = first_position st0
              /\ updated st1 = updated st0 /\ skipped st1 = skipped st0 + 1
              /\ below_min st0 <= below_min st1 <= below_min st0 + 1)).
Proof.
  unfold PriceManager.process_all_items. unfold bind at 1.
  destruct (PriceManager.get_my_items_info api_key env w) as [[items|x] w1];
    [|discriminate].
  rewrite process_items_outcomes.
  destruct (outcomes api_key config auto_confirm items env w1) as [[os|x] w2] eqn:E;
    [|discriminate].
  intros H. injection H as <- _.
  pose proof (outcomes_length _ _ _ _ _ _ _ _ E) as Hlen.
  pose proof (tally_invariant os (stats0 (Z.of_nat (length items)))) as (H1 & H2 & H3 & H4).
  fold (stats0 (Z.of_nat (length items))).
  simpl in H1, H2, H3, H4. rewrite Hlen in H2.
  split; [lia|]. split; [lia|].
  intros item st0 st1 env0 w0 w1' Hp. rewrite process_item_outcome in Hp.
  destruct (item_outcome api_key config auto_confirm item env0 w0) as [[o|x] w3];
    [|discriminate].
  injection Hp as <- _. apply count_one.
Qed.

(** C1, as the code has it. In a cycle over three listings of which one is
    already first, one is updated successfully and one is blocked by its
    (non-zero) floor, the statistics are total 3, first position 1, updated 1,
    skipped 1 and below floor 1: a listing that is already first is counted
    under [first_position] only, not under [skipped]. *)
Theorem three_listings_statistics (items : list ItemInfo) (w1 w2 : world)
    (os : list outcome) (new_price floor_price : float) :
  PriceManager.get_my_items_info api_key env w = (Ok items, w1) ->
  outcomes api_key config auto_confirm items env w1 = (Ok os, w2) ->
  Permutation os [AlreadyFirst; Updated new_price; BelowFloor floor_price] ->
  truthy floor_price = true ->
  PriceManager.process_all_items api_key config auto_confirm env w
  = (Ok {| total := 3; updated := 1; skipped := 1; first_position := 1; below_min := 1 |},
     w2).
Proof.
  intros Hi Ho Hp Ht.
  unfold PriceManager.process_all_items. rewrite (bind_ok _ _ _ _ _ _ Hi).
  rewrite process_items_outcomes, Ho.
  pose proof (outcomes_length _ _ _ _ _ _ _ _ Ho) as Hlen.
  rewrite (Permutation_length Hp) in Hlen. simpl in Hlen. rewrite <- Hlen.
  fold (stats0 (Z.of_nat 3)).
  rewrite (tally_permutation _ _ Hp). unfold tally. simpl. rewrite Ht. reflexivity.
Qed.

End Counters.

(** ** The statements at concrete inputs *)

(** The scenario of the claim C1: three listings, the first at the best
    offer, the second updated, the third blocked by its floor. The cycle
    counts one skipped listing, not two. *)
Lemma three_listings_skipped_is_not_two :
  let env := Scenario.market Scenario.three_listings [9500] (HttpOk Scenario.ok_response) in
  let items := PriceManager.get_my_items_info "KEY" env world0 in
  let run := PriceManager.process_all_items "KEY" Scenario.config true env world0 in
  (exists l, fst items = Ok l
             /\ fst (outcomes "KEY" Scenario.config true l env (snd items))
                = Ok [AlreadyFirst; Updated (literal 949 2); BelowFloor (literal 950 2)])
  /\ fst run = Ok {| total := 3; updated := 1; skipped := 1;
                     first_position := 1; below_min := 1 |}
  /\ fst run <> Ok {| total := 3; updated := 1; skipped := 2;
                      first_position := 1; below_min := 1 |}.
Proof.
  cbv zeta. split; [|split].
  - eexists. split; vm_compute; reflexivity.
  - vm_compute. reflexivity.
  - vm_compute. discriminate.
Qed.

Lemma three_listings_statistics_witness :
  let env := Scenario.market Scenario.three_listings [9500] (HttpOk Scenario.ok_response) in
  fst (PriceManager.process_all_items "KEY" Scenario.config true env world0)
  = Ok {| total := 3; updated := 1; skipped := 1; first_position := 1; below_min := 1 |}.
Proof.
  cbv zeta.
  set (env := Scenario.market Scenario.three_listings [9500] (HttpOk Scenario.ok_response)).
  set (items := [Scenario.first; Scenario.second; Scenario.third]).
  rewrite (three_listings_statistics "KEY" Scenario.config true env world0 items
             (snd (PriceManager.get_my_items_info "KEY" env world0))
             (snd (outcomes "KEY" Scenario.config true items env
                     (snd (PriceManager.get_my_items_info "KEY" env world0))))
             [AlreadyFirst; Updated (literal 949 2); BelowFloor (literal 950 2)]
             (literal 949 2) (literal 950 2)).
  - reflexivity.
  - vm_compute. reflexivity.
  - vm_compute. reflexivity.
  - apply Permutation_refl.
  - reflexivity.
Defined.

Lemma process_all_items_counters_witness :
  let env := Scenario.market Scenario.three_listings [9500] (HttpOk Scenario.ok_response) in
  let st := {| total := 3; updated := 1; skipped := 1;
               first_position := 1; below_min := 1 |} in
  first_position st + updated st + skipped st = total st
  /\ 0 <= below_min st <= skipped st.
Proof.
  cbv zeta.
  set (env := Scenario.market Scenario.three_listings [9500] (HttpOk Scenario.ok_response)).
  destruct (process_all_items_counters "KEY" Scenario.config true env world0
              {| total := 3; updated := 1; skipped := 1;
                 first_position := 1; below_min := 1 |}
              (snd (PriceManager.process_all_items "KEY" Scenario.config true env world0)))
    as (H1 & H2 & _).
  - vm_compute. reflexivity.
  - split; assumption.
Defined.

Lemma floor_blocks_update_witness :
  let env := Scenario.market Scenario.three_listings [9500] (HttpOk Scenario.ok_response) in
  ConfigManager.get_min_price Scenario.config "AWP" = Some (literal 950 2)
  /\ flt (fsub (literal 950 2) PriceManager.cent) (literal 950 2) = true
  /\ fst (PriceManager.should_update_price Scenario.config Scenario.third env world0)
     = Ok (false, None).
Proof.
  cbv zeta.
  assert (Hm : ConfigManager.get_min_price Scenario.config
                 (market_hash_name Scenario.third) = Some (literal 950 2))
    by (vm_compute; reflexivity).
  assert (Hf : flt (fsub (best_price Scenario.third) PriceManager.cent) (literal 950 2) = true)
    by (vm_compute; reflexivity).
  split; [exact Hm|]. split; [exact Hf|].
  exact (proj1 (floor_blocks_update "KEY" Scenario.config Scenario.third (literal 950 2)
                  true (stats0 0)
                  (Scenario.market Scenario.three_listings [9500]
                     (HttpOk Scenario.ok_response))
                  world0 Hm Hf)).
Defined.


Lemma make_request_retry_policy_witness :
  let req := {| endpoint := "get-money"; params := [("key", PStr "KEY")] |} in
  let run := MarketAPI._make_request "KEY" "get-money" [] Scenario.offline world0 in
  fst run = Ok (Some (MarketAPI.failure "timed out"))
  /\ net (trace (snd run)) = attempts_with_waits 3 req (10 # 1)
  /\ http_count (snd run) = 3%nat.
Proof.
  cbv zeta.
  apply (proj1 (make_request_retry_policy "KEY" "get-money" [] Scenario.offline world0)
           "timed out" "timed out" "timed out"); left; reflexivity.
Defined.

Lemma update_item_price_retry_policy_witness :
  let busy := HttpOk (Scenario.error_response "too_often") in
  let env := Scenario.market Scenario.three_listings [9500] busy in
  let req := set_price_request "KEY" "2" 9490 in
  let run := PriceManager.update_item_price "KEY" Scenario.second (literal 949 2) true
               env world0 in
  MarketAPI.price_formatted (literal 949 2) = Ok 9490
  /\ fst run = Ok false
  /\ net (trace (snd run)) = attempts_with_waits 3 req (10 # 1)
  /\ last (prints (trace (snd run)))
     = Some (MsgDebugResponse (Scenario.error_response "too_often"))
  /\ http_count (snd run) = 3%nat.
Proof.
  cbv zeta.
  assert (Hpf : MarketAPI.price_formatted (literal 949 2) = Ok 9490)
    by (vm_compute; reflexivity).
  split; [exact Hpf|].
  assert (Hbusy : forall n r,
             too_often (http_get (Scenario.market Scenario.three_listings [9500]
                                    (HttpOk (Scenario.error_response "too_often")))
                          n (set_price_request "KEY" r 9490))).
  { intros n r. exists (Scenario.error_response "too_often"). repeat split. }
  apply (proj1 (update_item_price_retry_policy "KEY" Scenario.second (literal 949 2) 9490
                  true _ world0 Hpf (or_introl eq_refl))
           (Hbusy _ _) (Hbusy _ _) (Scenario.error_response "too_often"));
    reflexivity.
Defined.



(** ** The wire encoding of prices *)

(** Whatever the network does, the loop of [_make_request] sends the same
    request, at least once and at most once per attempt. *)
Lemma make_request_loop_gets (req : request) (attempts : list Z) (env : env) (w : world) :
  exists k : nat,
    (k <= length attempts)%nat
    /\ (attempts <> [] -> (1 <= k)%nat)
    /\ gets (trace (snd (MarketAPI._make_request_loop req 3 attempts env w)))
       = gets (trace w) ++ repeat req k.
Proof.
  revert w. induction attempts as [|a rest IH]; intros w.
  - exists 0%nat. simpl. rewrite app_nil_r. repeat split; [lia|congruence].
  - cbn [MarketAPI._make_request_loop]. unfold bind at 1. unfold session_get at 1.
    set (w1 := {| http_count := S (http_count w); input_count := input_count w;
                  trace := trace w ++ [EvGet req] |}).
    assert (Hg1 : gets (trace w1) = gets (trace w) ++ [req]).
    { unfold w1. cbn [trace]. rewrite gets_app. reflexivity. }
    assert (Hone : forall w', gets (trace w') = gets (trace w1) ->
              exists k : nat, (k <= length (a :: rest))%nat
                /\ (a :: rest <> [] -> (1 <= k)%nat)
                /\ gets (trace w') = gets (trace w) ++ repeat req k).
    { intros w' Hw'. exists 1%nat. rewrite Hw', Hg1. simpl.
      repeat split; lia. }
    destruct (http_get env (http_count w) req) as [body|e|e|e|e];
      try (apply Hone; io_unfold;
           destruct (String.eqb (endpoint req) "set-price");
           cbn [fst snd trace]; rewrite ?gets_print; reflexivity).
    all: destruct (a <? 3 - 1);
      try (apply Hone; io_unfold; cbn [fst snd trace]; rewrite ?gets_print; reflexivity).
    all: io_unfold; cbn [fst snd];
      match goal with
      | |- context [MarketAPI._make_request_loop _ 3 _ _ ?w0] =>
          destruct (IH w0) as (k & Hk & _ & Hg); exists (S k); rewrite Hg
      end;
      unfold w1; cbn [trace]; rewrite !gets_app; simpl;
      rewrite ?app_nil_r, <- ?app_assoc; simpl;
      (split; [lia|split; [lia|reflexivity]]).
Qed.


(** ** Rounding to nearest even, as [SpecFloat] implements it *)

Lemma digits2_pos_bounds (m : positive) :
  2 ^ (Z.pos (digits2_pos m) - 1) <= Z.pos m < 2 ^ Z.pos (digits2_pos m).
Proof.
  induction m as [p IH|p IH|]; simpl digits2_pos.
  - rewrite Pos2Z.inj_succ. replace (Z.succ (Z.pos (digits2_pos p)) - 1)
      with (Z.succ (Z.pos (digits2_pos p) - 1)) by lia.
    rewrite !Z.pow_succ_r by lia. lia.
  - rewrite Pos2Z.inj_succ. replace (Z.succ (Z.pos (digits2_pos p)) - 1)
      with (Z.succ (Z.pos (digits2_pos p) - 1)) by lia.
    rewrite !Z.pow_succ_r by lia. lia.
  - simpl. lia.
Qed.

Lemma Zdigits2_bounds (m : Z) :
  0 < m -> 0 < Zdigits2 m /\ 2 ^ (Zdigits2 m - 1) <= m < 2 ^ Zdigits2 m.
Proof.
  destruct m as [|p|p]; try lia. intros _. simpl. split; [lia|apply digits2_pos_bounds].
Qed.

Lemma Zdigits2_unique (m d : Z) :
  2 ^ (d - 1) <= m < 2 ^ d -> 0 < d -> Zdigits2 m = d.
Proof.
  intros Hm Hd.
  assert (0 < m) by (pose proof (Z.pow_pos_nonneg 2 (d - 1)); lia).
  destruct (Zdigits2_bounds m H) as (Hd' & Hb).
  destruct (Z.lt_trichotomy (Zdigits2 m) d) as [Hlt|[Heq|Hgt]]; [|exact Heq|].
  - assert (2 ^ Zdigits2 m <= 2 ^ (d - 1)) by (apply Z.pow_le_mono_r; lia). lia.
  - assert (2 ^ d <= 2 ^ (Zdigits2 m - 1)) by (apply Z.pow_le_mono_r; lia). lia.
Qed.

Lemma Zdigits2_mono (m n : Z) : 0 < m -> m <= n -> Zdigits2 m <= Zdigits2 n.
Proof.
  intros Hm Hn.
  destruct (Zdigits2_bounds m Hm) as (Hd & Hb).
  destruct (Zdigits2_bounds n ltac:(lia)) as (Hd' & Hb').
  destruct (Z.le_gt_cases (Zdigits2 m) (Zdigits2 n)) as [H|H]; [exact H|].
  assert (2 ^ Zdigits2 n <= 2 ^ (Zdigits2 m - 1)) by (apply Z.pow_le_mono_r; lia). lia.
Qed.

Lemma Zdigits2_shiftr (m k : Z) :
  0 < m -> 0 <= k < Zdigits2 m -> Zdigits2 (m / 2 ^ k) = Zdigits2 m - k.
Proof.
  intros Hm Hk. destruct (Zdigits2_bounds m Hm) as (Hd & Hb).
  assert (Hp : 0 < 2 ^ k) by (apply Z.pow_pos_nonneg; lia).
  apply Zdigits2_unique; [|lia]. split.
  - apply Z.div_le_lower_bound; [lia|].
    rewrite <- Z.pow_add_r by lia. replace (k + (Zdigits2 m - k - 1)) with (Zdigits2 m - 1) by lia.
    lia.
  - apply Z.div_lt_upper_bound; [lia|].
    rewrite <- Z.pow_add_r by lia. replace (k + (Zdigits2 m - k)) with (Zdigits2 m) by lia.
    lia.
Qed.

Lemma Zdigits2_shiftl (m k : Z) :
  0 < m -> 0 <= k -> Zdigits2 (m * 2 ^ k) = Zdigits2 m + k.
Proof.
  intros Hm Hk. destruct (Zdigits2_bounds m Hm) as (Hd & Hb).
  assert (Hp : 0 < 2 ^ k) by (apply Z.pow_pos_nonneg; lia).
  apply Zdigits2_unique; [|lia].
  replace (Zdigits2 m + k - 1) with ((Zdigits2 m - 1) + k) by lia.
  rewrite !Z.pow_add_r by lia. nia.
Qed.

Lemma loc_of_shr_record_of_loc (m : Z) (l : location) :
  loc_of_shr_record (shr_record_of_loc m l) = l.
Proof. destruct l as [|[ | | ]]; reflexivity. Qed.

Lemma shr_1_repr (A P : Z) (mrs : shr_record) :
  0 <= A -> 0 < P ->
  Repr A P (shr_m mrs) (loc_of_shr_record mrs) ->
  Repr A (2 * P) (shr_m (shr_1 mrs)) (loc_of_shr_record (shr_1 mrs)).
Proof.
  intros HA HP [Hm Hl].
  assert (Hq : A / (2 * P) = (A / P) / 2) by (rewrite Z.mul_comm, Z.div_div by lia; f_equal; lia).
  assert (Hr : A mod (2 * P) = A mod P + P * ((A / P) mod 2)).
  { rewrite (Z.mul_comm 2 P). apply Z.rem_mul_r; lia. }
  pose proof (Z.mod_pos_bound A P HP) as Hb.
  assert (Hm0 : 0 <= A / P) by (apply Z.div_pos; lia).
  unfold Repr. rewrite Hq, Hr. set (rem := A mod P) in *. set (q := A / P) in *.
  clearbody rem q. clear Hq Hr.
  destruct mrs as [m r s]. simpl in Hm, Hl. subst q.
  assert (Hs : orb r s = negb (rem =? 0)).
  { unfold loc_of_rem in Hl. destruct (rem =? 0); destruct r, s; simpl in *; congruence. }
  unfold shr_1.
  destruct m as [|[p|p|]|p]; try lia; cbn [shr_m loc_of_shr_record].
  - (* 0 *) change (0 / 2) with 0. change (0 mod 2) with 0. rewrite Z.mul_0_r, Z.add_0_r.
    split; [reflexivity|]. rewrite Hs. unfold loc_of_rem.
    destruct (rem =? 0) eqn:E; cbn [negb]; [reflexivity|].
    f_equal. symmetry. apply Z.compare_lt_iff. lia.
  - (* xI *) 
    assert (Hd : Z.pos p~1 / 2 = Z.pos p) by (rewrite Pos2Z.inj_xI; symmetry; apply Z.div_unique with 1; lia).
    assert (Hmod : Z.pos p~1 mod 2 = 1) by (rewrite Pos2Z.inj_xI; symmetry; apply Z.mod_unique with (Z.pos p); lia).
    rewrite Hd, Hmod. split; [reflexivity|]. rewrite Hs. unfold loc_of_rem.
    assert ((rem + P * 1 =? 0) = false) as -> by (apply Z.eqb_neq; lia).
    destruct (rem =? 0) eqn:E; cbn [negb]; f_equal; symmetry.
    + apply Z.eqb_eq in E. apply Z.compare_eq_iff. lia.
    + apply Z.eqb_neq in E. apply Z.compare_gt_iff. lia.
  - (* xO *)
    assert (Hd : Z.pos p~0 / 2 = Z.pos p) by (rewrite Pos2Z.inj_xO; symmetry; apply Z.div_unique with 0; lia).
    assert (Hmod : Z.pos p~0 mod 2 = 0) by (rewrite Pos2Z.inj_xO; symmetry; apply Z.mod_unique with (Z.pos p); lia).
    rewrite Hd, Hmod, Z.mul_0_r, Z.add_0_r. split; [reflexivity|]. rewrite Hs. unfold loc_of_rem.
    destruct (rem =? 0) eqn:E; cbn [negb]; [reflexivity|].
    f_equal. symmetry. apply Z.compare_lt_iff. lia.
  - (* 1 *)
    change (1 / 2) with 0. change (1 mod 2) with 1. split; [reflexivity|]. rewrite Hs.
    unfold loc_of_rem.
    assert ((rem + P * 1 =? 0) = false) as -> by (apply Z.eqb_neq; lia).
    destruct (rem =? 0) eqn:E; cbn [negb]; f_equal; symmetry.
    + apply Z.eqb_eq in E. apply Z.compare_eq_iff. lia.
    + apply Z.eqb_neq in E. apply Z.compare_gt_iff. lia.
Qed.

Lemma iter_pos_indexed {T : Type} (Q : Z -> T -> Prop) (f : T -> T) :
  (forall k x, Q k x -> Q (k + 1) (f x)) ->
  forall (p : positive) (k : Z) (x : T), Q k x -> Q (k + Z.pos p) (SpecFloat.iter_pos f p x).
Proof.
  intros Hf p. induction p as [p IH|p IH|]; intros k x Hx; simpl.
  - replace (k + Z.pos p~1) with (k + 1 + Z.pos p + Z.pos p) by lia. auto.
  - replace (k + Z.pos p~0) with (k + Z.pos p + Z.pos p) by lia. auto.
  - auto.
Qed.

Lemma shr_repr (A P : Z) (mrs : shr_record) (e n : Z) :
  0 <= A -> 0 < P ->
  Repr A P (shr_m mrs) (loc_of_shr_record mrs) ->
  Repr A (P * 2 ^ Z.max 0 n) (shr_m (fst (shr mrs e n))) (loc_of_shr_record (fst (shr mrs e n)))
  /\ snd (shr mrs e n) = e + Z.max 0 n.
Proof.
  intros HA HP H. unfold shr. destruct n as [|p|p]; simpl fst; simpl snd.
  - rewrite Z.max_l by lia. simpl. rewrite Z.mul_1_r, Z.add_0_r. auto.
  - rewrite Z.max_r by lia. split; [|reflexivity].
    pose (Q := fun k x => 0 <= k /\ Repr A (P * 2 ^ k) (shr_m x) (loc_of_shr_record x)).
    assert (HQ : Q (0 + Z.pos p) (SpecFloat.iter_pos shr_1 p mrs)).
    { apply iter_pos_indexed.
      - intros k x [Hk Hx]. split; [lia|].
        rewrite Z.pow_add_r by lia. change (2 ^ 1) with 2.
        replace (P * (2 ^ k * 2)) with (2 * (P * 2 ^ k)) by lia.
        apply shr_1_repr; auto. apply Z.mul_pos_pos; [lia|apply Z.pow_pos_nonneg; lia].
      - split; [lia|]. simpl. rewrite Z.mul_1_r. exact H. }
    destruct HQ as [_ HQ]. exact HQ.
  - rewrite Z.max_l by lia. simpl. rewrite Z.mul_1_r, Z.add_0_r. auto.
Qed.

Section RoundAux.

Variables prec emax : Z.
Hypothesis Hprec : 0 < prec.

Local Abbreviation emin := (emin prec emax).
Local Abbreviation fexp := (fexp prec emax).

Local Abbreviation Sc := (scale prec emax).

Lemma scale_pos (e : Z) : emin <= e -> 0 < Sc e.
Proof. intros H. unfold scale. apply Z.pow_pos_nonneg; lia. Qed.

Lemma scale_add (e k : Z) : emin <= e -> 0 <= k -> Sc (e + k) = Sc e * 2 ^ k.
Proof.
  intros He Hk. unfold scale. replace (e + k - emin) with ((e - emin) + k) by lia.
  apply Z.pow_add_r; lia.
Qed.

Lemma fexp_ge_emin (e : Z) : emin <= fexp e.
Proof. unfold SpecFloat.fexp. lia. Qed.

Lemma fexp_mono (e e' : Z) : e <= e' -> fexp e <= fexp e'.
Proof. unfold SpecFloat.fexp. lia. Qed.

Lemma fexp_succ (e : Z) : fexp (e + 1) <= fexp e + 1.
Proof. unfold SpecFloat.fexp. lia. Qed.

Lemma fexp_lt (e : Z) : emin < e -> fexp e < e.
Proof. unfold SpecFloat.fexp. lia. Qed.

Lemma round_nearest_even_range (m : Z) (l : location) :
  m <= round_nearest_even m l <= m + 1.
Proof.
  unfold round_nearest_even. destruct l as [|[ | | ]]; try destruct (Z.even m); lia.
Qed.

Lemma binary_round_aux_value (sx : bool) (A B m0 e0 : Z) (l0 : location) :
  0 <= A -> 0 < B -> emin <= e0 -> 1 <= m0 ->
  Repr A (B * Sc e0) m0 l0 ->
  e0 <= fexp (Zdigits2 m0 + e0) ->
  (binary_round_aux prec emax sx m0 e0 l0 = S754_infinity sx
   /\ Sc (emax - prec + 1) <= rnd_at prec emax A B (fexp (Zdigits2 m0 + e0)))
  \/ exists m e,
      binary_round_aux prec emax sx m0 e0 l0 = S754_finite sx m e
      /\ emin <= e
      /\ Z.pos m * Sc e = rnd_at prec emax A B (fexp (Zdigits2 m0 + e0)).
Proof.
  intros HA HB He0 Hm0 HR Hprecise.
  set (E := fexp (Zdigits2 m0 + e0)) in *.
  assert (HE : emin <= E) by apply fexp_ge_emin.
  destruct (Zdigits2_bounds m0 ltac:(lia)) as (Hd0 & Hb0).
  assert (HEd : E < Zdigits2 m0 + e0) by (apply fexp_lt; lia).
  unfold binary_round_aux, shr_fexp. fold E.
  (* first shift *)
  assert (HP0 : 0 < B * Sc e0) by (apply Z.mul_pos_pos; [lia|apply scale_pos; lia]).
  pose proof (shr_repr A (B * Sc e0) (shr_record_of_loc m0 l0) e0 (E - e0) HA HP0) as H1.
  rewrite shr_m_of_loc, loc_of_shr_record_of_loc in H1. specialize (H1 HR).
  rewrite Z.max_r in H1 by lia.
  destruct (shr (shr_record_of_loc m0 l0) e0 (E - e0)) as [mrs1 e1].
  cbn [fst snd] in H1. destruct H1 as [[Hm1 Hl1] He1].
  replace (e0 + (E - e0)) with E in He1 by lia. subst e1.
  assert (HPE : B * Sc e0 * 2 ^ (E - e0) = B * Sc E).
  { rewrite <- Z.mul_assoc. f_equal. rewrite <- scale_add by lia. f_equal. lia. }
  rewrite HPE in Hm1, Hl1.
  assert (Hm1' : shr_m mrs1 = m0 / 2 ^ (E - e0)).
  { rewrite Hm1, <- HPE. destruct HR as [-> _].
    rewrite Z.div_div; [reflexivity|lia|apply Z.pow_pos_nonneg; lia]. }
  assert (Hd1 : Zdigits2 (shr_m mrs1) = Zdigits2 m0 - (E - e0)).
  { rewrite Hm1'. apply Zdigits2_shiftr; lia. }
  set (m1 := shr_m mrs1) in *.
  assert (Hm1pos : 1 <= m1).
  { destruct (Z.le_gt_cases 1 m1) as [H|H]; [exact H|].
    assert (0 <= m1) by (rewrite Hm1'; apply Z.div_pos; [lia|apply Z.pow_pos_nonneg; lia]).
    assert (m1 = 0) by lia. rewrite H1 in Hd1. simpl in Hd1. lia. }
  destruct (Zdigits2_bounds m1 ltac:(lia)) as (Hd1pos & Hb1).
  (* rounding *)
  set (m2 := round_nearest_even m1 (loc_of_shr_record mrs1)).
  assert (Hm2 : m1 <= m2 <= m1 + 1) by apply round_nearest_even_range.
  assert (HV : rnd_at prec emax A B E = m2 * Sc E).
  { unfold rnd_at. cbv zeta. rewrite <- Hm1, <- Hl1. reflexivity. }
  rewrite HV.
  (* second shift *)
  pose proof (shr_repr m2 1 (shr_record_of_loc m2 loc_Exact) E
                (fexp (Zdigits2 m2 + E) - E) ltac:(lia) ltac:(lia)) as H2.
  rewrite shr_m_of_loc, loc_of_shr_record_of_loc in H2.
  assert (HR2 : Repr m2 1 m2 loc_Exact).
  { split; [rewrite Z.div_1_r; reflexivity|rewrite Z.mod_1_r; reflexivity]. }
  specialize (H2 HR2).
  destruct (shr (shr_record_of_loc m2 loc_Exact) E (fexp (Zdigits2 m2 + E) - E))
    as [mrs3 e3].
  cbn [fst snd] in H2. destruct H2 as [[Hm3 _] He3]. rewrite Z.mul_1_l in Hm3.
  set (n2 := Z.max 0 (fexp (Zdigits2 m2 + E) - E)) in *.
  assert (Hn2 : 0 <= n2) by (unfold n2; lia).
  assert (Hval : shr_m mrs3 * 2 ^ n2 = m2).
  { destruct (Z.eq_dec n2 0) as [Hz|Hnz].
    - rewrite Hm3, Hz. simpl. rewrite Z.div_1_r. lia.
    - (* the mantissa overflowed to a power of two *)
      assert (Hfe : E < fexp (Zdigits2 m2 + E)) by (unfold n2 in *; lia).
      assert (Hdd : Zdigits2 m1 < Zdigits2 m2).
      { destruct (Z.lt_ge_cases (Zdigits2 m1) (Zdigits2 m2)) as [H|H]; [exact H|].
        assert (fexp (Zdigits2 m2 + E) <= fexp (Zdigits2 m1 + E)) by (apply fexp_mono; lia).
        replace (Zdigits2 m1 + E) with (Zdigits2 m0 + e0) in H0 by lia. fold E in H0. lia. }
      destruct (Zdigits2_bounds m2 ltac:(lia)) as (Hd2pos & Hb2).
      assert (Hpow : 2 ^ Zdigits2 m1 <= 2 ^ (Zdigits2 m2 - 1))
        by (apply Z.pow_le_mono_r; lia).
      assert (Hm2eq : m2 = 2 ^ Zdigits2 m1) by lia.
      assert (Hd2 : Zdigits2 m2 = Zdigits2 m1 + 1).
      { apply Zdigits2_unique; [|lia]. replace (Zdigits2 m1 + 1 - 1) with (Zdigits2 m1) by lia.
        rewrite Hm2eq. split; [lia|]. apply Z.pow_lt_mono_r; lia. }
      assert (Hn21 : n2 = 1).
      { pose proof (fexp_succ (Zdigits2 m1 + E)) as Hs.
        replace (Zdigits2 m1 + E + 1) with (Zdigits2 m2 + E) in Hs by lia.
        replace (Zdigits2 m1 + E) with (Zdigits2 m0 + e0) in Hs by lia. fold E in Hs.
        unfold n2. lia. }
      rewrite Hm3, Hn21, Hm2eq. change (2 ^ 1) with 2.
      replace (Zdigits2 m1) with (Z.succ (Zdigits2 m1 - 1)) by lia.
      rewrite Z.pow_succ_r by lia. rewrite (Z.mul_comm 2), Z.div_mul by lia. lia. }
  assert (Hm3pos : 0 < shr_m mrs3).
  { assert (0 < 2 ^ n2) by (apply Z.pow_pos_nonneg; lia). nia. }
  destruct (shr_m mrs3) as [|m3|m3] eqn:Em3; try lia.
  destruct (Z.leb_spec e3 (emax - prec)) as [Hle|Hgt].
  2:{ left. split; [reflexivity|]. rewrite <- Hval.
      assert (Sc (emax - prec + 1) <= Sc e3) by (apply Z.pow_le_mono_r; lia).
      assert (0 < Sc e3) by (apply scale_pos; lia).
      assert (0 < 2 ^ n2) by (apply Z.pow_pos_nonneg; lia).
      assert (HSE : Sc e3 = Sc E * 2 ^ n2) by (rewrite He3; apply scale_add; lia).
      rewrite HSE in *. nia. }
  right. exists m3, e3. split; [reflexivity|]. rewrite He3. split; [lia|].
  rewrite scale_add by lia. rewrite <- Hval. lia.
Qed.

End RoundAux.

Lemma div_frac_mono (A1 B1 A2 B2 : Z) :
  0 < B1 -> 0 < B2 -> A1 * B2 <= A2 * B1 -> A1 / B1 <= A2 / B2.
Proof.
  intros H1 H2 H. apply Z.div_le_lower_bound; [lia|].
  pose proof (Z.mul_div_le A1 B1 H1) as Hq.
  assert (B1 * (B2 * (A1 / B1)) <= B1 * A2) by nia.
  apply Z.mul_le_mono_pos_l with B1; lia.
Qed.

Section RoundMono.

Variables prec emax : Z.
Hypothesis Hprec : 0 < prec.

Local Abbreviation emin := (emin prec emax).
Local Abbreviation fexp := (fexp prec emax).
Local Abbreviation Sc := (scale prec emax).

Lemma mag_repr (A B e0 : Z) :
  0 <= A -> 0 < B -> emin <= e0 -> 1 <= A / (B * Sc e0) ->
  Zdigits2 (A / (B * Sc e0)) + e0 = mag prec emax A B.
Proof.
  intros HA HB He Hm. unfold mag.
  assert (HS : 0 < Sc e0) by (apply scale_pos; lia).
  rewrite <- Z.div_div in * by lia. unfold scale in *.
  assert (Hq : 0 < A / B).
  { destruct (Z.lt_ge_cases 0 (A / B)) as [H|H]; [exact H|].
    assert (A / B = 0) by (pose proof (Z.div_pos A B); lia).
    rewrite H0 in Hm. rewrite Z.div_0_l in Hm; lia. }
  destruct (Zdigits2_bounds (A / B) Hq) as (Hd & Hb).
  assert (Hk : e0 - emin < Zdigits2 (A / B)).
  { destruct (Z.lt_ge_cases (e0 - emin) (Zdigits2 (A / B))) as [H|H]; [exact H|].
    assert (2 ^ Zdigits2 (A / B) <= 2 ^ (e0 - emin)) by (apply Z.pow_le_mono_r; lia).
    assert (A / B / 2 ^ (e0 - emin) = 0) by (apply Z.div_small; lia). lia. }
  rewrite Zdigits2_shiftr by lia. lia.
Qed.

Lemma mag_mono (A1 B1 A2 B2 : Z) :
  0 < B1 -> 0 < B2 -> B1 <= A1 -> A1 * B2 <= A2 * B1 ->
  mag prec emax A1 B1 <= mag prec emax A2 B2.
Proof.
  intros H1 H2 Hq H. unfold mag.
  assert (1 <= A1 / B1) by (apply Z.div_le_lower_bound; lia).
  pose proof (div_frac_mono A1 B1 A2 B2 H1 H2 H).
  pose proof (Zdigits2_mono (A1 / B1) (A2 / B2)). lia.
Qed.

Lemma round_nearest_even_rem_mono (m r1 P1 r2 P2 : Z) :
  0 <= r1 < P1 -> 0 <= r2 < P2 -> r1 * P2 <= r2 * P1 ->
  round_nearest_even m (loc_of_rem r1 P1) <= round_nearest_even m (loc_of_rem r2 P2).
Proof.
  intros H1 H2 H. unfold loc_of_rem, round_nearest_even.
  destruct (Z.eqb_spec r1 0) as [E1|E1]; destruct (Z.eqb_spec r2 0) as [E2|E2].
  - lia.
  - destruct (2 * r2 ?= P2); try destruct (Z.even m); lia.
  - assert (r1 * P2 <= 0) by (rewrite E2 in H; lia). nia.
  - assert (Hgt : P1 < 2 * r1 -> P2 < 2 * r2).
    { intros Hc. assert (P1 * P2 < 2 * r1 * P2) by (apply Z.mul_lt_mono_pos_r; lia).
      assert (P1 * P2 < 2 * r2 * P1) by lia.
      apply Z.mul_lt_mono_pos_l with P1; lia. }
    assert (Hge : P1 <= 2 * r1 -> P2 <= 2 * r2).
    { intros Hc. assert (P1 * P2 <= 2 * r1 * P2) by (apply Z.mul_le_mono_nonneg_r; lia).
      assert (P1 * P2 <= 2 * r2 * P1) by lia.
      apply Z.mul_le_mono_pos_l with P1; lia. }
    destruct (Z.compare_spec (2 * r1) P1) as [C1|C1|C1];
      destruct (Z.compare_spec (2 * r2) P2) as [C2|C2|C2];
      try destruct (Z.even m); lia.
Qed.

Lemma rnd_at_mono_same (A1 B1 A2 B2 E : Z) :
  0 <= A1 -> 0 < B1 -> 0 < B2 -> emin <= E -> A1 * B2 <= A2 * B1 ->
  rnd_at prec emax A1 B1 E <= rnd_at prec emax A2 B2 E.
Proof.
  intros HA H1 H2 HE H. unfold rnd_at. cbv zeta.
  assert (HS : 0 < Sc E) by (apply scale_pos; lia).
  set (P1 := B1 * Sc E). set (P2 := B2 * Sc E).
  assert (HP1 : 0 < P1) by (unfold P1; nia).
  assert (HP2 : 0 < P2) by (unfold P2; nia).
  assert (HAP : A1 * P2 <= A2 * P1) by (unfold P1, P2; nia).
  pose proof (div_frac_mono A1 P1 A2 P2 HP1 HP2 HAP) as Hm.
  apply Z.mul_le_mono_nonneg_r; [lia|].
  destruct (Z.eq_dec (A1 / P1) (A2 / P2)) as [Heq|Hne].
  - rewrite <- Heq. apply round_nearest_even_rem_mono;
      try (apply Z.mod_pos_bound; lia).
    rewrite !Z.mod_eq by lia. rewrite <- Heq. nia.
  - pose proof (round_nearest_even_range (A1 / P1) (loc_of_rem (A1 mod P1) P1)).
    pose proof (round_nearest_even_range (A2 / P2) (loc_of_rem (A2 mod P2) P2)).
    lia.
Qed.

Lemma rnd_mono (A1 B1 A2 B2 : Z) :
  0 < B1 -> 0 < B2 -> B1 <= A1 -> A1 * B2 <= A2 * B1 ->
  rnd prec emax A1 B1 <= rnd prec emax A2 B2.
Proof.
  intros H1 H2 Hq H. unfold rnd.
  pose proof (mag_mono A1 B1 A2 B2 H1 H2 Hq H) as Hmag.
  set (g1 := mag prec emax A1 B1) in *. set (g2 := mag prec emax A2 B2) in *.
  pose proof (fexp_mono prec emax g1 g2 Hmag) as HE.
  destruct (Z.eq_dec (fexp g1) (fexp g2)) as [Heq|Hne].
  - rewrite Heq. apply rnd_at_mono_same; try lia. apply fexp_ge_emin.
  - (* different binades *)
    assert (HEl : fexp g1 < fexp g2) by lia.
    assert (Hq1 : 1 <= A1 / B1) by (apply Z.div_le_lower_bound; lia).
    assert (Hq2 : 1 <= A2 / B2).
    { pose proof (div_frac_mono A1 B1 A2 B2 H1 H2 H). lia. }
    destruct (Zdigits2_bounds (A1 / B1) ltac:(lia)) as (Hd1 & Hb1).
    destruct (Zdigits2_bounds (A2 / B2) ltac:(lia)) as (Hd2 & Hb2).
    assert (Hg1 : g1 = Zdigits2 (A1 / B1) + emin) by reflexivity.
    assert (Hg2 : g2 = Zdigits2 (A2 / B2) + emin) by reflexivity.
    assert (Hglt : g1 < g2).
    { destruct (Z.eq_dec g1 g2) as [Hg|Hg]; [rewrite Hg in HEl; lia|lia]. }
    pose proof (fexp_ge_emin prec emax g1) as He1.
    pose proof (fexp_lt prec emax Hprec g1 ltac:(lia)) as Hl1.
    assert (He2 : fexp g2 = g2 - prec) by (unfold SpecFloat.fexp in *; lia).
    set (E1 := fexp g1) in *. set (E2 := fexp g2) in *.
    transitivity (2 ^ (g1 - emin)).
    + (* the smaller one stays below its power of two *)
      unfold rnd_at. cbv zeta.
      pose proof (round_nearest_even_range (A1 / (B1 * Sc E1))
                    (loc_of_rem (A1 mod (B1 * Sc E1)) (B1 * Sc E1))) as Hr.
      assert (HS : 0 < Sc E1) by (apply scale_pos; lia).
      assert (Hm : A1 / (B1 * Sc E1) + 1 <= 2 ^ (g1 - E1)).
      { rewrite <- Z.div_div by lia.
        assert (A1 / B1 / Sc E1 < 2 ^ (g1 - E1)); [|lia].
        apply Z.div_lt_upper_bound; [lia|]. unfold scale.
        rewrite <- Z.pow_add_r by lia.
        replace (E1 - emin + (g1 - E1)) with (Zdigits2 (A1 / B1)) by lia. lia. }
      replace (g1 - emin) with ((g1 - E1) + (E1 - emin)) by lia.
      rewrite Z.pow_add_r by lia. fold (Sc E1). nia.
    + (* the larger one stays above its power of two *)
      unfold rnd_at. cbv zeta.
      pose proof (round_nearest_even_range (A2 / (B2 * Sc E2))
                    (loc_of_rem (A2 mod (B2 * Sc E2)) (B2 * Sc E2))) as Hr.
      assert (HS : 0 < Sc E2) by (apply scale_pos; lia).
      assert (Hm : 2 ^ (g2 - 1 - E2) <= A2 / (B2 * Sc E2)).
      { rewrite <- Z.div_div by lia.
        apply Z.div_le_lower_bound; [lia|]. unfold scale.
        rewrite <- Z.pow_add_r by lia.
        replace (E2 - emin + (g2 - 1 - E2)) with (Zdigits2 (A2 / B2) - 1) by lia. lia. }
      assert (Hp : 2 ^ (g1 - emin) <= 2 ^ (g2 - 1 - emin)) by (apply Z.pow_le_mono_r; lia).
      replace (g2 - 1 - emin) with ((g2 - 1 - E2) + (E2 - emin)) in Hp by lia.
      rewrite Z.pow_add_r in Hp by lia. fold (Sc E2) in Hp. nia.
Qed.

End RoundMono.

Section Compare.

Variables prec emax : Z.
Hypothesis Hprec : 0 < prec.

Local Abbreviation emin := (emin prec emax).
Local Abbreviation fexp := (fexp prec emax).
Local Abbreviation Sc := (scale prec emax).

Lemma canonical_facts (m : positive) (e : Z) :
  canonical_mantissa prec emax m e = true ->
  emin <= e /\ Z.pos (digits2_pos m) <= prec
  /\ (emin < e -> Z.pos (digits2_pos m) = prec).
Proof.
  unfold canonical_mantissa. intros H. apply Z.eqb_eq in H.
  unfold SpecFloat.fexp in H. lia.
Qed.

Lemma bounded_canonical (m : positive) (e : Z) :
  bounded prec emax m e = true -> canonical_mantissa prec emax m e = true.
Proof. unfold bounded. intros H. apply andb_true_iff in H. tauto. Qed.

Lemma canonical_compare (m1 m2 : positive) (e1 e2 : Z) :
  canonical_mantissa prec emax m1 e1 = true ->
  canonical_mantissa prec emax m2 e2 = true ->
  e1 < e2 -> Z.pos m1 * Sc e1 < Z.pos m2 * Sc e2.
Proof.
  intros H1 H2 He.
  destruct (canonical_facts m1 e1 H1) as (He1 & Hd1 & _).
  destruct (canonical_facts m2 e2 H2) as (He2 & _ & Hd2). specialize (Hd2 ltac:(lia)).
  pose proof (digits2_pos_bounds m1) as Hb1. pose proof (digits2_pos_bounds m2) as Hb2.
  rewrite Hd2 in Hb2.
  assert (Z.pos m1 < 2 ^ prec).
  { assert (2 ^ Z.pos (digits2_pos m1) <= 2 ^ prec) by (apply Z.pow_le_mono_r; lia). lia. }
  unfold scale.
  assert (Hs1 : 0 < 2 ^ (e1 - emin)) by (apply Z.pow_pos_nonneg; lia).
  assert (Hs2 : 2 ^ (e2 - emin) = 2 ^ (e1 - emin) * 2 ^ (e2 - e1)).
  { rewrite <- Z.pow_add_r by lia. f_equal. lia. }
  assert (Hk : 2 <= 2 ^ (e2 - e1)).
  { change 2 with (2 ^ 1) at 1. apply Z.pow_le_mono_r; lia. }
  assert (Hp : 2 ^ prec = 2 * 2 ^ (prec - 1)).
  { replace prec with (Z.succ (prec - 1)) at 1 by lia. apply Z.pow_succ_r. lia. }
  rewrite Hs2. nia.
Qed.

Lemma canonical_compare_spec (m1 m2 : positive) (e1 e2 : Z) :
  canonical_mantissa prec emax m1 e1 = true ->
  canonical_mantissa prec emax m2 e2 = true ->
  match e1 ?= e2 with
  | Lt => Lt
  | Gt => Gt
  | Eq => Pos.compare_cont Eq m1 m2
  end = (Z.pos m1 * Sc e1 ?= Z.pos m2 * Sc e2).
Proof.
  intros H1 H2. symmetry.
  destruct (Z.compare_spec e1 e2) as [He|He|He].
  - subst e2. destruct (canonical_facts m1 e1 H1) as (He1 & _).
    pose proof (scale_pos prec emax e1 He1).
    change (Pos.compare_cont Eq m1 m2) with (Z.pos m1 ?= Z.pos m2).
    destruct (Z.compare_spec (Z.pos m1) (Z.pos m2)) as [C|C|C].
    + apply Z.compare_eq_iff. rewrite C. reflexivity.
    + apply Z.compare_lt_iff. nia.
    + apply Z.compare_gt_iff. nia.
  - apply Z.compare_lt_iff. apply canonical_compare; assumption.
  - apply Z.compare_gt_iff. apply canonical_compare; assumption.
Qed.

Lemma SFcompare_Nval (x y : spec_float) :
  valid_binary prec emax x = true -> valid_binary prec emax y = true ->
  is_finite x = true -> is_finite y = true ->
  SFcompare x y = Some (Nval prec emax x ?= Nval prec emax y).
Proof.
  intros Hx Hy Hfx Hfy.
  destruct x as [sx|sx| |sx mx ex]; try discriminate;
    destruct y as [sy|sy| |sy my ey]; try discriminate; cbn [valid_binary SFcompare Nval] in Hx, Hy |- *.
  - reflexivity.
  - destruct (canonical_facts my ey (bounded_canonical _ _ Hy)) as (He & _).
    pose proof (scale_pos prec emax ey He).
    f_equal. symmetry. destruct sy; cbn [cond_Zopp]; [apply Z.compare_gt_iff|apply Z.compare_lt_iff]; nia.
  - destruct (canonical_facts mx ex (bounded_canonical _ _ Hx)) as (He & _).
    pose proof (scale_pos prec emax ex He).
    f_equal. symmetry. destruct sx; cbn [cond_Zopp]; [apply Z.compare_lt_iff|apply Z.compare_gt_iff]; nia.
  - pose proof (bounded_canonical _ _ Hx) as Cx. pose proof (bounded_canonical _ _ Hy) as Cy.
    destruct (canonical_facts mx ex Cx) as (Hex & _).
    destruct (canonical_facts my ey Cy) as (Hey & _).
    pose proof (scale_pos prec emax ex Hex). pose proof (scale_pos prec emax ey Hey).
    f_equal. destruct sx, sy; cbn [cond_Zopp].
    + rewrite Z.compare_opp, <- (canonical_compare_spec my mx ey ex Cy Cx).
      rewrite (Z.compare_antisym ey ex).
      destruct (ey ?= ex); cbn [CompOpp]; try reflexivity.
      exact (Pos.compare_cont_antisym mx my Eq).
    + symmetry. apply Z.compare_lt_iff. nia.
    + symmetry. apply Z.compare_gt_iff. nia.
    + apply canonical_compare_spec; assumption.
Qed.

End Compare.

Lemma shl_align_spec (mx : positive) (ex ex' : Z) :
  snd (shl_align mx ex ex') = Z.min ex ex'
  /\ Z.pos (fst (shl_align mx ex ex')) = Z.pos mx * 2 ^ (ex - Z.min ex ex').
Proof.
  unfold shl_align. destruct (ex' - ex) as [|d|d] eqn:E; cbn [fst snd].
  - rewrite Z.min_l by lia. rewrite Z.sub_diag. simpl. lia.
  - rewrite Z.min_l by lia. rewrite Z.sub_diag. simpl. lia.
  - rewrite Z.min_r by lia. split; [reflexivity|].
    change (Pos.iter xO mx d) with (shift_pos d mx).
    rewrite shift_pos_correct. replace (ex - ex') with (Z.pos d) by lia.
    change (Z.pow_pos 2 d) with (2 ^ Z.pos d). lia.
Qed.

Section Sub.

Variables prec emax : Z.
Hypothesis Hprec : 0 < prec.

Local Abbreviation emin := (emin prec emax).
Local Abbreviation fexp := (fexp prec emax).
Local Abbreviation Sc := (scale prec emax).

Lemma mag_int (p : positive) (e : Z) :
  emin <= e -> mag prec emax (Z.pos p * Sc e) 1 = Z.pos (digits2_pos p) + e.
Proof.
  intros He. unfold mag, scale. rewrite Z.div_1_r.
  rewrite Zdigits2_shiftl by lia. simpl Zdigits2. lia.
Qed.

Lemma rnd_exact (m : positive) (e : Z) :
  canonical_mantissa prec emax m e = true ->
  rnd prec emax (Z.pos m * Sc e) 1 = Z.pos m * Sc e.
Proof.
  intros Hc. destruct (canonical_facts prec emax m e Hc) as (He & _).
  unfold rnd. rewrite mag_int by exact He.
  unfold canonical_mantissa in Hc. apply Z.eqb_eq in Hc. rewrite Hc.
  unfold rnd_at. cbv zeta. rewrite Z.mul_1_l.
  pose proof (scale_pos prec emax e He) as HS.
  rewrite Z.div_mul, Z.mod_mul by lia. reflexivity.
Qed.

Lemma binary_round_value (sx : bool) (p : positive) (e : Z) :
  emin <= e ->
  (binary_round prec emax sx p e = S754_infinity sx
   /\ Sc (emax - prec + 1) <= rnd prec emax (Z.pos p * Sc e) 1)
  \/ exists m e',
      binary_round prec emax sx p e = S754_finite sx m e'
      /\ emin <= e'
      /\ Z.pos m * Sc e' = rnd prec emax (Z.pos p * Sc e) 1.
Proof.
  intros He. unfold binary_round.
  set (E := fexp (Z.pos (digits2_pos p) + e)).
  destruct (shl_align_spec p e E) as [Hez Hmz].
  destruct (shl_align p e E) as [mz ez]. cbn [fst snd] in Hez, Hmz. subst ez.
  pose proof (fexp_ge_emin prec emax (Z.pos (digits2_pos p) + e)) as HE. fold E in HE.
  set (ez := Z.min e E) in *.
  assert (Hez : emin <= ez) by (unfold ez; lia).
  assert (Hdz : Zdigits2 (Z.pos mz) + ez = Z.pos (digits2_pos p) + e).
  { rewrite Hmz. rewrite Zdigits2_shiftl by (unfold ez; lia). simpl Zdigits2. lia. }
  assert (HA : Z.pos p * Sc e = Z.pos mz * Sc ez).
  { rewrite Hmz. unfold scale. rewrite <- Z.mul_assoc, <- Z.pow_add_r by (unfold ez; lia).
    do 2 f_equal. lia. }
  pose proof (scale_pos prec emax ez Hez) as HS.
  destruct (binary_round_aux_value prec emax Hprec sx (Z.pos p * Sc e) 1
              (Z.pos mz) ez loc_Exact) as [H|H]; try lia.
  - rewrite Z.mul_1_l, HA. split.
    + rewrite Z.div_mul by lia. reflexivity.
    + rewrite Z.mod_mul by lia. reflexivity.
  - rewrite Hdz. fold E. unfold ez. lia.
  - left. destruct H as [H1 H2]. split; [exact H1|]. unfold rnd.
    rewrite mag_int by exact He. rewrite <- Hdz. exact H2.
  - right. destruct H as (m & e' & H1 & H2 & H3). exists m, e'.
    split; [exact H1|]. split; [exact H2|]. rewrite H3. unfold rnd.
    rewrite mag_int by exact He. rewrite Hdz. reflexivity.
Qed.

(** The difference of two valid finite floats, the first the larger: it is
    rounded from the exact difference. *)
Lemma SFsub_value (c b : spec_float) :
  valid_binary prec emax c = true -> valid_binary prec emax b = true ->
  is_finite c = true -> is_finite b = true ->
  Nval prec emax b < Nval prec emax c ->
  (SFsub prec emax c b = S754_infinity false
   /\ Sc (emax - prec + 1) <= rnd prec emax (Nval prec emax c - Nval prec emax b) 1)
  \/ exists m e,
      SFsub prec emax c b = S754_finite false m e
      /\ emin <= e
      /\ Z.pos m * Sc e = rnd prec emax (Nval prec emax c - Nval prec emax b) 1.
Proof.
  intros Hc Hb Hfc Hfb Hlt.
  destruct c as [sc|sc| |sc mc ec]; try discriminate;
    destruct b as [sb|sb| |sb mb eb]; try discriminate;
    cbn [Nval valid_binary] in Hc, Hb, Hlt |- *.
  - pose proof (bounded_canonical _ _ _ _ Hb) as Cb.
    destruct (canonical_facts prec emax mb eb Cb) as (He & _).
    pose proof (scale_pos prec emax eb He).
    destruct sb; cbn [cond_Zopp] in Hlt |- *; [|nia].
    right. exists mb, eb. cbn [SFsub negb]. split; [reflexivity|]. split; [exact He|].
    replace (0 - - (Z.pos mb * Sc eb)) with (Z.pos mb * Sc eb) by lia.
    symmetry. apply rnd_exact. exact Cb.
  - pose proof (bounded_canonical _ _ _ _ Hc) as Cc.
    destruct (canonical_facts prec emax mc ec Cc) as (He & _).
    pose proof (scale_pos prec emax ec He).
    destruct sc; cbn [cond_Zopp] in Hlt |- *; [nia|].
    right. exists mc, ec. cbn [SFsub]. split; [reflexivity|]. split; [exact He|].
    rewrite Z.sub_0_r. symmetry. apply rnd_exact. exact Cc.
  - pose proof (bounded_canonical _ _ _ _ Hc) as Cc.
    pose proof (bounded_canonical _ _ _ _ Hb) as Cb.
    destruct (canonical_facts prec emax mc ec Cc) as (Hec & _).
    destruct (canonical_facts prec emax mb eb Cb) as (Heb & _).
    cbn [SFsub]. set (ez := Z.min ec eb).
    destruct (shl_align_spec mc ec ez) as [_ Hmc].
    destruct (shl_align_spec mb eb ez) as [_ Hmb].
    rewrite Z.min_r in Hmc by (unfold ez; lia).
    rewrite Z.min_r in Hmb by (unfold ez; lia).
    set (M := cond_Zopp sc (Z.pos (fst (shl_align mc ec ez)))
              - cond_Zopp sb (Z.pos (fst (shl_align mb eb ez)))).
    assert (Hez : emin <= ez) by (unfold ez; lia).
    pose proof (scale_pos prec emax ez Hez) as HS.
    assert (Hsc : forall m e, ez <= e -> Z.pos m * 2 ^ (e - ez) * Sc ez = Z.pos m * Sc e).
    { intros m e Hle. unfold scale. rewrite <- Z.mul_assoc, <- Z.pow_add_r by lia.
      do 2 f_equal. lia. }
    assert (HM : M * Sc ez
                 = cond_Zopp sc (Z.pos mc * Sc ec) - cond_Zopp sb (Z.pos mb * Sc eb)).
    { unfold M. rewrite Hmc, Hmb. rewrite <- (Hsc mc ec), <- (Hsc mb eb) by (unfold ez; lia).
      destruct sc, sb; cbn [cond_Zopp]; lia. }
    rewrite <- HM.
    assert (HMpos : 0 < M) by nia.
    unfold binary_normalize. destruct M as [|p|p]; try lia.
    apply binary_round_value. exact Hez.
Qed.

End Sub.

Lemma new_location_spec (n r : Z) :
  0 < n -> 0 <= r < n -> new_location n r = loc_of_rem r n.
Proof.
  intros Hn Hr. unfold new_location, loc_of_rem.
  destruct (Z.even n) eqn:En; [reflexivity|].
  unfold new_location_odd. destruct (r =? 0); [reflexivity|]. f_equal.
  assert (Ho : Z.odd n = true) by (rewrite <- Z.negb_even, En; reflexivity).
  apply Z.odd_spec in Ho. destruct Ho as [j Hj].
  destruct (Z.compare_spec (2 * r + 1) n) as [C|C|C]; symmetry.
  - apply Z.compare_lt_iff. lia.
  - apply Z.compare_lt_iff. lia.
  - apply Z.compare_gt_iff. lia.
Qed.

Lemma loc_of_rem_scale (r P K : Z) :
  0 < K -> loc_of_rem (r * K) (P * K) = loc_of_rem r P.
Proof.
  intros HK. unfold loc_of_rem.
  destruct (Z.eqb_spec r 0) as [E|E].
  - subst r. reflexivity.
  - destruct (Z.eqb_spec (r * K) 0) as [E'|E']; [nia|].
    f_equal. destruct (Z.compare_spec (2 * r) P) as [C|C|C].
    + apply Z.compare_eq_iff. nia.
    + apply Z.compare_lt_iff. nia.
    + apply Z.compare_gt_iff. nia.
Qed.

Section Div.

Variables prec emax : Z.
Hypothesis Hprec : 0 < prec.

Local Abbreviation emin := (emin prec emax).
Local Abbreviation fexp := (fexp prec emax).
Local Abbreviation Sc := (scale prec emax).

(** A positive float divided by a positive float smaller than one: the
    quotient is rounded from the exact quotient. *)
Lemma SFdiv_value (md : positive) (ed : Z) (my : positive) (ey : Z) :
  emin <= ed -> Z.pos (digits2_pos my) + ey <= 0 ->
  let q := SFdiv prec emax (S754_finite false md ed) (S754_finite false my ey) in
  (q = S754_infinity false
   /\ Sc (emax - prec + 1) <= rnd prec emax (Z.pos md * Sc ed * 2 ^ (- ey)) (Z.pos my))
  \/ exists m e,
      q = S754_finite false m e
      /\ emin <= e
      /\ Z.pos m * Sc e = rnd prec emax (Z.pos md * Sc ed * 2 ^ (- ey)) (Z.pos my).
Proof.
  intros Hed Hy q. unfold q, SFdiv, SFdiv_core_binary. clear q.
  cbn [Zdigits2 xorb].
  set (d1 := Z.pos (digits2_pos md)). set (d2 := Z.pos (digits2_pos my)).
  fold d2 in Hy.
  set (g := d1 + ed - (d2 + ey)).
  set (e' := Z.min (fexp g) (ed - ey)).
  set (s := ed - ey - e').
  pose proof (fexp_ge_emin prec emax g) as Hfg.
  assert (Hd1 : 1 <= d1) by (unfold d1; lia).
  assert (Hd2 : 1 <= d2) by (unfold d2; lia).
  assert (He' : emin <= e') by (unfold e'; lia).
  assert (Hs : 0 <= s) by (unfold s, e'; lia).
  assert (Hs2 : d2 - d1 + 1 <= s).
  { unfold s, e'. unfold SpecFloat.fexp in *. fold emin in *. unfold g. lia. }
  set (m' := match s with Z.pos _ => Z.shiftl (Z.pos md) s | 0 => Z.pos md | Z.neg _ => 0 end).
  assert (Hm' : m' = Z.pos md * 2 ^ s).
  { unfold m'. destruct s as [|p|p] eqn:Es; [simpl; lia| |lia].
    rewrite Z.shiftl_mul_pow2 by lia. reflexivity. }
  pose proof (digits2_pos_bounds md) as Hbd. fold d1 in Hbd.
  pose proof (digits2_pos_bounds my) as Hby. fold d2 in Hby.
  pose proof (Z.div_eucl_eq m' (Z.pos my) ltac:(lia)) as Heq.
  pose proof (Z.mod_pos_bound m' (Z.pos my) ltac:(lia)) as Hrb.
  assert (Hdm : Z.div_eucl m' (Z.pos my) = (m' / Z.pos my, m' mod Z.pos my)).
  { unfold Z.div, Z.modulo. destruct (Z.div_eucl m' (Z.pos my)). reflexivity. }
  rewrite Hdm.
  set (qm := m' / Z.pos my) in *. set (r := m' mod Z.pos my) in *.
  rewrite new_location_spec by lia.
  pose proof (scale_pos prec emax e' He') as HS.
  set (A := Z.pos md * Sc ed * 2 ^ (- ey)).
  assert (HA : A = m' * Sc e').
  { unfold A. rewrite Hm'. unfold scale. rewrite <- !Z.mul_assoc, <- !Z.pow_add_r by lia.
    do 2 f_equal. unfold s. lia. }
  assert (Hpow : 2 ^ (d1 - 1 + s) = 2 ^ (d1 + s - d2 - 1) * 2 ^ d2).
  { rewrite <- Z.pow_add_r by lia. f_equal. lia. }
  assert (Hqlow : 2 ^ (d1 + s - d2 - 1) <= qm).
  { unfold qm. apply Z.div_le_lower_bound; [lia|].
    assert (0 < 2 ^ (d1 + s - d2 - 1)) by (apply Z.pow_pos_nonneg; lia).
    assert (2 ^ (d1 - 1 + s) <= m').
    { rewrite Hm', Z.pow_add_r by lia.
      apply Z.mul_le_mono_nonneg_r; [apply Z.pow_nonneg|]; lia. }
    nia. }
  assert (Hq1 : 1 <= qm).
  { assert (0 < 2 ^ (d1 + s - d2 - 1)) by (apply Z.pow_pos_nonneg; lia). lia. }
  assert (Hdq : d1 + s - d2 <= Zdigits2 qm).
  { destruct (Zdigits2_bounds qm ltac:(lia)) as (Hdq & Hbq).
    destruct (Z.le_gt_cases (d1 + s - d2) (Zdigits2 qm)) as [H|H]; [exact H|].
    assert (2 ^ Zdigits2 qm <= 2 ^ (d1 + s - d2 - 1)) by (apply Z.pow_le_mono_r; lia). lia. }
  assert (HR : Repr A (Z.pos my * Sc e') qm (loc_of_rem r (Z.pos my))).
  { split.
    - rewrite HA. rewrite Z.div_mul_cancel_r by lia. reflexivity.
    - rewrite HA. rewrite Z.mul_mod_distr_r by lia. fold r.
      symmetry. apply loc_of_rem_scale. exact HS. }
  destruct (binary_round_aux_value prec emax Hprec false A (Z.pos my) qm e'
              (loc_of_rem r (Z.pos my))) as [H|H]; try lia; try exact HR.
  - transitivity (fexp g); [unfold e'; lia|]. apply fexp_mono. unfold g, s in *. lia.
  - left. destruct H as [H1 H2]. split; [exact H1|]. unfold rnd.
    destruct HR as [HRq _].
    rewrite <- (mag_repr prec emax A (Z.pos my) e'); try lia.
    rewrite <- HRq. exact H2.
  - right. destruct H as (m & e & H1 & H2 & H3). exists m, e.
    split; [exact H1|]. split; [exact H2|]. rewrite H3. unfold rnd.
    destruct HR as [HRq _].
    rewrite <- (mag_repr prec emax A (Z.pos my) e'); try lia.
    rewrite <- HRq. reflexivity.
Qed.

End Div.

(** ** The position estimate: [_calculate_position] *)

Lemma prec_pos : 0 < prec.
Proof. reflexivity. Qed.

Lemma cent_shape : PriceManager.cent = S754_finite false cent_mantissa (-59).
Proof. vm_compute. reflexivity. Qed.

Lemma emin_value : SpecFloat.emin prec emax = -1074.
Proof. reflexivity. Qed.

(** [int(x)] of a positive float is its value in units divided by the
    number of units in 1. *)
Lemma to_int_units (m : positive) (e : Z) :
  -1074 <= e -> Z.shiftl (Z.pos m) e = (Z.pos m * scale prec emax e) / 2 ^ 1074.
Proof.
  intros He. unfold scale. rewrite emin_value.
  destruct (Z.le_gt_cases 0 e) as [H|H].
  - rewrite Z.shiftl_mul_pow2 by lia.
    replace (e - -1074) with (e + 1074) by lia. rewrite Z.pow_add_r by lia.
    rewrite Z.mul_assoc, Z.div_mul; [reflexivity|].
    apply Z.pow_nonzero; lia.
  - rewrite Z.shiftl_div_pow2 by lia.
    assert (H2 : 2 ^ 1074 = 2 ^ (- e) * 2 ^ (e - -1074))
      by (rewrite <- Z.pow_add_r by lia; f_equal; lia).
    rewrite H2.
    rewrite Z.div_mul_cancel_r; [reflexivity| |]; apply Z.pow_nonzero; lia.
Qed.

Lemma fle_units (x y : float) :
  valid x = true -> valid y = true -> is_finite x = true -> is_finite y = true ->
  fle x y = (Nval prec emax x <=? Nval prec emax y).
Proof.
  intros Hx Hy Hfx Hfy. unfold fle, SFleb.
  rewrite (SFcompare_Nval prec emax prec_pos x y Hx Hy Hfx Hfy).
  unfold Z.leb. destruct (Nval prec emax x ?= Nval prec emax y); reflexivity.
Qed.

Lemma rnd_one : rnd prec emax 1 1 = 1.
Proof. vm_compute. reflexivity. Qed.

Lemma rnd_int_pos (D : Z) : 1 <= D -> 1 <= rnd prec emax D 1.
Proof.
  intros HD. rewrite <- rnd_one at 1. apply rnd_mono; [apply prec_pos|lia..].
Qed.

Lemma quotient_units_mono (D1 D2 : Z) :
  1 <= D1 -> D1 <= D2 -> quotient_units D1 <= quotient_units D2.
Proof.
  intros H1 H2. unfold quotient_units.
  pose proof (rnd_int_pos D1 H1) as Hr1.
  assert (Hr : rnd prec emax D1 1 <= rnd prec emax D2 1)
    by (apply rnd_mono; [apply prec_pos|lia..]).
  assert (Hc : Z.pos cent_mantissa < 2 ^ 59) by reflexivity.
  assert (Hp : 0 < 2 ^ 59) by reflexivity.
  apply rnd_mono; [apply prec_pos|lia|lia|nia|nia].
Qed.

Lemma cent_below_one : Z.pos (digits2_pos cent_mantissa) + -59 <= 0.
Proof. vm_compute. discriminate. Qed.

Lemma overflow_stays (V : Z) :
  scale prec emax (emax - prec + 1) <= V ->
  scale prec emax (emax - prec + 1)
  <= rnd prec emax (V * 2 ^ 59) (Z.pos cent_mantissa).
Proof.
  intros HV. set (T := scale prec emax (emax - prec + 1)) in *.
  assert (HT : T <= rnd prec emax (T * 2 ^ 59) (Z.pos cent_mantissa))
    by (vm_compute; discriminate).
  assert (HTc : Z.pos cent_mantissa <= T * 2 ^ 59) by (vm_compute; discriminate).
  transitivity (rnd prec emax (T * 2 ^ 59) (Z.pos cent_mantissa)); [exact HT|].
  clearbody T.
  apply rnd_mono; [apply prec_pos|lia|lia|exact HTc|].
  apply Z.mul_le_mono_nonneg_r; [lia|].
  apply Z.mul_le_mono_nonneg_r; [|exact HV]. apply Z.pow_nonneg. lia.
Qed.

Section Quotient.

Variables c b : float.
Hypothesis Hc : valid c = true.
Hypothesis Hb : valid b = true.
Hypothesis Hfc : is_finite c = true.
Hypothesis Hfb : is_finite b = true.
Hypothesis Hlt : Nval prec emax b < Nval prec emax c.

Let D : Z := Nval prec emax c - Nval prec emax b.
Let q : float := fdiv (fsub c b) PriceManager.cent.

(** The quotient [(c - b) / 0.01] of two valid finite floats with [b < c]
    is [+inf] or a positive float, of the value the two roundings give. *)
Lemma quotient_value :
  (q = S754_infinity false
   /\ scale prec emax (emax - prec + 1) <= quotient_units D)
  \/ exists m e,
      q = S754_finite false m e
      /\ -1074 <= e
      /\ Z.pos m * scale prec emax e = quotient_units D.
Proof.
  unfold q, fdiv, fsub. rewrite cent_shape.
  destruct (SFsub_value prec emax prec_pos c b Hc Hb Hfc Hfb Hlt)
    as [[Hd Hbound]|(m & e & Hd & He & Hv)]; rewrite Hd.
  - left. split; [reflexivity|]. apply overflow_stays. exact Hbound.
  - destruct (SFdiv_value prec emax prec_pos m e cent_mantissa (-59) He cent_below_one)
      as [[Hq Hbound]|(m' & e' & Hq & He' & Hv')]; rewrite Hq.
    + left. split; [reflexivity|]. unfold quotient_units, D. rewrite <- Hv.
      exact Hbound.
    + right. exists m', e'. split; [reflexivity|]. split; [exact He'|].
      rewrite Hv'. unfold quotient_units, D. rewrite <- Hv. reflexivity.
Qed.

(** The position of [c] against a smaller [b], when it is computed. *)
Lemma position_units (p : Z) :
  PriceManager._calculate_position c b = Ok p ->
  floor q = Some (quotient_units D / 2 ^ 1074)
  /\ p = Z.max 2 (quotient_units D / 2 ^ 1074 + 1).
Proof.
  unfold PriceManager._calculate_position. rewrite (fle_units c b Hc Hb Hfc Hfb).
  assert ((Nval prec emax c <=? Nval prec emax b) = false) as -> by (apply Z.leb_gt; exact Hlt).
  fold q. destruct quotient_value as [[Hq _]|(m & e & Hq & He & Hv)]; rewrite Hq.
  - discriminate.
  - cbn [to_int floor cond_Zopp]. rewrite to_int_units, Hv by exact He.
    intros H. injection H as <-. split; reflexivity.
Qed.

(** It is computed as soon as the quotient does not overflow. *)
Lemma position_defined :
  quotient_units D < scale prec emax (emax - prec + 1) ->
  PriceManager._calculate_position c b
  = Ok (Z.max 2 (quotient_units D / 2 ^ 1074 + 1)).
Proof.
  intros Hsmall.
  unfold PriceManager._calculate_position. rewrite (fle_units c b Hc Hb Hfc Hfb).
  assert ((Nval prec emax c <=? Nval prec emax b) = false) as -> by (apply Z.leb_gt; exact Hlt).
  fold q. destruct quotient_value as [[Hq Hbig]|(m & e & Hq & He & Hv)]; rewrite Hq.
  - lia.
  - cbn [to_int cond_Zopp]. rewrite to_int_units, Hv by exact He. reflexivity.
Qed.

End Quotient.

Lemma price_limit_shape : price_limit = S754_finite false 4503599627370496 848.
Proof. vm_compute. reflexivity. Qed.

Lemma price_limit_valid : valid price_limit = true.
Proof. vm_compute. reflexivity. Qed.

Lemma below_limit_cases (c : float) :
  fle c price_limit = true -> is_finite c = true \/ c = S754_infinity true.
Proof.
  rewrite price_limit_shape.
  destruct c as [s|[|]| |s m e]; intros H; auto; vm_compute in H; discriminate.
Qed.

Lemma above_limit_cases (b : float) :
  fle (SFopp price_limit) b = true -> is_finite b = true \/ b = S754_infinity false.
Proof.
  rewrite price_limit_shape.
  destruct b as [s|[|]| |s m e]; intros H; auto; vm_compute in H; discriminate.
Qed.

(** A position other than 1 is only computed for two finite prices. *)
Lemma position_operands_finite (c b : float) (p : Z) :
  fle c b = false -> PriceManager._calculate_position c b = Ok p ->
  is_finite c = true /\ is_finite b = true.
Proof.
  unfold PriceManager._calculate_position. intros Hle. rewrite Hle.
  unfold fsub, fdiv. rewrite cent_shape.
  destruct c as [sc|sc| |sc mc ec], b as [sb|sb| |sb mb eb];
    try (intros _; split; reflexivity);
    try destruct sc; try destruct sb; cbn; try discriminate;
    revert Hle; unfold fle; cbn; discriminate.
Qed.

Lemma position_first_iff (c b : float) (p : Z) :
  PriceManager._calculate_position c b = Ok p ->
  1 <= p /\ (p = 1 <-> fle c b = true).
Proof.
  unfold PriceManager._calculate_position.
  destruct (fle c b).
  - intros H. injection H as <-. split; [lia|tauto].
  - destruct (to_int _) as [n|x]; [|discriminate].
    intros H. injection H as <-. split; [lia|]. split; [lia|discriminate].
Qed.

Lemma quotient_units_limit :
  quotient_units (2 * Nval prec emax price_limit) < scale prec emax (emax - prec + 1).
Proof. vm_compute. reflexivity. Qed.

(** ** Further properties of the specification *)

Lemma filter_active_spec (all_items active_items : list raw_item) (sold_count : Z)
    (env : env) (w : world) :
  exists n w',
    MarketAPI.filter_active all_items active_items sold_count env w
    = (Ok (active_items
           ++ List.filter (fun item => negb (raw_status item =? 2)) all_items, n), w')
    /\ gets (trace w') = gets (trace w).
Proof.
  revert active_items sold_count w.
  induction all_items as [|item rest IH]; intros active_items sold_count w.
  - exists sold_count, w. simpl. rewrite app_nil_r. auto.
  - cbn [MarketAPI.filter_active List.filter].
    destruct (negb (raw_status item =? 2)).
    + destruct (IH (active_items ++ [item]) sold_count w) as (n & w' & H & Hg).
      exists n, w'. rewrite H, <- app_assoc. auto.
    + io_unfold.
      match goal with
      | |- context [MarketAPI.filter_active rest active_items ?k _ ?w0] =>
          destruct (IH active_items k w0) as (n & w' & H & Hg)
      end.
      exists n, w'. rewrite H. split; [reflexivity|].
      rewrite Hg. cbn [trace]. apply gets_print.
Qed.

(** X2. [get_items_on_sale] keeps, in order, exactly the listings whose
    status is not 2 when the request succeeds and carries an [items] list. *)
Theorem get_items_on_sale_active (api_key : string) (env : env) (w w1 : world)
    (raw : response) (all_items : list raw_item) :
  MarketAPI._make_request api_key "items" [("v", PStr "2")] env w = (Ok (Some raw), w1) ->
  resp_success raw = true ->
  resp_items raw = Some all_items ->
  exists r w',
    MarketAPI.get_items_on_sale api_key env w = (Ok r, w')
    /\ resp_success r = true
    /\ resp_items r
       = Some (List.filter (fun item => negb (raw_status item =? 2)) all_items).
Proof.
  intros Hreq Hs Hi. unfold MarketAPI.get_items_on_sale.
  rewrite (bind_ok _ _ _ _ _ _ Hreq). unfold MarketAPI.dict_of.
  rewrite (bind_ok _ _ _ w1 w1 raw) by reflexivity.
  rewrite Hs, Hi. io_unfold.
  match goal with
  | |- context [MarketAPI.filter_active all_items [] 0 env ?w0] =>
      destruct (filter_active_spec all_items [] 0 env w0) as (n & w' & H & _)
  end.
  rewrite H. cbn [app]. eexists _, _. split; [reflexivity|]. split; reflexivity.
Qed.

Lemma get_items_on_sale_active_witness :
  let sold := {| raw_item_id := "4"; raw_market_hash_name := "P250";
                 raw_price := JFloat (literal 100 2); raw_status := 2 |} in
  let all_items := Scenario.three_listings ++ [sold] in
  let env := Scenario.market all_items [9500] (HttpOk Scenario.ok_response) in
  exists r w',
    MarketAPI.get_items_on_sale "KEY" env world0 = (Ok r, w')
    /\ resp_success r = true
    /\ resp_items r
       = Some (List.filter (fun item => negb (raw_status item =? 2)) all_items).
Proof.
  cbv zeta.
  apply (get_items_on_sale_active "KEY" _ world0
           (snd (MarketAPI._make_request "KEY" "items" [("v", PStr "2")]
                   (Scenario.market
                      (Scenario.three_listings
                       ++ [{| raw_item_id := "4"; raw_market_hash_name := "P250";
                              raw_price := JFloat (literal 100 2); raw_status := 2 |}])
                      [9500] (HttpOk Scenario.ok_response)) world0))
           (Scenario.items_response
              (Scenario.three_listings
               ++ [{| raw_item_id := "4"; raw_market_hash_name := "P250";
                      raw_price := JFloat (literal 100 2); raw_status := 2 |}])));
    vm_compute; reflexivity.
Defined.

(** ** What each call adds to the world *)

Lemma prompts_app (t u : list event) : prompts (t ++ u) = prompts t ++ prompts u.
Proof. unfold prompts. apply List.filter_app. Qed.

Lemma after_nil (w : world) : after w [] w.
Proof. unfold after. simpl. rewrite app_nil_r. repeat split; lia. Qed.

Lemma after_app (w w1 w2 : world) (e1 e2 : list event) :
  after w e1 w1 -> after w1 e2 w2 -> after w (e1 ++ e2) w2.
Proof.
  intros (Ht1 & Hh1 & Hi1) (Ht2 & Hh2 & Hi2). unfold after.
  rewrite Ht2, Ht1, Hh2, Hh1, Hi2, Hi1, gets_app, prompts_app, !length_app, app_assoc.
  repeat split; lia.
Qed.

Lemma after_cons (w w1 w2 : world) (ev : event) (evs : list event) :
  after w [ev] w1 -> after w1 evs w2 -> after w (ev :: evs) w2.
Proof. apply (after_app w w1 w2 [ev] evs). Qed.

Lemma after_print (m : message) (env : env) (w : world) :
  after w [EvPrint m] (snd (print m env w)).
Proof. unfold after. simpl. repeat split; lia. Qed.

Lemma after_sleep (s : Q) (env : env) (w : world) :
  after w [EvSleep s] (snd (sleep s env w)).
Proof. unfold after. simpl. repeat split; lia. Qed.

Lemma after_get (req : request) (env : env) (w : world) :
  after w [EvGet req] (snd (session_get req env w)).
Proof. unfold after. simpl. repeat split; lia. Qed.

Lemma after_input (env : env) (w : world) :
  after w [EvInput] (snd (input env w)).
Proof. unfold after. simpl. repeat split; lia. Qed.

Ltac after_solve :=
  unfold after; cbn [trace http_count input_count fst snd];
  rewrite <- ?app_assoc;
  split; [reflexivity|]; simpl; split; lia.

(** The loop of [_make_request]: it never raises, sends the same request
    once per attempt it makes, never prompts, and falls off its end only
    when every attempt was one that may be retried. *)
Lemma make_request_loop_after (req : request) (attempts : list Z) (env : env) (w : world) :
  exists r w' evs k,
    MarketAPI._make_request_loop req 3 attempts env w = (Ok r, w')
    /\ after w evs w'
    /\ gets evs = repeat req k
    /\ prompts evs = []
    /\ (k <= length attempts)%nat
    /\ (attempts <> [] -> (1 <= k)%nat)
    /\ (r = None -> Forall (fun a => (a <? 3 - 1) = true) attempts).
Proof.
  revert w. induction attempts as [|a rest IH]; intros w.
  - exists None, w, [], 0%nat. simpl. split; [reflexivity|].
    split; [apply after_nil|]. repeat split; auto. congruence.
  - cbn [MarketAPI._make_request_loop]. unfold bind at 1. unfold session_get at 1.
    destruct (http_get env (http_count w) req) as [body|e|e|e|e].
    1, 2, 5: io_unfold; destruct (String.eqb (endpoint req) "set-price");
      cbn [fst snd]; eexists (Some _), _, _, 1%nat;
      (split; [reflexivity|]); (split; [after_solve|]);
      simpl; repeat split; try lia; discriminate.
    all: destruct (a <? 3 - 1) eqn:Ha.
    2, 4: io_unfold; cbn [fst snd]; eexists (Some _), _, _, 1%nat;
      (split; [reflexivity|]); (split; [after_solve|]);
      simpl; repeat split; try lia; discriminate.
    all: io_unfold; cbn [fst snd];
      match goal with
      | |- context [MarketAPI._make_request_loop _ 3 _ _ ?w0] =>
          destruct (IH w0) as (r & w' & evs & k & Hrun & Haft & Hg & Hp & Hk & _ & Hnone)
      end;
      rewrite Hrun;
      exists r, w', ([EvGet req; EvPrint (MsgConnectionError e);
                      EvPrint (MsgWaitRetry MarketAPI.retry_delay (a + 2) 3);
                      EvSleep (inject_Z MarketAPI.retry_delay)] ++ evs), (S k);
      (split; [reflexivity|]);
      (split; [eapply after_app; [|exact Haft]; after_solve|]);
      rewrite gets_app, prompts_app, Hg, Hp; simpl;
      repeat split; try lia; intros Hr; constructor; auto.
Qed.

(** [_make_request]: between one and three copies of one request, which
    carries the key as its last parameter, and a dictionary as the result. *)
Lemma make_request_after (api_key ep : string) (ps : list (string * pval))
    (env : env) (w : world) :
  exists body w' evs k,
    MarketAPI._make_request api_key ep ps env w = (Ok (Some body), w')
    /\ after w evs w'
    /\ gets evs = repeat {| endpoint := ep; params := ps ++ [("key", PStr api_key)] |} k
    /\ prompts evs = []
    /\ (1 <= k <= 3)%nat.
Proof.
  unfold MarketAPI._make_request, MarketAPI._make_request_retries.
  change (range 3) with [0; 1; 2].
  destruct (make_request_loop_after {| endpoint := ep; params := ps ++ [("key", PStr api_key)] |}
              [0; 1; 2] env w) as (r & w' & evs & k & Hrun & Haft & Hg & Hp & Hk & Hk1 & Hnone).
  destruct r as [body|].
  - exists body, w', evs, k. simpl in Hk.
    split; [exact Hrun|]. split; [exact Haft|]. split; [exact Hg|]. split; [exact Hp|].
    split; [apply Hk1; discriminate|exact Hk].
  - specialize (Hnone eq_refl). inversion Hnone as [|? ? _ H1]; subst.
    inversion H1 as [|? ? _ H2]; subst. inversion H2 as [|? ? H3 _]; subst. discriminate.
Qed.

(** [set_price]: a price that cannot be encoded raises before anything is
    printed or sent; otherwise the encoded price is sent, one to three
    times. *)
Lemma set_price_after (api_key item_id : string) (price : float) (env : env) (w : world) :
  match MarketAPI.price_formatted price with
  | Raise x => MarketAPI.set_price api_key item_id price env w = (Raise x, w)
  | Ok pf =>
      exists body w' evs k,
        MarketAPI.set_price api_key item_id price env w = (Ok (Some body), w')
        /\ after w evs w'
        /\ gets evs = repeat (set_price_request api_key item_id pf) k
        /\ prompts evs = []
        /\ (1 <= k <= 3)%nat
  end.
Proof.
  unfold MarketAPI.set_price, MarketAPI.set_price_cur.
  unfold bind at 1. unfold lift.
  destruct (MarketAPI.price_formatted price) as [pf|x]; [|reflexivity].
  io_unfold. cbn [fst snd].
  match goal with
  | |- context [MarketAPI._make_request api_key ?ep ?ps env ?w0] =>
      destruct (make_request_after api_key ep ps env w0)
        as (body & w' & evs & k & Hrun & Haft & Hg & Hp & Hk)
  end.
  rewrite Hrun.
  exists body, w', ([EvPrint MsgDebugSending; EvPrint (MsgDebugItemId item_id);
                     EvPrint (MsgDebugPrice price); EvPrint (MsgDebugPriceFormatted pf);
                     EvPrint (MsgDebugCurrency "USD")] ++ evs), k.
  split; [reflexivity|].
  split; [eapply after_app; [|exact Haft]; after_solve|].
  rewrite gets_app, prompts_app, Hg, Hp. simpl. auto.
Qed.

(** The retry loop of [update_item_price]: it sends nothing but the encoded
    new price for this listing, never prompts, and raises only when the
    price cannot be encoded. *)
Lemma update_loop_after (api_key : string) (item : ItemInfo) (new_price : float)
    (attempts : list Z) (env : env) (w : world) :
  exists r w' evs,
    PriceManager.update_item_price_loop api_key item new_price attempts env w = (r, w')
    /\ after w evs w'
    /\ prompts evs = []
    /\ match MarketAPI.price_formatted new_price with
       | Ok pf =>
           (exists done, r = Ok done)
           /\ exists k, (k <= 3 * length attempts)%nat
                /\ gets evs = repeat (set_price_request api_key (item_id item) pf) k
       | Raise x => (r = Raise x \/ attempts = []) /\ gets evs = []
       end.
Proof.
  revert w. induction attempts as [|a rest IH]; intros w.
  - exists (Ok false), w, []. split; [reflexivity|]. split; [apply after_nil|].
    split; [reflexivity|].
    destruct (MarketAPI.price_formatted new_price); [|auto].
    split; [eauto|]. exists 0%nat. split; [simpl; lia|reflexivity].
  - cbn [PriceManager.update_item_price_loop].
    set (w0 := snd (when (0 <? a) (print (MsgAttempt (a + 1) PriceManager.max_retries)) env w)).
    set (e0 := if 0 <? a then [EvPrint (MsgAttempt (a + 1) PriceManager.max_retries)] else []).
    assert (H0 : when (0 <? a) (print (MsgAttempt (a + 1) PriceManager.max_retries)) env w
                 = (Ok tt, w0)) by (unfold w0; destruct (0 <? a); reflexivity).
    assert (Ha0 : after w e0 w0)
      by (unfold w0, e0; destruct (0 <? a); [apply after_print|apply after_nil]).
    assert (Hg0 : gets e0 = [] /\ prompts e0 = [])
      by (unfold e0; destruct (0 <? a); auto).
    destruct Hg0 as [Hg0 Hp0].
    rewrite (bind_ok _ _ _ _ _ _ H0).
    pose proof (set_price_after api_key (item_id item) new_price env w0) as Hsp.
    destruct (MarketAPI.price_formatted new_price) as [pf|x].
    + destruct Hsp as (body & w1 & e1 & k1 & Hrun & Ha1 & Hg1 & Hp1 & Hk1).
      rewrite (bind_ok _ _ _ _ _ _ Hrun). unfold MarketAPI.dict_of.
      rewrite (bind_ok _ _ _ w1 w1 body) by reflexivity.
      assert (Ha01 : after w (e0 ++ e1) w1) by (eapply after_app; eassumption).
      destruct (resp_success body).
      * io_unfold. cbn [fst snd]. eexists (Ok true), _, ((e0 ++ e1) ++ _).
        split; [reflexivity|].
        split; [eapply after_app; [exact Ha01|]; after_solve|].
        rewrite !prompts_app, !gets_app, Hg0, Hp0, Hg1, Hp1. simpl.
        split; [reflexivity|]. split; [eauto|]. exists k1. rewrite app_nil_r.
        split; [lia|reflexivity].
      * destruct (String.eqb _ "too_often" && (a <? PriceManager.max_retries - 1)).
        -- io_unfold. cbn [fst snd].
           match goal with
           | |- context [PriceManager.update_item_price_loop _ _ _ rest env ?w2] =>
               destruct (IH w2) as (r & w' & e2 & Hrun2 & Ha2 & Hp2 & (done & Hr) & k2 & Hk2 & Hg2)
           end.
           rewrite Hrun2.
           exists r, w', ((e0 ++ e1)
                          ++ [EvPrint (MsgTooOftenWait PriceManager.retry_delay);
                              EvSleep (inject_Z PriceManager.retry_delay)] ++ e2).
           split; [reflexivity|].
           split; [eapply after_app; [exact Ha01|]; eapply after_app; [|exact Ha2]; after_solve|].
           rewrite !prompts_app, !gets_app, Hg0, Hp0, Hg1, Hp1, Hg2, Hp2. simpl.
           split; [reflexivity|]. split; [eauto|]. exists (k1 + k2)%nat.
           rewrite repeat_app. split; [lia|reflexivity].
        -- io_unfold. destruct (a =? PriceManager.max_retries - 1); cbn [fst snd];
             eexists (Ok false), _, ((e0 ++ e1) ++ _);
             (split; [reflexivity|]);
             (split; [eapply after_app; [exact Ha01|]; after_solve|]);
             rewrite !prompts_app, !gets_app, Hg0, Hp0, Hg1, Hp1; simpl;
             (split; [reflexivity|]); (split; [eauto|]); exists k1; rewrite app_nil_r;
             (split; [lia|reflexivity]).
    + rewrite (bind_raise _ _ _ _ _ _ Hsp).
      exists (Raise x), w0, e0. split; [reflexivity|]. auto.
Qed.

(** [update_item_price]: at most one prompt, and none when the update is
    confirmed automatically; a declined update sends nothing. *)
Lemma update_item_price_after (api_key : string) (item : ItemInfo) (new_price : float)
    (auto_confirm : bool) (env : env) (w : world) :
  exists r w' evs,
    PriceManager.update_item_price api_key item new_price auto_confirm env w = (r, w')
    /\ after w evs w'
    /\ prompts evs = (if auto_confirm then [] else [EvInput])
    /\ (auto_confirm = false ->
        ~ operator_answer env (input_count w) ∈ ["yes"; "y"; "да"] ->
        r = Ok false /\ gets evs = [])
    /\ match MarketAPI.price_formatted new_price with
       | Ok pf =>
           (exists done, r = Ok done)
           /\ exists k, (k <= 9)%nat
                /\ gets evs = repeat (set_price_request api_key (item_id item) pf) k
       | Raise x => (r = Raise x \/ r = Ok false) /\ gets evs = []
       end.
Proof.
  unfold PriceManager.update_item_price. io_unfold.
  cbn [fst snd http_count input_count trace].
  set (e0 := [EvPrint (MsgPlanned (market_hash_name item));
              EvPrint (MsgCurrentPrice (current_price item));
              EvPrint (MsgNewPrice new_price);
              EvPrint (MsgDifference (fsub (current_price item) new_price))]).
  assert (Hloop : forall w0 e1, after w (e0 ++ e1) w0 -> gets e1 = [] ->
            forall ps, prompts e1 = ps ->
            exists r w' evs,
              PriceManager.update_item_price_loop api_key item new_price
                (range PriceManager.max_retries) env w0 = (r, w')
              /\ after w evs w'
              /\ prompts evs = ps
              /\ match MarketAPI.price_formatted new_price with
                 | Ok pf =>
                     (exists done, r = Ok done)
                     /\ exists k, (k <= 9)%nat
                          /\ gets evs = repeat (set_price_request api_key (item_id item) pf) k
                 | Raise x => (r = Raise x \/ r = Ok false) /\ gets evs = []
                 end).
  { intros w0 e1 Ha0 Hg1 ps Hp1.
    destruct (update_loop_after api_key item new_price (range PriceManager.max_retries) env w0)
      as (r & w' & e2 & Hrun & Ha2 & Hp2 & Hcase).
    exists r, w', ((e0 ++ e1) ++ e2). split; [exact Hrun|].
    split; [eapply after_app; eassumption|].
    rewrite !prompts_app, !gets_app, Hg1, Hp1, Hp2. simpl. rewrite app_nil_r.
    split; [reflexivity|].
    destruct (MarketAPI.price_formatted new_price) as [pf|x].
    - destruct Hcase as (Hd & k & Hk & Hg). split; [exact Hd|]. exists k.
      split; [exact Hk|exact Hg].
    - destruct Hcase as ([Hr|Hr] & Hg); [|discriminate]. auto. }
  destruct auto_confirm; cbn [negb].
  - match goal with
    | |- context [PriceManager.update_item_price_loop _ _ _ _ env ?w0] =>
        assert (Ha0 : after w (e0 ++ []) w0) by (unfold e0; after_solve);
        destruct (Hloop w0 [] Ha0 eq_refl [] eq_refl)
          as (r & w' & evs & Hrun & Ha & Hp & Hcase)
    end.
    exists r, w', evs. repeat (split; [assumption|]). split; [discriminate|exact Hcase].
  - match goal with
    | |- context [bool_decide (?a ∈ _)] => change a with (operator_answer env (input_count w))
    end.
    destruct (bool_decide (operator_answer env (input_count w) ∈ ["yes"; "y"; "да"])) eqn:Hyes;
      cbn [negb fst snd http_count input_count trace].
    + match goal with
      | |- context [PriceManager.update_item_price_loop _ _ _ _ env ?w0] =>
          assert (Ha0 : after w (e0 ++ [EvInput]) w0) by (unfold e0; after_solve);
          destruct (Hloop w0 [EvInput] Ha0 eq_refl [EvInput] eq_refl)
            as (r & w' & evs & Hrun & Ha & Hp & Hcase)
      end.
      exists r, w', evs. repeat (split; [assumption|]).
      split; [|exact Hcase]. intros _ Hno. apply bool_decide_eq_true_1 in Hyes. contradiction.
    + eexists (Ok false), _, (e0 ++ [EvInput; EvPrint MsgCancelled]).
      split; [reflexivity|]. split; [unfold e0; after_solve|]. split; [reflexivity|].
      split; [auto|].
      destruct (MarketAPI.price_formatted new_price) as [pf|x]; [|auto].
      split; [eauto|]. exists 0%nat. split; [lia|reflexivity].
Qed.

(** What a decision to update says about the listing. *)
Lemma should_update_price_allows (config : ConfigManager.config) (item : ItemInfo)
    (env : env) (w w' : world) (p : option float) :
  PriceManager.should_update_price config item env w = (Ok (true, p), w') ->
  let new_price := fsub (best_price item) PriceManager.cent in
  p = Some new_price /\ w' = w
  /\ position item <> 1
  /\ fge new_price (current_price item) = false
  /\ forall floor,
       ConfigManager.get_min_price config (market_hash_name item) = Some floor ->
       flt new_price floor = false.
Proof.
  intros H new_price. unfold PriceManager.should_update_price in H. fold new_price in H.
  destruct (Z.eqb_spec (position item) 1) as [|Hpos]; [discriminate|].
  io_unfold.
  destruct (ConfigManager.get_min_price config (market_hash_name item)) as [m|].
  - destruct (flt new_price m) eqn:Hm; cbn [fst snd] in H; [discriminate|].
    destruct (fge new_price (current_price item)); [discriminate|].
    injection H as <- <-. repeat split; auto. intros floor [= <-]. exact Hm.
  - destruct (fge new_price (current_price item)); [discriminate|].
    injection H as <- <-. repeat split; auto. discriminate.
Qed.

Lemma allowed_submission_incl (api_key : string) (config : ConfigManager.config)
    (items items' : list ItemInfo) (req : request) :
  incl items items' ->
  allowed_submission api_key config items req ->
  allowed_submission api_key config items' req.
Proof.
  intros Hincl (item & pf & Hin & H). exists item, pf. split; [apply Hincl; exact Hin|exact H].
Qed.

Lemma Forall_repeat {A : Type} (P : A -> Prop) (a : A) (k : nat) :
  P a -> Forall P (repeat a k).
Proof. intros H. induction k; simpl; constructor; auto. Qed.

(** One listing of a cycle: whatever is sent is a submission the decision
    allows for this listing, and the operator is prompted at most once, and
    not at all when updates are confirmed automatically. *)
Lemma process_item_after (api_key : string) (config : ConfigManager.config)
    (auto_confirm : bool) (item : ItemInfo) (st : stats) (env : env) (w : world) :
  exists r w' evs,
    PriceManager.process_item api_key config auto_confirm item st env w = (r, w')
    /\ after w evs w'
    /\ Forall (allowed_submission api_key config [item]) (gets evs)
    /\ (auto_confirm = true -> prompts evs = [])
    /\ (length (prompts evs) <= 1)%nat.
Proof.
  unfold PriceManager.process_item.
  destruct (position item =? 1) eqn:Hpos.
  { io_unfold. cbn [fst snd]. eexists _, _, _. split; [reflexivity|].
    split; [after_solve|]. simpl. auto. }
  destruct (PriceManager.should_update_price config item env w) as [[[b p]|x] w1] eqn:Hdec.
  2: { rewrite (bind_raise _ _ _ _ _ _ Hdec).
       destruct (should_update_price_cases config item env w) as ([H|H] & _);
         rewrite Hdec in H; discriminate. }
  rewrite (bind_ok _ _ _ _ _ _ Hdec). cbv beta iota.
  destruct b.
  - destruct (should_update_price_allows config item env w w1 p Hdec)
      as (-> & -> & Hne & Hge & Hfloor).
    set (new_price := fsub (best_price item) PriceManager.cent) in *.
    destruct (update_item_price_after api_key item new_price auto_confirm env w)
      as (r & w' & evs & Hrun & Haft & Hp & _ & Hcase).
    assert (Hsub : Forall (allowed_submission api_key config [item]) (gets evs)).
    { destruct (MarketAPI.price_formatted new_price) as [pf|x] eqn:Hpf.
      - destruct Hcase as (_ & k & _ & ->). apply Forall_repeat.
        exists item, pf. split; [left; reflexivity|]. split; [exact Hne|].
        cbv zeta. fold new_price. auto.
      - destruct Hcase as (_ & ->). constructor. }
    assert (Hpr : (auto_confirm = true -> prompts evs = [])
                  /\ (length (prompts evs) <= 1)%nat).
    { rewrite Hp. destruct auto_confirm; simpl; split; auto; discriminate. }
    destruct r as [done|x].
    + rewrite (bind_ok _ _ _ _ _ _ Hrun).
      destruct done; io_unfold; eexists _, w', evs; (split; [reflexivity|]);
        (split; [exact Haft|]); (split; [exact Hsub|exact Hpr]).
    + rewrite (bind_raise _ _ _ _ _ _ Hrun).
      eexists _, w', evs. split; [reflexivity|].
      split; [exact Haft|]. split; [exact Hsub|exact Hpr].
  - destruct (should_update_price_cases config item env w) as (_ & _ & Hh & Hi).
    assert (Haft : exists evs, after w evs w1 /\ gets evs = [] /\ prompts evs = []).
    { revert Hdec. unfold PriceManager.should_update_price. rewrite Hpos. io_unfold.
      destruct (ConfigManager.get_min_price config (market_hash_name item)) as [m|].
      - destruct (flt _ m); cbn [fst snd].
        + intros [= _ <-]. eexists. split; [after_solve|]. auto.
        + destruct (fge _ _); intros [= _ <-]; exists []; (split; [apply after_nil|auto]).
      - destruct (fge _ _); intros [= _ <-]; exists []; (split; [apply after_nil|auto]). }
    destruct Haft as (evs & Haft & Hg & Hp).
    assert (Hend : forall s : stats, exists r w' evs,
              ret s env w1 = (r, w') /\ after w evs w'
              /\ Forall (allowed_submission api_key config [item]) (gets evs)
              /\ (auto_confirm = true -> prompts evs = [])
              /\ (length (prompts evs) <= 1)%nat).
    { intros s. exists (Ok s), w1, evs. split; [reflexivity|]. split; [exact Haft|].
      rewrite Hg, Hp. simpl. auto. }
    destruct (ConfigManager.get_min_price config (market_hash_name item)) as [m|];
      [destruct (truthy m && flt _ m)|]; apply Hend.
Qed.

Lemma process_items_after (api_key : string) (config : ConfigManager.config)
    (auto_confirm : bool) (items : list ItemInfo) (st : stats) (env : env) (w : world) :
  exists r w' evs,
    PriceManager.process_items api_key config auto_confirm items st env w = (r, w')
    /\ after w evs w'
    /\ Forall (allowed_submission api_key config items) (gets evs)
    /\ (auto_confirm = true -> prompts evs = [])
    /\ (length (prompts evs) <= length items)%nat.
Proof.
  revert st w. induction items as [|item rest IH]; intros st w.
  - exists (Ok st), w, []. split; [reflexivity|]. split; [apply after_nil|]. simpl. auto.
  - cbn [PriceManager.process_items].
    destruct (process_item_after api_key config auto_confirm item st env w)
      as (r & w1 & e1 & Hrun & Ha1 & Hs1 & Hp1 & Hl1).
    assert (Hs1' : Forall (allowed_submission api_key config (item :: rest)) (gets e1)).
    { eapply List.Forall_impl; [|exact Hs1]. intros req. apply allowed_submission_incl.
      intros x [<-|[]]. left. reflexivity. }
    destruct r as [st1|x].
    + rewrite (bind_ok _ _ _ _ _ _ Hrun).
      destruct (IH st1 w1) as (r & w' & e2 & Hrun2 & Ha2 & Hs2 & Hp2 & Hl2).
      exists r, w', (e1 ++ e2). split; [exact Hrun2|].
      split; [eapply after_app; eassumption|].
      rewrite gets_app, prompts_app, length_app.
      split; [apply List.Forall_app; split; [exact Hs1'|]|].
      * eapply List.Forall_impl; [|exact Hs2]. intros req. apply allowed_submission_incl.
        intros x Hx. right. exact Hx.
      * split; [|simpl; lia]. intros Hauto. rewrite Hp1, Hp2 by exact Hauto. reflexivity.
    + rewrite (bind_raise _ _ _ _ _ _ Hrun).
      exists (Raise x), w1, e1. split; [reflexivity|]. split; [exact Ha1|].
      split; [exact Hs1'|]. split; [exact Hp1|simpl; lia].
Qed.

(** ** Evaluating the listings: [get_my_items_info] *)

Lemma filter_active_after (all_items active_items : list raw_item) (sold_count : Z)
    (env : env) (w : world) :
  exists n w' evs,
    MarketAPI.filter_active all_items active_items sold_count env w
    = (Ok (active_items
           ++ List.filter (fun item => negb (raw_status item =? 2)) all_items, n), w')
    /\ after w evs w' /\ gets evs = [] /\ prompts evs = [].
Proof.
  revert active_items sold_count w.
  induction all_items as [|item rest IH]; intros active_items sold_count w.
  - exists sold_count, w, []. simpl. rewrite app_nil_r.
    split; [reflexivity|]. split; [apply after_nil|auto].
  - cbn [MarketAPI.filter_active List.filter].
    destruct (negb (raw_status item =? 2)).
    + destruct (IH (active_items ++ [item]) sold_count w) as (n & w' & evs & H & Ha & Hg).
      exists n, w', evs. rewrite H, <- app_assoc. auto.
    + io_unfold.
      match goal with
      | |- context [MarketAPI.filter_active rest active_items ?k _ ?w0] =>
          destruct (IH active_items k w0) as (n & w' & evs & H & Ha & Hg & Hp)
      end.
      exists n, w', ([EvPrint (MsgDebugSkippedSold (raw_market_hash_name item)
                                 (raw_status item))] ++ evs).
      rewrite H. split; [reflexivity|].
      split; [eapply after_app; [|exact Ha]; after_solve|].
      rewrite gets_app, prompts_app, Hg, Hp. auto.
Qed.

(** [get_items_on_sale] never raises and sends nothing but the [items]
    request. *)
Lemma get_items_on_sale_after (api_key : string) (env : env) (w : world) :
  exists r w' evs k,
    MarketAPI.get_items_on_sale api_key env w = (Ok r, w')
    /\ after w evs w'
    /\ gets evs = repeat (items_request api_key) k
    /\ prompts evs = []
    /\ (1 <= k <= 3)%nat.
Proof.
  unfold MarketAPI.get_items_on_sale.
  destruct (make_request_after api_key "items" [("v", PStr "2")] env w)
    as (body & w1 & e1 & k & Hrun & Ha1 & Hg1 & Hp1 & Hk).
  rewrite (bind_ok _ _ _ _ _ _ Hrun). unfold MarketAPI.dict_of.
  rewrite (bind_ok _ _ _ w1 w1 body) by reflexivity.
  change {| endpoint := "items"; params := _ |} with (items_request api_key) in Hg1.
  destruct (resp_success body), (resp_items body) as [all_items|];
    try (exists body, w1, e1, k; split; [reflexivity|auto]; fail).
  io_unfold.
  match goal with
  | |- context [MarketAPI.filter_active all_items [] 0 env ?w0] =>
      destruct (filter_active_after all_items [] 0 env w0) as (n & w2 & e2 & H & Ha2 & Hg2 & Hp2)
  end.
  rewrite H. cbn [app].
  eexists _, _, (e1 ++ [EvPrint (MsgDebugTotal (length all_items))] ++ e2 ++ _), k.
  split; [reflexivity|].
  split; [eapply after_app; [exact Ha1|]; eapply after_app; [|eapply after_app; [exact Ha2|]];
          after_solve|].
  rewrite !gets_app, !prompts_app, Hg1, Hp1, Hg2, Hp2. simpl. rewrite app_nil_r. auto.
Qed.

(** The evaluation of one listing: what is sent is the best-offer request
    for its name; the listing that is produced carries the identifier, the
    name and the price of the raw item, the position that
    [_calculate_position] gives for its two prices, and the half-second
    pause closes the evaluation. *)
Lemma query_item_info_after (api_key : string) (raw : raw_item) (env : env) (w : world) :
  exists r w' evs k,
    PriceManager.query_item_info api_key raw env w = (r, w')
    /\ after w evs w'
    /\ gets evs = repeat (best_offer_request api_key (raw_market_hash_name raw)) k
    /\ prompts evs = []
    /\ (k <= 3)%nat
    /\ forall info, r = Ok info ->
         item_id info = raw_item_id raw
         /\ market_hash_name info = raw_market_hash_name raw
         /\ float_of_jnum (raw_price raw) = Ok (current_price info)
         /\ PriceManager._calculate_position (current_price info) (best_price info)
            = Ok (position info)
         /\ (best_price info = current_price info
             \/ exists first, PriceManager.decode_price first = Ok (best_price info))
         /\ (1 <= k)%nat
         /\ last evs = Some (EvSleep (1 # 2)).
Proof.
  unfold PriceManager.query_item_info.
  unfold bind at 1. unfold lift at 1.
  destruct (float_of_jnum (raw_price raw)) as [cur|x] eqn:Hcur.
  2: { exists (Raise x), w, [], 0%nat. split; [reflexivity|]. split; [apply after_nil|].
       repeat split; auto; try lia; discriminate. }
  set (name := raw_market_hash_name raw).
  rewrite (bind_ok _ _ _ w (snd (print (MsgQuerying name) env w)) tt) by reflexivity.
  pose proof (after_print (MsgQuerying name) env w) as Ha0.
  set (w0 := snd (print (MsgQuerying name) env w)) in *.
  unfold MarketAPI.get_best_offer_for_item.
  destruct (make_request_after api_key "search-item-by-hash-name"
              [("hash_name", PStr name)] env w0)
    as (body & w1 & e1 & k & Hrun & Ha1 & Hg1 & Hp1 & Hk).
  change {| endpoint := _; params := _ |} with (best_offer_request api_key name) in Hg1.
  rewrite (bind_ok _ _ _ _ _ _ Hrun). unfold MarketAPI.dict_of.
  rewrite (bind_ok _ _ _ w1 w1 body) by reflexivity.
  assert (Ha01 : after w ([EvPrint (MsgQuerying name)] ++ e1) w1)
    by (eapply after_app; eassumption).
  (* the best price, or an exception of the decoding *)
  match goal with
  | |- context [bind ?m _ env w1] =>
      assert (Hbest : (exists x, m env w1 = (Raise x, w1))
                      \/ exists best msg,
                           m env w1 = (Ok best, snd (print msg env w1))
                           /\ (best = cur
                               \/ exists first, PriceManager.decode_price first = Ok best))
  end.
  { destruct (resp_success body && negb (bool_decide (resp_data body = []))).
    - destruct (resp_data body) as [|first rest].
      + right. exists cur, MsgNoOffers. split; [reflexivity|auto].
      + unfold bind at 1. unfold lift at 1.
        destruct (PriceManager.decode_price (offer_price first)) as [best|x] eqn:Hdec.
        * right. exists best, (MsgBestPrice best). split; [reflexivity|eauto].
        * left. exists x. reflexivity.
    - right. exists cur, (MsgPricesUnavailable name). split; [reflexivity|auto]. }
  destruct Hbest as [(x & Hb)|(best & msg & Hb & Hsrc)].
  { rewrite (bind_raise _ _ _ _ _ _ Hb).
    exists (Raise x), w1, ([EvPrint (MsgQuerying name)] ++ e1), k.
    split; [reflexivity|]. split; [exact Ha01|].
    rewrite gets_app, prompts_app, Hg1, Hp1. simpl.
    repeat split; auto; try lia; discriminate. }
  rewrite (bind_ok _ _ _ _ _ _ Hb).
  pose proof (after_print msg env w1) as Ha2.
  set (w2 := snd (print msg env w1)) in *.
  assert (Ha02 : after w (([EvPrint (MsgQuerying name)] ++ e1) ++ [EvPrint msg]) w2)
    by (eapply after_app; eassumption).
  unfold bind at 1. unfold lift at 1.
  destruct (PriceManager._calculate_position cur best) as [pos|x] eqn:Hpos.
  2: { exists (Raise x), w2, (([EvPrint (MsgQuerying name)] ++ e1) ++ [EvPrint msg]), k.
       split; [reflexivity|]. split; [exact Ha02|].
       rewrite !gets_app, !prompts_app, Hg1, Hp1. simpl. rewrite app_nil_r.
       repeat split; auto; try lia; discriminate. }
  clear Hb. clearbody w2 w0. io_unfold. cbn [fst snd].
  destruct (pos =? 1);
    eexists (Ok _), _,
      ((([EvPrint (MsgQuerying name)] ++ e1) ++ [EvPrint msg])
       ++ [EvPrint (MsgOurPrice cur); EvPrint _; EvPrint MsgBlank; EvSleep (1 # 2)]), k;
    (split; [reflexivity|]);
    (split; [eapply after_app; [exact Ha02|]; after_solve|]);
    (split; [rewrite !gets_app, Hg1; simpl; rewrite ?app_nil_r; reflexivity|]);
    (split; [rewrite !prompts_app, Hp1; reflexivity|]);
    (split; [lia|]);
    intros info [= <-]; cbn [item_id market_hash_name current_price best_price position];
    (repeat split; auto; try lia);
    rewrite last_app; reflexivity.
Qed.

Lemma get_my_items_info_loop_after (api_key : string) (my_items : list raw_item)
    (items_info : list ItemInfo) (env : env) (w : world) :
  exists r w' evs,
    PriceManager.get_my_items_info_loop api_key my_items items_info env w = (r, w')
    /\ after w evs w'
    /\ Forall (read_request api_key) (gets evs)
    /\ prompts evs = []
    /\ (length (gets evs) <= 3 * length my_items)%nat
    /\ forall l, r = Ok l ->
         exists infos, l = items_info ++ infos /\ Forall2 evaluated my_items infos
                       /\ (length my_items <= length (gets evs))%nat.
Proof.
  revert items_info w. induction my_items as [|raw rest IH]; intros items_info w.
  - exists (Ok items_info), w, []. split; [reflexivity|]. split; [apply after_nil|].
    simpl. split; [constructor|]. split; [reflexivity|]. split; [lia|].
    intros l [= <-]. exists []. rewrite app_nil_r.
    split; [reflexivity|]. split; [constructor|lia].
  - cbn [PriceManager.get_my_items_info_loop].
    destruct (query_item_info_after api_key raw env w)
      as (r & w1 & e1 & k & Hrun & Ha1 & Hg1 & Hp1 & Hk & Hinfo).
    assert (Hr1 : Forall (read_request api_key) (gets e1)).
    { rewrite Hg1. apply Forall_repeat. right. eauto. }
    assert (Hl1 : length (gets e1) = k) by (rewrite Hg1; apply repeat_length).
    destruct r as [info|x].
    + rewrite (bind_ok _ _ _ _ _ _ Hrun).
      destruct (Hinfo info eq_refl) as (H1 & H2 & H3 & H4 & H5 & H6 & _).
      destruct (IH (items_info ++ [info]) w1) as (r & w' & e2 & Hrun2 & Ha2 & Hr2 & Hp2 & Hl2 & Hok).
      exists r, w', (e1 ++ e2). split; [exact Hrun2|].
      split; [eapply after_app; eassumption|].
      rewrite gets_app, prompts_app, length_app, Hp1, Hp2.
      split; [apply List.Forall_app; auto|]. split; [reflexivity|].
      split; [simpl; lia|].
      intros l Hl. destruct (Hok l Hl) as (infos & -> & Hall & Hlen).
      exists (info :: infos). rewrite <- app_assoc. split; [reflexivity|].
      split; [constructor; [unfold evaluated; auto|exact Hall]|simpl; lia].
    + rewrite (bind_raise _ _ _ _ _ _ Hrun).
      exists (Raise x), w1, e1. split; [reflexivity|]. split; [exact Ha1|].
      split; [exact Hr1|]. split; [exact Hp1|]. split; [simpl; lia|discriminate].
Qed.

(** [get_my_items_info]: only the two reading requests are sent, nobody is
    prompted, and the result has one evaluated listing per active item, in
    order; it is empty when the [items] request is refused. *)
Lemma get_my_items_info_after (api_key : string) (env : env) (w : world) :
  exists r w' evs,
    PriceManager.get_my_items_info api_key env w = (r, w')
    /\ after w evs w'
    /\ Forall (read_request api_key) (gets evs)
    /\ prompts evs = []
    /\ exists listing w1,
         MarketAPI.get_items_on_sale api_key env w = (Ok listing, w1)
         /\ forall l, r = Ok l ->
              Forall2 evaluated
                (if resp_success listing then default [] (resp_items listing) else []) l.
Proof.
  unfold PriceManager.get_my_items_info.
  destruct (get_items_on_sale_after api_key env w)
    as (listing & w1 & e1 & k & Hrun & Ha1 & Hg1 & Hp1 & Hk).
  rewrite (bind_ok _ _ _ _ _ _ Hrun).
  assert (Hr1 : Forall (read_request api_key) (gets e1)).
  { rewrite Hg1. apply Forall_repeat. left. reflexivity. }
  destruct (resp_success listing) eqn:Hs; cbn [negb].
  - destruct (default [] (resp_items listing)) as [|raw rest] eqn:Hitems.
    + io_unfold. eexists (Ok []), _, (e1 ++ [EvPrint MsgNoItems]).
      split; [reflexivity|]. split; [eapply after_app; [exact Ha1|]; after_solve|].
      rewrite gets_app, prompts_app, Hp1. simpl. rewrite app_nil_r.
      split; [exact Hr1|]. split; [reflexivity|].
      exists listing, w1. split; [exact Hrun|]. rewrite Hs, Hitems.
      intros l [= <-]. constructor.
    + unfold bind at 1.
      set (w2 := snd (print (MsgFound (length (raw :: rest))) env w1)).
      change (print (MsgFound (length (raw :: rest))) env w1) with (Ok tt, w2).
      cbv iota beta.
      destruct (get_my_items_info_loop_after api_key (raw :: rest) [] env w2)
        as (r & w' & e2 & Hrun2 & Ha2 & Hr2 & Hp2 & _ & Hok).
      exists r, w', (e1 ++ [EvPrint (MsgFound (length (raw :: rest)))] ++ e2).
      split; [exact Hrun2|].
      split; [eapply after_app; [exact Ha1|]; eapply after_app; [|exact Ha2];
              apply after_print|].
      rewrite !gets_app, !prompts_app, Hp1, Hp2. simpl.
      split; [apply List.Forall_app; auto|]. split; [reflexivity|].
      exists listing, w1. split; [exact Hrun|]. rewrite Hs, Hitems.
      intros l Hl. destruct (Hok l Hl) as (infos & -> & Hall & _). exact Hall.
  - io_unfold. eexists (Ok []), _, (e1 ++ [EvPrint _]).
    split; [reflexivity|]. split; [eapply after_app; [exact Ha1|]; after_solve|].
    rewrite gets_app, prompts_app, Hp1. simpl. rewrite app_nil_r.
    split; [exact Hr1|]. split; [reflexivity|].
    exists listing, w1. split; [exact Hrun|]. rewrite Hs. intros l [= <-]. constructor.
Qed.

(** ** What a cycle sends *)

(** X4. Whatever the marketplace and the operator answer, every request
    that [process_items] sends is a price submission that the decision rule
    allows for one of the listings of the list: the listing is not in first
    position, the price sent is the encoding of its best price minus [0.01],
    and that candidate is neither below the floor configured for the
    listing's name nor at or above the listing's current price. *)
Theorem process_items_submissions (api_key : string) (config : ConfigManager.config)
    (auto_confirm : bool) (items : list ItemInfo) (st : stats) (env : env) (w : world) :
  exists evs,
    after w evs (snd (PriceManager.process_items api_key config auto_confirm items st env w))
    /\ Forall (allowed_submission api_key config items) (gets evs).
Proof.
  destruct (process_items_after api_key config auto_confirm items st env w)
    as (r & w' & evs & Hrun & Haft & Hsub & _).
  exists evs. rewrite Hrun. split; [exact Haft|exact Hsub].
Qed.

(** X5. [get_my_items_info] only reads: every request it sends is the
    [items] request or a best-offer request, it never submits a price and
    never prompts the operator. *)
Theorem get_my_items_info_reads_only (api_key : string) (env : env) (w : world) :
  exists evs,
    after w evs (snd (PriceManager.get_my_items_info api_key env w))
    /\ Forall (read_request api_key) (gets evs)
    /\ Forall (fun req => endpoint req <> "set-price") (gets evs)
    /\ prompts evs = [].
Proof.
  destruct (get_my_items_info_after api_key env w)
    as (r & w' & evs & Hrun & Haft & Hread & Hp & _).
  exists evs. rewrite Hrun. split; [exact Haft|]. split; [exact Hread|].
  split; [|exact Hp].
  eapply List.Forall_impl; [|exact Hread].
  intros req [->|(name & ->)]; discriminate.
Qed.

(** X6. When [get_my_items_info] returns, its result has exactly one listing
    per active item of the [items] answer, in the same order, and each
    listing carries the identifier, the name and the price of its item, a
    best price that is its own price or a decoded offer price, and the
    position that [_calculate_position] gives for the two prices; the result
    is empty when the [items] request is refused. *)
Theorem get_my_items_info_evaluated (api_key : string) (env : env) (w : world)
    (l : list ItemInfo) :
  fst (PriceManager.get_my_items_info api_key env w) = Ok l ->
  exists listing w1,
    MarketAPI.get_items_on_sale api_key env w = (Ok listing, w1)
    /\ Forall2 evaluated
         (if resp_success listing then default [] (resp_items listing) else []) l.
Proof.
  intros Hl.
  destruct (get_my_items_info_after api_key env w)
    as (r & w' & evs & Hrun & _ & _ & _ & listing & w1 & Hlist & Hok).
  rewrite Hrun in Hl. cbn [fst] in Hl.
  exists listing, w1. split; [exact Hlist|]. apply Hok. exact Hl.
Qed.

(** X7. A listing that the evaluation produced has a position of at least
    1, which is 1 exactly when its price is at most the best price; and an
    update that is decided for it is strictly below its current price,
    without any assumption on the prices. *)
Theorem evaluated_listing_decision (config : ConfigManager.config) (raw : raw_item)
    (item : ItemInfo) (env : env) (w : world) :
  evaluated raw item ->
  1 <= position item
  /\ (position item = 1 <-> fle (current_price item) (best_price item) = true)
  /\ forall p,
       fst (PriceManager.should_update_price config item env w) = Ok (true, Some p) ->
       p = fsub (best_price item) PriceManager.cent
       /\ flt p (current_price item) = true.
Proof.
  intros (_ & _ & _ & Hpos & _).
  destruct (position_first_iff _ _ _ Hpos) as [Hge Hiff].
  split; [exact Hge|]. split; [exact Hiff|].
  intros p Hdec.
  destruct (PriceManager.should_update_price config item env w) as [r w'] eqn:Hrun.
  cbn [fst] in Hdec. subst r.
  destruct (should_update_price_allows config item env w w' (Some p) Hrun)
    as (Hp & _ & Hne & Hfge & _).
  injection Hp as ->. split; [reflexivity|].
  assert (Hle : fle (current_price item) (best_price item) = false).
  { destruct (fle (current_price item) (best_price item)); [|reflexivity].
    exfalso. apply Hne, Hiff. reflexivity. }
  destruct (position_operands_finite _ _ _ Hle Hpos) as [Hc Hb].
  apply not_fge_flt; [|destruct (current_price item); auto; discriminate|exact Hfge].
  apply candidate_not_nan. destruct (best_price item); auto; discriminate.
Qed.

(** X8. A cycle first reads and then submits: the requests of
    [process_all_items] are the reading requests of the evaluation followed
    by submissions that the decision rule allows for the evaluated listings.
    With automatic confirmation the operator is never prompted; otherwise at
    most once per listing. When the evaluation raises, so does the cycle,
    and nothing is submitted. *)
Theorem process_all_items_requests (api_key : string) (config : ConfigManager.config)
    (auto_confirm : bool) (env : env) (w : world) :
  let run := PriceManager.process_all_items api_key config auto_confirm env w in
  exists evs reads subs,
    after w evs (snd run)
    /\ gets evs = reads ++ subs
    /\ Forall (read_request api_key) reads
    /\ (auto_confirm = true -> prompts evs = [])
    /\ match fst (PriceManager.get_my_items_info api_key env w) with
       | Ok items =>
           Forall (allowed_submission api_key config items) subs
           /\ (length (prompts evs) <= length items)%nat
       | Raise x => fst run = Raise x /\ subs = [] /\ prompts evs = []
       end.
Proof.
  intros run. unfold run, PriceManager.process_all_items.
  destruct (get_my_items_info_after api_key env w)
    as (r & w1 & e1 & Hrun & Ha1 & Hread & Hp1 & _).
  rewrite Hrun. cbn [fst]. destruct r as [items|x].
  - rewrite (bind_ok _ _ _ _ _ _ Hrun).
    match goal with
    | |- context [PriceManager.process_items _ _ _ items ?st env w1] =>
        destruct (process_items_after api_key config auto_confirm items st env w1)
          as (r & w' & e2 & Hrun2 & Ha2 & Hsub & Hp2 & Hl2)
    end.
    rewrite Hrun2. exists (e1 ++ e2), (gets e1), (gets e2).
    split; [eapply after_app; eassumption|]. split; [apply gets_app|].
    split; [exact Hread|]. rewrite prompts_app, Hp1. cbn [app].
    split; [exact Hp2|]. split; [exact Hsub|exact Hl2].
  - rewrite (bind_raise _ _ _ _ _ _ Hrun).
    exists e1, (gets e1), []. split; [exact Ha1|]. split; [symmetry; apply app_nil_r|].
    split; [exact Hread|]. split; [intros _; exact Hp1|]. auto.
Qed.

(** X9. When the [items] request is refused, or lists no active item, the
    cycle ends there: [process_all_items] returns statistics that are all
    zero, after one more console line and no further request. *)
Theorem refused_listing_request_empty_cycle (api_key : string)
    (config : ConfigManager.config) (auto_confirm : bool) (env : env) (w w1 : world)
    (listing : response) :
  MarketAPI.get_items_on_sale api_key env w = (Ok listing, w1) ->
  resp_success listing = false \/ default [] (resp_items listing) = [] ->
  exists m,
    PriceManager.process_all_items api_key config auto_confirm env w
    = (Ok (stats0 0), snd (print m env w1)).
Proof.
  intros Hrun Hcase.
  unfold PriceManager.process_all_items, PriceManager.get_my_items_info.
  unfold bind at 1. unfold bind at 1. rewrite Hrun.
  destruct (resp_success listing); cbn [negb].
  - destruct Hcase as [Hcase|Hcase]; [discriminate|]. rewrite Hcase.
    exists MsgNoItems. reflexivity.
  - eexists. reflexivity.
Qed.

(** X10. An update that the operator does not confirm with [yes], [y] or
    [да] is cancelled before anything is sent: [update_item_price] returns
    [False] after one prompt, without a request, and without having tried to
    encode the price. *)
Theorem declined_update_sends_nothing (api_key : string) (item : ItemInfo)
    (new_price : float) (env : env) (w : world) :
  ~ operator_answer env (input_count w) ∈ ["yes"; "y"; "да"] ->
  let run := PriceManager.update_item_price api_key item new_price false env w in
  fst run = Ok false
  /\ gets (trace (snd run)) = gets (trace w)
  /\ http_count (snd run) = http_count w
  /\ input_count (snd run) = S (input_count w)
  /\ last (prints (trace (snd run))) = Some MsgCancelled.
Proof.
  intros Hno run. unfold run, PriceManager.update_item_price. io_unfold.
  cbn [negb fst snd http_count input_count trace].
  match goal with
  | |- context [bool_decide (?a ∈ _)] => change a with (operator_answer env (input_count w))
  end.
  rewrite bool_decide_eq_false_2 by exact Hno.
  cbn [negb fst snd http_count input_count trace].
  split; [reflexivity|].
  split; [rewrite !gets_app; simpl; rewrite !app_nil_r; reflexivity|].
  split; [reflexivity|]. split; [reflexivity|].
  rewrite prints_app, last_app. reflexivity.
Qed.

(** ** A submission that succeeds *)

(** An attempt that the marketplace accepts ends the loop with [True]. *)
Lemma update_loop_succeeds (api_key : string) (item : ItemInfo) (new_price : float)
    (pf : Z) (env : env) (attempt : Z) (rest : list Z) (w : world) (body : response) :
  MarketAPI.price_formatted new_price = Ok pf ->
  let req := set_price_request api_key (item_id item) pf in
  http_get env (http_count w) req = HttpOk body ->
  resp_success body = true ->
  exists w',
    PriceManager.update_item_price_loop api_key item new_price (attempt :: rest) env w
    = (Ok true, w')
    /\ net (trace w') = net (trace w) ++ [EvGet req]
    /\ last (prints (trace w')) = Some MsgCheckSite
    /\ http_count w' = S (http_count w)
    /\ input_count w' = input_count w.
Proof.
  intros Hpf req Hr Hs.
  cbn [PriceManager.update_item_price_loop].
  set (w0 := snd (when (0 <? attempt)
                    (print (MsgAttempt (attempt + 1) PriceManager.max_retries)) env w)).
  assert (H0 : when (0 <? attempt)
                 (print (MsgAttempt (attempt + 1) PriceManager.max_retries)) env w
               = (Ok tt, w0)) by (unfold w0; destruct (0 <? attempt); reflexivity).
  assert (Hw0 : http_count w0 = http_count w /\ input_count w0 = input_count w
                /\ net (trace w0) = net (trace w)).
  { unfold w0; destruct (0 <? attempt); simpl; rewrite ?net_app; simpl;
      rewrite ?app_nil_r; auto. }
  destruct Hw0 as (Hc0 & Hi0 & Hn0).
  rewrite (bind_ok _ _ _ _ _ _ H0).
  destruct (set_price_answered api_key (item_id item) new_price pf env w0 Hpf)
    as (w1 & Hsp & Hn1 & Hc1 & Hi1).
  { rewrite Hc0. fold req. rewrite Hr. intros e [H|H]; discriminate. }
  rewrite (bind_ok _ _ _ _ _ _ Hsp).
  rewrite Hc0 in Hsp |- *. fold req in Hn1, Hsp |- *. rewrite Hr. cbn [final_response].
  unfold MarketAPI.dict_of. rewrite (bind_ok _ _ _ w1 w1 body) by reflexivity.
  rewrite Hs. io_unfold. eexists. split; [reflexivity|].
  cbn [trace http_count input_count].
  rewrite !net_app, Hn1, Hn0. simpl. rewrite !app_nil_r.
  split; [reflexivity|]. split; [|split; congruence].
  rewrite prints_app, last_app. reflexivity.
Qed.

Section UpdateSucceeds.

Variables (api_key : string) (item : ItemInfo) (new_price : float) (pf : Z).
Variables (auto_confirm : bool) (env : env) (w : world).

Let req : request := set_price_request api_key (item_id item) pf.
Let answer (k : nat) : http_result := http_get env (http_count w + k)%nat req.
Let run := PriceManager.update_item_price api_key item new_price auto_confirm env w.

(** X11. A confirmed submission that the marketplace accepts at its first,
    second or third attempt, after "too often" answers only, returns [True]:
    the request was sent once per attempt with a 10-second wait between two
    attempts, nothing is sent after the accepted attempt, and the last
    console line asks to check the site. *)
Theorem update_item_price_accepted (j : nat) (body : response) :
  MarketAPI.price_formatted new_price = Ok pf ->
  auto_confirm = true \/ operator_answer env (input_count w) ∈ ["yes"; "y"; "да"] ->
  (j < 3)%nat ->
  (forall k, (k < j)%nat -> too_often (answer k)) ->
  answer j = HttpOk body ->
  resp_success body = true ->
  fst run = Ok true
  /\ net (trace (snd run)) = net (trace w) ++ attempts_with_waits (S j) req (10 # 1)
  /\ http_count (snd run) = (http_count w + S j)%nat
  /\ last (prints (trace (snd run))) = Some MsgCheckSite.
Proof.
  intros Hpf Hconf Hj Hk Hr Hs.
  destruct (update_item_price_confirmed api_key item new_price auto_confirm env w Hconf)
    as (w0 & Hrun & Hn0 & Hc0).
  unfold run. rewrite Hrun. change (range PriceManager.max_retries) with [0; 1; 2].
  unfold answer in *. clear Hrun run.
  destruct j as [|[|[|j]]]; [| | |lia].
  - rewrite Nat.add_0_r, <- Hc0 in Hr.
    destruct (update_loop_succeeds api_key item new_price pf env 0 [1; 2] w0 body Hpf Hr Hs)
      as (w3 & E3 & Hn3 & Hl3 & Hc3 & _).
    rewrite E3. cbn [fst snd]. fold req in Hn3.
    rewrite Hn3, Hn0. simpl. repeat split; [lia|exact Hl3].
  - pose proof (Hk 0%nat ltac:(lia)) as H0. rewrite Nat.add_0_r, <- Hc0 in H0.
    destruct (update_loop_waits api_key item new_price pf env Hpf 0 [1; 2] w0 eq_refl H0)
      as (w1 & E1 & Hn1 & Hc1 & _). rewrite E1.
    rewrite Nat.add_1_r, <- Hc0, <- Hc1 in Hr.
    destruct (update_loop_succeeds api_key item new_price pf env 1 [2] w1 body Hpf Hr Hs)
      as (w3 & E3 & Hn3 & Hl3 & Hc3 & _).
    rewrite E3. cbn [fst snd]. fold req in Hn1, Hn3.
    rewrite Hn3, Hn1, Hn0, <- !app_assoc. simpl. repeat split; [lia|exact Hl3].
  - pose proof (Hk 0%nat ltac:(lia)) as H0. rewrite Nat.add_0_r, <- Hc0 in H0.
    destruct (update_loop_waits api_key item new_price pf env Hpf 0 [1; 2] w0 eq_refl H0)
      as (w1 & E1 & Hn1 & Hc1 & _). rewrite E1.
    pose proof (Hk 1%nat ltac:(lia)) as H1. rewrite Nat.add_1_r, <- Hc0, <- Hc1 in H1.
    destruct (update_loop_waits api_key item new_price pf env Hpf 1 [2] w1 eq_refl H1)
      as (w2 & E2 & Hn2 & Hc2 & _). rewrite E2.
    replace (http_count w + 2)%nat with (http_count w2) in Hr by lia.
    destruct (update_loop_succeeds api_key item new_price pf env 2 [] w2 body Hpf Hr Hs)
      as (w3 & E3 & Hn3 & Hl3 & Hc3 & _).
    rewrite E3. cbn [fst snd]. fold req in Hn1, Hn2, Hn3.
    rewrite Hn3, Hn2, Hn1, Hn0, <- !app_assoc. simpl. repeat split; [lia|exact Hl3].
Qed.

End UpdateSucceeds.

(** X1. The decision is a function of the listing and of the configured
    floor only: it does not depend on the network, on the operator or on what
    happened before, and all it does besides is print. *)
Theorem decision_is_pure (config : ConfigManager.config) (item : ItemInfo)
    (env env' : env) (w w' : world) :
  fst (PriceManager.should_update_price config item env w)
  = fst (PriceManager.should_update_price config item env' w')
  /\ exists evs,
       after w evs (snd (PriceManager.should_update_price config item env w))
       /\ Forall (fun ev => exists m, ev = EvPrint m) evs.
Proof.
  unfold PriceManager.should_update_price.
  destruct (position item =? 1).
  { split; [reflexivity|]. exists []. split; [apply after_nil|constructor]. }
  io_unfold.
  set (new_price := fsub (best_price item) PriceManager.cent).
  destruct (ConfigManager.get_min_price config (market_hash_name item)) as [m|];
    try destruct (flt new_price m); cbn [fst snd];
    destruct (fge new_price (current_price item));
    (split; [reflexivity|]);
    try (exists []; split; [apply after_nil|constructor]; fail);
    (eexists [_]; split; [after_solve|]; repeat constructor; eauto).
Qed.

(** ** The statements above at concrete runs *)

Lemma get_my_items_info_evaluated_witness :
  let env := Scenario.market Scenario.three_listings [9500] (HttpOk Scenario.ok_response) in
  exists listing w1,
    MarketAPI.get_items_on_sale "KEY" env world0 = (Ok listing, w1)
    /\ Forall2 evaluated
         (if resp_success listing then default [] (resp_items listing) else [])
         [Scenario.first; Scenario.second; Scenario.third].
Proof.
  cbv zeta.
  apply (get_my_items_info_evaluated "KEY"
           (Scenario.market Scenario.three_listings [9500] (HttpOk Scenario.ok_response))
           world0 [Scenario.first; Scenario.second; Scenario.third]).
  vm_compute. reflexivity.
Defined.

Lemma evaluated_listing_decision_witness :
  let env := Scenario.market Scenario.three_listings [9500] (HttpOk Scenario.ok_response) in
  evaluated (Scenario.listing "2" "M4A4" (literal 1000 2)) Scenario.second
  /\ fst (PriceManager.should_update_price Scenario.no_floor Scenario.second env world0)
     = Ok (true, Some (literal 949 2))
  /\ flt (literal 949 2) (current_price Scenario.second) = true.
Proof.
  cbv zeta.
  assert (He : evaluated (Scenario.listing "2" "M4A4" (literal 1000 2)) Scenario.second).
  { unfold evaluated. split; [reflexivity|]. split; [reflexivity|]. split; [reflexivity|].
    split; [vm_compute; reflexivity|]. right. exists (JInt 9500). vm_compute. reflexivity. }
  assert (Hd : fst (PriceManager.should_update_price Scenario.no_floor Scenario.second
                      (Scenario.market Scenario.three_listings [9500]
                         (HttpOk Scenario.ok_response)) world0)
               = Ok (true, Some (literal 949 2))) by (vm_compute; reflexivity).
  split; [exact He|]. split; [exact Hd|].
  exact (proj2 (proj2 (proj2 (evaluated_listing_decision Scenario.no_floor _ Scenario.second
                                _ world0 He)) (literal 949 2) Hd)).
Defined.

Lemma refused_listing_request_empty_cycle_witness :
  let w1 := snd (MarketAPI.get_items_on_sale "KEY" Scenario.offline world0) in
  exists m,
    PriceManager.process_all_items "KEY" Scenario.config true Scenario.offline world0
    = (Ok (stats0 0), snd (print m Scenario.offline w1)).
Proof.
  cbv zeta.
  apply (refused_listing_request_empty_cycle "KEY" Scenario.config true Scenario.offline
           world0 (snd (MarketAPI.get_items_on_sale "KEY" Scenario.offline world0))
           (MarketAPI.failure "timed out")).
  - vm_compute. reflexivity.
  - left. reflexivity.
Defined.

Lemma declined_update_sends_nothing_witness :
  let env := Scenario.market Scenario.three_listings [9500] (HttpOk Scenario.ok_response) in
  let run := PriceManager.update_item_price "KEY" Scenario.second (literal 949 2) false
               env world0 in
  fst run = Ok false
  /\ gets (trace (snd run)) = []
  /\ http_count (snd run) = 0%nat
  /\ input_count (snd run) = 1%nat
  /\ last (prints (trace (snd run))) = Some MsgCancelled.
Proof.
  cbv zeta.
  apply (declined_update_sends_nothing "KEY" Scenario.second (literal 949 2)
           (Scenario.market Scenario.three_listings [9500] (HttpOk Scenario.ok_response))
           world0).
  apply (proj1 (bool_decide_eq_false _)). vm_compute. reflexivity.
Defined.

Lemma update_item_price_accepted_witness :
  let env := {| http_get := fun n _ =>
                  if Nat.eqb n 0 then HttpOk (Scenario.error_response "too_often")
                  else HttpOk Scenario.ok_response;
                operator_answer := fun _ => "y" |} in
  let req := set_price_request "KEY" "2" 9490 in
  let run := PriceManager.update_item_price "KEY" Scenario.second (literal 949 2) false
               env world0 in
  MarketAPI.price_formatted (literal 949 2) = Ok 9490
  /\ fst run = Ok true
  /\ net (trace (snd run)) = attempts_with_waits 2 req (10 # 1)
  /\ http_count (snd run) = 2%nat
  /\ last (prints (trace (snd run))) = Some MsgCheckSite.
Proof.
  cbv zeta.
  assert (Hpf : MarketAPI.price_formatted (literal 949 2) = Ok 9490)
    by (vm_compute; reflexivity).
  split; [exact Hpf|].
  apply (update_item_price_accepted "KEY" Scenario.second (literal 949 2) 9490 false
           {| http_get := fun n _ =>
                if Nat.eqb n 0 then HttpOk (Scenario.error_response "too_often")
                else HttpOk Scenario.ok_response;
              operator_answer := fun _ => "y" |}
           world0 1%nat Scenario.ok_response Hpf).
  - right. apply (proj1 (bool_decide_eq_true _)). vm_compute. reflexivity.
  - lia.
  - intros k Hk. assert (k = 0%nat) as -> by lia.
    exists (Scenario.error_response "too_often"). repeat split.
  - reflexivity.
  - reflexivity.
Defined.

(** ** The configuration: floors that are set, removed, saved and loaded *)

(** X12. After [set_min_price name price], the floor of [name] is [price],
    the floor of every other name is what it was, and so are the API key and
    the check interval. *)
Theorem set_min_price_lookup (name : string) (price : float) (m : ConfigFile.manager) :
  let m' := ConfigFile.set_min_price name price m in
  ConfigFile.get_min_price m' name = Some price
  /\ (forall other, other <> name ->
        ConfigFile.get_min_price m' other = ConfigFile.get_min_price m other)
  /\ ConfigFile.get_api_key m' = ConfigFile.get_api_key m
  /\ ConfigFile.get_check_interval m' = ConfigFile.get_check_interval m.
Proof.
  intros m'. unfold m', ConfigFile.set_min_price, ConfigFile.get_min_price,
    ConfigFile.get_api_key, ConfigFile.get_check_interval, ConfigManager.get_min_price,
    ConfigManager.get_api_key, ConfigManager.get_check_interval, ConfigFile.view.
  destruct m as [[k i [prices|]] w]; simpl.
  - split; [apply lookup_insert_eq|]. split; [|auto].
    intros other Hne. apply lookup_insert_ne. congruence.
  - split; [apply lookup_insert_eq|]. split; [|auto].
    intros other Hne. apply lookup_insert_ne. congruence.
Qed.


(** X14. After [remove_min_price name] there is no floor for [name], and the
    floor of every other name, the API key and the check interval are what
    they were. When there was no floor for [name], nothing happens at all:
    the dictionary is not changed, the file is not rewritten and nothing is
    printed. When there was one and the file can be written, the file holds
    the new dictionary. *)
Theorem remove_min_price_lookup (name : string) (m : ConfigFile.manager) :
  let m' := ConfigFile.remove_min_price name m in
  ConfigFile.get_min_price m' name = None
  /\ (forall other, other <> name ->
        ConfigFile.get_min_price m' other = ConfigFile.get_min_price m other)
  /\ ConfigFile.get_api_key m' = ConfigFile.get_api_key m
  /\ ConfigFile.get_check_interval m' = ConfigFile.get_check_interval m
  /\ (ConfigFile.get_min_price m name = None -> m' = m)
  /\ (ConfigFile.get_min_price m name <> None ->
      ConfigFile.writable (ConfigFile.outside m) = true ->
      ConfigFile.file (ConfigFile.outside m') = Some (Some (ConfigFile.config m'))).
Proof.
  intros m'. unfold m', ConfigFile.remove_min_price, ConfigFile.get_min_price,
    ConfigFile.get_api_key, ConfigFile.get_check_interval, ConfigManager.get_min_price,
    ConfigManager.get_api_key, ConfigManager.get_check_interval, ConfigFile.view.
  destruct m as [[k i [prices|]] w]; simpl.
  - destruct (bool_decide (is_Some (prices !! name))) eqn:Hin; simpl.
    + split; [apply lookup_delete_eq|].
      split; [intros other Hne; apply lookup_delete_ne; congruence|].
      split; [reflexivity|]. split; [reflexivity|].
      split.
      * intros Hnone. apply bool_decide_eq_true_1 in Hin. rewrite Hnone in Hin.
        destruct Hin as [x Hx]. discriminate.
      * intros _ Hw. unfold ConfigFile._save_config. rewrite Hw. reflexivity.
    + apply bool_decide_eq_false_1 in Hin.
      split; [apply eq_None_not_Some; exact Hin|]. repeat split; auto.
      intros Hsome. exfalso. apply Hin. destruct (prices !! name); [eauto|congruence].
  - split; [apply lookup_empty|]. repeat split; auto.
    intros Hsome. exfalso. apply Hsome. apply lookup_empty.
Qed.


(** X16. A [ConfigManager] for a file that cannot be read or parsed has the
    empty dictionary: the getters answer an empty API key, a check interval
    of 30 and no floor; the failure is printed and the file is left as it
    is. The first floor that is set afterwards replaces a writable file by a
    dictionary that holds this floor and nothing else. *)
Theorem load_unreadable_file (w : ConfigFile.store) :
  ConfigFile.file w = Some None ->
  let m := ConfigFile.init w in
  ConfigFile.config m = ConfigFile.empty
  /\ ConfigFile.get_api_key m = ""
  /\ ConfigFile.get_check_interval m = 30
  /\ (forall name, ConfigFile.get_min_price m name = None)
  /\ ConfigFile.file (ConfigFile.outside m) = Some None
  /\ ConfigFile.console (ConfigFile.outside m) = ConfigFile.console w ++ [ConfigFile.LoadError]
  /\ forall name price,
       ConfigFile.writable w = true ->
       ConfigFile.file (ConfigFile.outside (ConfigFile.set_min_price name price m))
       = Some (Some {| ConfigFile.api_key := None;
                       ConfigFile.check_interval := None;
                       ConfigFile.min_prices := Some {[ name := price ]} |}).
Proof.
  intros Hf m. unfold m, ConfigFile.init, ConfigFile._load_config. rewrite Hf.
  cbn [ConfigFile.config ConfigFile.outside].
  split; [reflexivity|]. split; [reflexivity|]. split; [reflexivity|].
  split; [intros name; unfold ConfigFile.get_min_price, ConfigManager.get_min_price;
          simpl; apply lookup_empty|].
  split; [exact Hf|]. split; [reflexivity|].
  intros name price Hw.
  unfold ConfigFile.set_min_price, ConfigFile._save_config. simpl. rewrite Hw.
  simpl. rewrite insert_empty. reflexivity.
Qed.


Lemma remove_min_price_lookup_witness :
  let w := {| ConfigFile.file := Some (Some ConfigFile.default_config);
              ConfigFile.writable := true; ConfigFile.console := [] |} in
  let m := ConfigFile.set_min_price "AWP" (literal 950 2) (ConfigFile.init w) in
  ConfigFile.get_min_price m "AK-47" = None
  /\ ConfigFile.remove_min_price "AK-47" m = m.
Proof.
  cbv zeta.
  assert (H : ConfigFile.get_min_price
                (ConfigFile.set_min_price "AWP" (literal 950 2)
                   (ConfigFile.init
                      {| ConfigFile.file := Some (Some ConfigFile.default_config);
                         ConfigFile.writable := true; ConfigFile.console := [] |}))
                "AK-47" = None) by (vm_compute; reflexivity).
  split; [exact H|].
  exact (proj1 (proj2 (proj2 (proj2 (proj2 (remove_min_price_lookup "AK-47" _))))) H).
Defined.


Lemma load_unreadable_file_witness :
  let w := {| ConfigFile.file := Some None; ConfigFile.writable := true;
              ConfigFile.console := [] |} in
  ConfigFile.get_api_key (ConfigFile.init w) = ""
  /\ ConfigFile.file (ConfigFile.outside
                        (ConfigFile.set_min_price "AWP" (literal 950 2) (ConfigFile.init w)))
     = Some (Some {| ConfigFile.api_key := None;
                     ConfigFile.check_interval := None;
                     ConfigFile.min_prices := Some {[ "AWP" := literal 950 2 ]} |}).
Proof.
  cbv zeta.
  destruct (load_unreadable_file {| ConfigFile.file := Some None; ConfigFile.writable := true;
                                    ConfigFile.console := [] |} eq_refl)
    as (_ & H1 & _ & _ & _ & _ & H2).
  split; [exact H1|]. exact (H2 "AWP" (literal 950 2) eq_refl).
Defined.

(** ** The mantissa of a rounded float has at most [prec] digits *)

Section Bounded.

Variables prec emax : Z.
Hypothesis Hprec : 0 < prec.

Local Abbreviation emin := (emin prec emax).
Local Abbreviation fexp := (fexp prec emax).
Local Abbreviation Sc := (scale prec emax).

Lemma shr_fexp_digits (m2 E : Z) (m : positive) :
  0 <= m2 ->
  shr_m (fst (shr_fexp prec emax m2 E loc_Exact)) = Z.pos m ->
  Z.pos (digits2_pos m) <= prec.
Proof.
  intros Hm2 Hm. unfold shr_fexp in Hm.
  set (n := fexp (Zdigits2 m2 + E) - E) in *.
  assert (HR : Repr m2 1 m2 loc_Exact).
  { split; [rewrite Z.div_1_r; reflexivity|rewrite Z.mod_1_r; reflexivity]. }
  pose proof (shr_repr m2 1 (shr_record_of_loc m2 loc_Exact) E n Hm2 ltac:(lia)) as H.
  rewrite shr_m_of_loc, loc_of_shr_record_of_loc in H.
  destruct (H HR) as [[Hq _] _]. rewrite Z.mul_1_l, Hm in Hq.
  assert (Hpos : 0 < m2).
  { destruct (Z.eq_dec m2 0) as [->|]; [|lia]. rewrite Z.div_0_l in Hq; [lia|].
    apply Z.pow_nonzero; lia. }
  destruct (Zdigits2_bounds m2 Hpos) as (Hd & Hb).
  change (Z.pos (digits2_pos m)) with (Zdigits2 (Z.pos m)). rewrite Hq.
  destruct (Z.le_gt_cases n 0) as [Hn|Hn].
  - rewrite Z.max_l by lia. simpl. rewrite Z.div_1_r.
    unfold n, SpecFloat.fexp in Hn. lia.
  - rewrite Z.max_r in * by lia.
    destruct (Z.lt_ge_cases n (Zdigits2 m2)) as [Hlt|Hge].
    + rewrite Zdigits2_shiftr by lia. unfold n, SpecFloat.fexp. lia.
    + assert (2 ^ Zdigits2 m2 <= 2 ^ n) by (apply Z.pow_le_mono_r; lia).
      rewrite Z.div_small in Hq by lia. lia.
Qed.

Lemma binary_round_aux_bounded (sx s : bool) (m0 e0 : Z) (l0 : location)
    (m : positive) (e : Z) :
  0 <= m0 ->
  binary_round_aux prec emax sx m0 e0 l0 = S754_finite s m e ->
  Z.pos (digits2_pos m) <= prec.
Proof.
  intros Hm0. unfold binary_round_aux.
  pose proof (shr_fexp_nonneg prec emax m0 e0 l0 Hm0) as H1.
  destruct (shr_fexp prec emax m0 e0 l0) as [mrs' e']. cbn [fst] in H1.
  pose proof (round_nearest_even_nonneg _ (loc_of_shr_record mrs') H1) as H2.
  pose proof (fun p => shr_fexp_digits (round_nearest_even (shr_m mrs') (loc_of_shr_record mrs'))
                         e' p H2) as H3.
  destruct (shr_fexp prec emax _ e' loc_Exact) as [mrs'' e'']. cbn [fst] in H3.
  destruct (shr_m mrs'') as [|p|p]; try discriminate.
  destruct (e'' <=? emax - prec); [|discriminate].
  intros [= _ <- _]. apply H3. reflexivity.
Qed.

Lemma binary_round_bounded (sx s : bool) (mx : positive) (ex : Z) (m : positive) (e : Z) :
  binary_round prec emax sx mx ex = S754_finite s m e ->
  Z.pos (digits2_pos m) <= prec.
Proof.
  unfold binary_round. destruct (shl_align mx ex _) as [mz ez].
  apply binary_round_aux_bounded. lia.
Qed.

Lemma binary_normalize_bounded (m0 e0 : Z) (szero s : bool) (m : positive) (e : Z) :
  binary_normalize prec emax m0 e0 szero = S754_finite s m e ->
  Z.pos (digits2_pos m) <= prec.
Proof.
  unfold binary_normalize. destruct m0 as [|p|p]; [discriminate| |];
    apply binary_round_bounded.
Qed.

(** A value of at least [2^b] units with a mantissa below [2^a] has an
    exponent above [emin + b - a]. *)
Lemma exponent_lower (m : positive) (e a b : Z) :
  emin <= e -> 0 <= a <= b ->
  Z.pos m < 2 ^ a -> 2 ^ b <= Z.pos m * Sc e ->
  emin + b - a < e.
Proof.
  intros He Hab Hm Hv.
  destruct (Z.lt_ge_cases (emin + b - a) e) as [H|H]; [exact H|].
  assert (Sc e <= 2 ^ (b - a)) by (unfold scale; apply Z.pow_le_mono_r; lia).
  assert (0 < Sc e) by (apply scale_pos; lia).
  assert (2 ^ b = 2 ^ a * 2 ^ (b - a)).
  { rewrite <- Z.pow_add_r by lia. f_equal. lia. }
  nia.
Qed.

End Bounded.

(** ** The error of one rounding *)

Section RoundError.

Variables prec emax : Z.
Hypothesis Hprec : 0 < prec.

Local Abbreviation emin := (emin prec emax).
Local Abbreviation fexp := (fexp prec emax).
Local Abbreviation Sc := (scale prec emax).

(** Rounding at exponent [E] moves a quotient by at most half a unit of
    [2^E]. *)
Lemma rnd_at_error (A B E : Z) :
  0 <= A -> 0 < B -> emin <= E ->
  let R := rnd_at prec emax A B E * B in
  2 * R <= 2 * A + B * Sc E /\ 2 * A <= 2 * R + B * Sc E.
Proof.
  intros HA HB HE R. unfold R, rnd_at. cbv zeta.
  pose proof (scale_pos prec emax E HE) as HS.
  set (P := B * Sc E). assert (HP : 0 < P) by (unfold P; nia).
  pose proof (Z.div_mod A P ltac:(lia)) as Hdm.
  pose proof (Z.mod_pos_bound A P HP) as Hr.
  set (q := A / P) in *. set (r := A mod P) in *.
  assert (Hval : forall k, k * Sc E * B = k * P) by (intros k; unfold P; lia).
  rewrite Hval. unfold loc_of_rem, round_nearest_even.
  destruct (Z.eqb_spec r 0) as [Hz|Hnz]; [nia|].
  destruct (Z.compare_spec (2 * r) P) as [C|C|C]; try destruct (Z.even q); nia.
Qed.

(** In the normal range, one rounding moves a quotient by at most
    [2^-prec] of itself. *)
Lemma rnd_error (A B : Z) :
  0 < B -> B * 2 ^ prec <= A ->
  let R := rnd prec emax A B * B in
  2 ^ prec * R <= 2 ^ prec * A + A /\ 2 ^ prec * A <= 2 ^ prec * R + A.
Proof.
  intros HB HA R. unfold R, rnd. clear R.
  assert (Hpp : 0 < 2 ^ prec) by (apply Z.pow_pos_nonneg; lia).
  assert (HA0 : 0 <= A) by nia.
  assert (Hq : 2 ^ prec <= A / B) by (apply Z.div_le_lower_bound; lia).
  destruct (Zdigits2_bounds (A / B) ltac:(lia)) as (Hd & Hb).
  set (d := Zdigits2 (A / B)) in *.
  assert (Hdp : prec < d).
  { destruct (Z.lt_ge_cases prec d) as [H|H]; [exact H|].
    assert (2 ^ d <= 2 ^ prec) by (apply Z.pow_le_mono_r; lia). lia. }
  unfold mag. fold d.
  assert (HE : fexp (d + emin) = d - prec + emin) by (unfold SpecFloat.fexp; lia).
  rewrite HE.
  destruct (rnd_at_error A B (d - prec + emin) HA0 HB ltac:(lia)) as [H1 H2].
  set (R := rnd_at prec emax A B (d - prec + emin) * B) in *.
  assert (HS : Sc (d - prec + emin) = 2 ^ (d - prec)) by (unfold scale; f_equal; lia).
  rewrite HS in H1, H2.
  assert (Hlow : 2 ^ (d - 1) * B <= A).
  { pose proof (Z.mul_div_le A B HB). nia. }
  assert (Hsplit : 2 ^ (d - 1) = 2 ^ (d - prec) * 2 ^ (prec - 1)).
  { rewrite <- Z.pow_add_r by lia. f_equal. lia. }
  assert (Hp2 : 2 ^ prec = 2 * 2 ^ (prec - 1)).
  { replace prec with (Z.succ (prec - 1)) at 1 by lia. apply Z.pow_succ_r. lia. }
  assert (0 < 2 ^ (prec - 1)) by (apply Z.pow_pos_nonneg; lia).
  assert (0 < 2 ^ (d - prec)) by (apply Z.pow_pos_nonneg; lia).
  set (h := 2 ^ (prec - 1)) in *. set (u := 2 ^ (d - prec)) in *.
  rewrite Hsplit in Hlow. rewrite Hp2.
  assert (B * u * h <= A) by lia.
  split; nia.
Qed.

(** A mantissa of at most [prec] digits is not rounded. *)
Lemma rnd_small (p : positive) (e : Z) :
  emin <= e -> Z.pos (digits2_pos p) <= prec ->
  rnd prec emax (Z.pos p * Sc e) 1 = Z.pos p * Sc e.
Proof.
  intros He Hd. unfold rnd. rewrite mag_int by exact He.
  set (E := fexp (Z.pos (digits2_pos p) + e)).
  assert (HE : emin <= E <= e) by (unfold E, SpecFloat.fexp; lia).
  unfold rnd_at. cbv zeta. rewrite Z.mul_1_l.
  pose proof (scale_pos prec emax E ltac:(lia)) as HS.
  assert (Hs : Sc e = 2 ^ (e - E) * Sc E).
  { unfold scale. rewrite <- Z.pow_add_r by lia. f_equal. lia. }
  rewrite Hs, Z.mul_assoc, Z.div_mul, Z.mod_mul by lia. reflexivity.
Qed.

End RoundError.

(** ** A rounded float is valid *)

Section Canonical.

Variables prec emax : Z.
Hypothesis Hprec : 0 < prec.

Local Abbreviation emin := (emin prec emax).
Local Abbreviation fexp := (fexp prec emax).
Local Abbreviation Sc := (scale prec emax).

Lemma binary_round_aux_canonical (sx : bool) (A B m0 e0 : Z) (l0 : location)
    (m : positive) (e : Z) :
  0 <= A -> 0 < B -> emin <= e0 -> 1 <= m0 ->
  Repr A (B * Sc e0) m0 l0 ->
  e0 <= fexp (Zdigits2 m0 + e0) ->
  binary_round_aux prec emax sx m0 e0 l0 = S754_finite sx m e ->
  bounded prec emax m e = true.
Proof.
  intros HA HB He0 Hm0 HR Hprecise.
  set (E := fexp (Zdigits2 m0 + e0)) in *.
  assert (HE : emin <= E) by apply fexp_ge_emin.
  destruct (Zdigits2_bounds m0 ltac:(lia)) as (Hd0 & Hb0).
  assert (HEd : E < Zdigits2 m0 + e0) by (apply fexp_lt; lia).
  unfold binary_round_aux, shr_fexp. fold E.
  assert (HP0 : 0 < B * Sc e0) by (apply Z.mul_pos_pos; [lia|apply scale_pos; lia]).
  pose proof (shr_repr A (B * Sc e0) (shr_record_of_loc m0 l0) e0 (E - e0) HA HP0) as H1.
  rewrite shr_m_of_loc, loc_of_shr_record_of_loc in H1. specialize (H1 HR).
  rewrite Z.max_r in H1 by lia.
  destruct (shr (shr_record_of_loc m0 l0) e0 (E - e0)) as [mrs1 e1].
  cbn [fst snd] in H1. destruct H1 as [[Hm1 Hl1] He1].
  replace (e0 + (E - e0)) with E in He1 by lia. subst e1.
  assert (HPE : B * Sc e0 * 2 ^ (E - e0) = B * Sc E).
  { rewrite <- Z.mul_assoc. f_equal. rewrite <- scale_add by lia. f_equal. lia. }
  rewrite HPE in Hm1, Hl1.
  assert (Hm1' : shr_m mrs1 = m0 / 2 ^ (E - e0)).
  { rewrite Hm1, <- HPE. destruct HR as [-> _].
    rewrite Z.div_div; [reflexivity|lia|apply Z.pow_pos_nonneg; lia]. }
  assert (Hd1 : Zdigits2 (shr_m mrs1) = Zdigits2 m0 - (E - e0)).
  { rewrite Hm1'. apply Zdigits2_shiftr; lia. }
  set (m1 := shr_m mrs1) in *.
  assert (Hm1pos : 1 <= m1).
  { destruct (Z.le_gt_cases 1 m1) as [H|H]; [exact H|].
    assert (0 <= m1) by (rewrite Hm1'; apply Z.div_pos; [lia|apply Z.pow_pos_nonneg; lia]).
    assert (m1 = 0) by lia. rewrite H1 in Hd1. simpl in Hd1. lia. }
  destruct (Zdigits2_bounds m1 ltac:(lia)) as (Hd1pos & Hb1).
  set (m2 := round_nearest_even m1 (loc_of_shr_record mrs1)).
  assert (Hm2 : m1 <= m2 <= m1 + 1) by apply round_nearest_even_range.
  pose proof (shr_repr m2 1 (shr_record_of_loc m2 loc_Exact) E
                (fexp (Zdigits2 m2 + E) - E) ltac:(lia) ltac:(lia)) as H2.
  rewrite shr_m_of_loc, loc_of_shr_record_of_loc in H2.
  assert (HR2 : Repr m2 1 m2 loc_Exact).
  { split; [rewrite Z.div_1_r; reflexivity|rewrite Z.mod_1_r; reflexivity]. }
  specialize (H2 HR2).
  destruct (shr (shr_record_of_loc m2 loc_Exact) E (fexp (Zdigits2 m2 + E) - E))
    as [mrs3 e3].
  cbn [fst snd] in H2. destruct H2 as [[Hm3 _] He3]. rewrite Z.mul_1_l in Hm3.
  set (n2 := Z.max 0 (fexp (Zdigits2 m2 + E) - E)) in *.
  assert (Hn2 : 0 <= n2) by (unfold n2; lia).
  assert (Hdm : Zdigits2 m1 <= Zdigits2 m2) by (apply Zdigits2_mono; lia).
  assert (Hlow : E <= fexp (Zdigits2 m2 + E)).
  { replace E with (fexp (Zdigits2 m1 + E)) at 1
      by (replace (Zdigits2 m1 + E) with (Zdigits2 m0 + e0) by lia; reflexivity).
    apply fexp_mono. lia. }
  assert (Hcan : 0 < shr_m mrs3 -> fexp (Zdigits2 (shr_m mrs3) + e3) = e3).
  { intros Hpos. destruct (Z.eq_dec n2 0) as [Hz|Hnz].
    - rewrite Hm3, He3, Hz. simpl. rewrite Z.div_1_r, Z.add_0_r. unfold n2 in Hz. lia.
    - assert (Hfe : E < fexp (Zdigits2 m2 + E)) by (unfold n2 in *; lia).
      assert (Hdd : Zdigits2 m1 < Zdigits2 m2).
      { destruct (Z.lt_ge_cases (Zdigits2 m1) (Zdigits2 m2)) as [H|H]; [exact H|].
        assert (fexp (Zdigits2 m2 + E) <= fexp (Zdigits2 m1 + E)) by (apply fexp_mono; lia).
        replace (Zdigits2 m1 + E) with (Zdigits2 m0 + e0) in H0 by lia. fold E in H0. lia. }
      destruct (Zdigits2_bounds m2 ltac:(lia)) as (Hd2pos & Hb2).
      assert (Hpow : 2 ^ Zdigits2 m1 <= 2 ^ (Zdigits2 m2 - 1))
        by (apply Z.pow_le_mono_r; lia).
      assert (Hm2eq : m2 = 2 ^ Zdigits2 m1) by lia.
      assert (Hd2 : Zdigits2 m2 = Zdigits2 m1 + 1).
      { apply Zdigits2_unique; [|lia]. replace (Zdigits2 m1 + 1 - 1) with (Zdigits2 m1) by lia.
        rewrite Hm2eq. split; [lia|]. apply Z.pow_lt_mono_r; lia. }
      assert (Hn21 : n2 = 1).
      { pose proof (fexp_succ prec emax (Zdigits2 m1 + E)) as Hs.
        replace (Zdigits2 m1 + E + 1) with (Zdigits2 m2 + E) in Hs by lia.
        replace (Zdigits2 m1 + E) with (Zdigits2 m0 + e0) in Hs by lia. fold E in Hs.
        unfold n2. lia. }
      assert (Hd3 : Zdigits2 (shr_m mrs3) = Zdigits2 m2 - 1).
      { rewrite Hm3, Hn21. apply Zdigits2_shiftr; lia. }
      rewrite Hd3, He3, Hn21.
      replace (Zdigits2 m2 - 1 + (E + 1)) with (Zdigits2 m2 + E) by lia.
      unfold n2 in Hn21. lia. }
  destruct (shr_m mrs3) as [|m3|m3] eqn:Em3; try discriminate.
  destruct (Z.leb_spec e3 (emax - prec)) as [Hle|Hgt]; [|discriminate].
  intros [= <- <-]. unfold bounded, canonical_mantissa.
  apply andb_true_iff. split.
  - apply Z.eqb_eq. apply (Hcan ltac:(lia)).
  - apply Z.leb_le. exact Hle.
Qed.

End Canonical.

(** ** Differences, quotients and products of positive floats *)

Section Arithmetic.

Variables prec emax : Z.
Hypothesis Hprec : 0 < prec.

Local Abbreviation emin := (emin prec emax).
Local Abbreviation fexp := (fexp prec emax).
Local Abbreviation Sc := (scale prec emax).

(** The difference of two positive floats, the first the larger, whatever
    their mantissas. *)
Lemma SFsub_positive (mc : positive) (ec : Z) (mb : positive) (eb : Z) :
  emin <= ec -> emin <= eb ->
  Z.pos mb * Sc eb < Z.pos mc * Sc ec ->
  let D := Z.pos mc * Sc ec - Z.pos mb * Sc eb in
  let d := SFsub prec emax (S754_finite false mc ec) (S754_finite false mb eb) in
  (d = S754_infinity false /\ Sc (emax - prec + 1) <= rnd prec emax D 1)
  \/ exists m e,
      d = S754_finite false m e
      /\ emin <= e
      /\ Z.pos (digits2_pos m) <= prec
      /\ Z.pos m * Sc e = rnd prec emax D 1.
Proof.
  intros Hec Heb Hlt D d. unfold d, D. clear d D.
  cbn [SFsub cond_Zopp]. set (ez := Z.min ec eb).
  destruct (shl_align_spec mc ec ez) as [_ Hmc].
  destruct (shl_align_spec mb eb ez) as [_ Hmb].
  rewrite Z.min_r in Hmc by (unfold ez; lia).
  rewrite Z.min_r in Hmb by (unfold ez; lia).
  set (M := Z.pos (fst (shl_align mc ec ez)) - Z.pos (fst (shl_align mb eb ez))).
  assert (Hez : emin <= ez) by (unfold ez; lia).
  pose proof (scale_pos prec emax ez Hez) as HS.
  assert (Hsc : forall m e, ez <= e -> Z.pos m * 2 ^ (e - ez) * Sc ez = Z.pos m * Sc e).
  { intros m e Hle. unfold scale. rewrite <- Z.mul_assoc, <- Z.pow_add_r by lia.
    do 2 f_equal. lia. }
  assert (HM : M * Sc ez = Z.pos mc * Sc ec - Z.pos mb * Sc eb).
  { unfold M. rewrite Hmc, Hmb.
    rewrite <- (Hsc mc ec), <- (Hsc mb eb) by (unfold ez; lia). lia. }
  rewrite <- HM.
  assert (HMpos : 0 < M) by nia.
  destruct M as [|p|p] eqn:EM; try lia.
  cbn [binary_normalize].
  destruct (binary_round_value prec emax Hprec false p ez Hez) as [H|(m & e & H1 & H2 & H3)].
  - left. exact H.
  - right. exists m, e. split; [exact H1|]. split; [exact H2|]. split; [|exact H3].
    exact (binary_round_bounded prec emax false false p ez m e H1).
Qed.

(** The quotient of two positive floats, the divisor with an exponent of at
    most zero and the quotient in the normal range. *)
Lemma SFdiv_positive (md : positive) (ed : Z) (my : positive) (ey : Z) :
  emin <= ed -> ey <= 0 ->
  Z.pos (digits2_pos md) <= prec ->
  Z.pos (digits2_pos my) - Z.pos (digits2_pos md) + 1 <= ed - ey - emin ->
  let A := Z.pos md * Sc ed * 2 ^ (- ey) in
  let q := SFdiv prec emax (S754_finite false md ed) (S754_finite false my ey) in
  (q = S754_infinity false /\ Sc (emax - prec + 1) <= rnd prec emax A (Z.pos my))
  \/ exists m e,
      q = S754_finite false m e
      /\ emin <= e
      /\ Z.pos (digits2_pos m) <= prec
      /\ bounded prec emax m e = true
      /\ Z.pos m * Sc e = rnd prec emax A (Z.pos my).
Proof.
  intros Hed Hy Hdp Hnorm A q. unfold q, SFdiv, SFdiv_core_binary. clear q.
  cbn [Zdigits2 xorb].
  set (d1 := Z.pos (digits2_pos md)) in *. set (d2 := Z.pos (digits2_pos my)) in *.
  set (g := d1 + ed - (d2 + ey)).
  set (e' := Z.min (fexp g) (ed - ey)).
  set (s := ed - ey - e').
  pose proof (fexp_ge_emin prec emax g) as Hfg.
  assert (Hd1 : 1 <= d1) by (unfold d1; lia).
  assert (Hd2 : 1 <= d2) by (unfold d2; lia).
  assert (He' : emin <= e') by (unfold e'; lia).
  assert (Hs : 0 <= s) by (unfold s, e'; lia).
  assert (Hs2 : d2 - d1 + 1 <= s).
  { unfold s, e'. unfold SpecFloat.fexp in *. fold emin in *. unfold g. lia. }
  set (m' := match s with Z.pos _ => Z.shiftl (Z.pos md) s | 0 => Z.pos md | Z.neg _ => 0 end).
  assert (Hm' : m' = Z.pos md * 2 ^ s).
  { unfold m'. destruct s as [|p|p] eqn:Es; [simpl; lia| |lia].
    rewrite Z.shiftl_mul_pow2 by lia. reflexivity. }
  pose proof (digits2_pos_bounds md) as Hbd. fold d1 in Hbd.
  pose proof (digits2_pos_bounds my) as Hby. fold d2 in Hby.
  pose proof (Z.mod_pos_bound m' (Z.pos my) ltac:(lia)) as Hrb.
  assert (Hdm : Z.div_eucl m' (Z.pos my) = (m' / Z.pos my, m' mod Z.pos my)).
  { unfold Z.div, Z.modulo. destruct (Z.div_eucl m' (Z.pos my)). reflexivity. }
  rewrite Hdm.
  set (qm := m' / Z.pos my) in *. set (r := m' mod Z.pos my) in *.
  rewrite new_location_spec by lia.
  pose proof (scale_pos prec emax e' He') as HS.
  assert (HA : A = m' * Sc e').
  { unfold A. rewrite Hm'. unfold scale. rewrite <- !Z.mul_assoc, <- !Z.pow_add_r by lia.
    do 2 f_equal. unfold s. lia. }
  assert (Hpow : 2 ^ (d1 - 1 + s) = 2 ^ (d1 + s - d2 - 1) * 2 ^ d2).
  { rewrite <- Z.pow_add_r by lia. f_equal. lia. }
  assert (Hqlow : 2 ^ (d1 + s - d2 - 1) <= qm).
  { unfold qm. apply Z.div_le_lower_bound; [lia|].
    assert (0 < 2 ^ (d1 + s - d2 - 1)) by (apply Z.pow_pos_nonneg; lia).
    assert (2 ^ (d1 - 1 + s) <= m').
    { rewrite Hm', Z.pow_add_r by lia.
      apply Z.mul_le_mono_nonneg_r; [apply Z.pow_nonneg|]; lia. }
    nia. }
  assert (Hq1 : 1 <= qm).
  { assert (0 < 2 ^ (d1 + s - d2 - 1)) by (apply Z.pow_pos_nonneg; lia). lia. }
  assert (Hdq : d1 + s - d2 <= Zdigits2 qm).
  { destruct (Zdigits2_bounds qm ltac:(lia)) as (Hdq & Hbq).
    destruct (Z.le_gt_cases (d1 + s - d2) (Zdigits2 qm)) as [H|H]; [exact H|].
    assert (2 ^ Zdigits2 qm <= 2 ^ (d1 + s - d2 - 1)) by (apply Z.pow_le_mono_r; lia). lia. }
  assert (HR : Repr A (Z.pos my * Sc e') qm (loc_of_rem r (Z.pos my))).
  { split.
    - rewrite HA. rewrite Z.div_mul_cancel_r by lia. reflexivity.
    - rewrite HA. rewrite Z.mul_mod_distr_r by lia. fold r.
      symmetry. apply loc_of_rem_scale. exact HS. }
  assert (HA0 : 0 <= A) by (rewrite HA; nia).
  destruct (binary_round_aux_value prec emax Hprec false A (Z.pos my) qm e'
              (loc_of_rem r (Z.pos my))) as [H|H]; try lia; try exact HR.
  - transitivity (fexp g); [unfold e'; lia|]. apply fexp_mono. unfold g, s in *. lia.
  - left. destruct H as [H1 H2]. split; [exact H1|]. unfold rnd.
    destruct HR as [HRq _].
    rewrite <- (mag_repr prec emax A (Z.pos my) e'); try lia.
    rewrite <- HRq. exact H2.
  - right. destruct H as (m & e & H1 & H2 & H3). exists m, e.
    split; [exact H1|]. split; [exact H2|].
    split; [exact (binary_round_aux_bounded prec emax false false qm e' _ m e
                     ltac:(lia) H1)|].
    split; [apply (binary_round_aux_canonical prec emax Hprec false A (Z.pos my) qm e'
                     (loc_of_rem r (Z.pos my))); try lia; try assumption;
            transitivity (fexp g); [unfold e'; lia|]; apply fexp_mono;
            unfold g, s in *; lia|].
    rewrite H3. unfold rnd.
    destruct HR as [HRq _].
    rewrite <- (mag_repr prec emax A (Z.pos my) e'); try lia.
    rewrite <- HRq. reflexivity.
Qed.

(** The product of two positive floats whose mantissas have at least
    [prec] digits together. *)
Lemma SFmul_positive (mx : positive) (ex : Z) (my : positive) (ey : Z) :
  emin <= ex + ey ->
  prec <= Z.pos (digits2_pos (mx * my)) ->
  let A := Z.pos (mx * my) * Sc (ex + ey) in
  let t := SFmul prec emax (S754_finite false mx ex) (S754_finite false my ey) in
  (t = S754_infinity false /\ Sc (emax - prec + 1) <= rnd prec emax A 1)
  \/ exists m e,
      t = S754_finite false m e
      /\ emin <= e
      /\ Z.pos m * Sc e = rnd prec emax A 1.
Proof.
  intros He Hd A t. unfold t, A. clear t A. cbn [SFmul xorb].
  set (p := (mx * my)%positive) in *. set (e0 := ex + ey) in *.
  pose proof (scale_pos prec emax e0 He) as HS.
  assert (HR : Repr (Z.pos p * Sc e0) (1 * Sc e0) (Z.pos p) loc_Exact).
  { rewrite Z.mul_1_l. split.
    - rewrite Z.div_mul by lia. reflexivity.
    - rewrite Z.mod_mul by lia. reflexivity. }
  assert (Hmag : Zdigits2 (Z.pos p) + e0 = mag prec emax (Z.pos p * Sc e0) 1).
  { rewrite mag_int by exact He. reflexivity. }
  destruct (binary_round_aux_value prec emax Hprec false (Z.pos p * Sc e0) 1
              (Z.pos p) e0 loc_Exact) as [H|H]; try lia; try exact HR.
  - cbn [Zdigits2]. unfold SpecFloat.fexp. lia.
  - left. unfold rnd. rewrite <- Hmag. exact H.
  - right. unfold rnd. rewrite <- Hmag. exact H.
Qed.

End Arithmetic.

(** ** Prices on the wire *)

(** [int(round(x))] of a positive float that is within one half of the
    integer [k]. *)
Lemma round_units (m : positive) (e k : Z) :
  SpecFloat.emin prec emax <= e ->
  let V := Z.pos m * scale prec emax e in
  let U := scale prec emax 0 in
  2 * (V - k * U) < U -> 2 * (k * U - V) < U ->
  round (S754_finite false m e) = Ok k.
Proof.
  intros He V U H1 H2. unfold round. cbn [cond_Zopp]. f_equal.
  assert (HU : 0 < U) by (apply scale_pos; rewrite emin_value; lia).
  destruct (Z.leb_spec 0 e) as [Hpos|Hneg].
  - rewrite Z.shiftl_mul_pow2 by lia.
    assert (HV : V = Z.pos m * 2 ^ e * U).
    { unfold V, U. rewrite <- Z.mul_assoc. f_equal.
      rewrite Z.mul_comm, <- scale_add by (rewrite ?emin_value; lia). f_equal. }
    rewrite HV in H1, H2. set (X := Z.pos m * 2 ^ e) in *.
    destruct (Z.lt_trichotomy X k) as [Hlt|[Heq|Hgt]]; [|exact Heq|].
    + assert (1 * U <= (k - X) * U) by (apply Z.mul_le_mono_nonneg_r; lia). lia.
    + assert (1 * U <= (X - k) * U) by (apply Z.mul_le_mono_nonneg_r; lia). lia.
  - unfold round_half_even_shift. cbv zeta.
    set (d := 2 ^ (- e)).
    assert (Hd : 0 < d) by (apply Z.pow_pos_nonneg; lia).
    assert (HUd : U = scale prec emax e * d).
    { unfold U, d. rewrite <- scale_add by lia. f_equal. lia. }
    pose proof (scale_pos prec emax e He) as HS.
    assert (G1 : 2 * (Z.pos m - k * d) < d) by (unfold V in H1; rewrite HUd in H1; nia).
    assert (G2 : 2 * (k * d - Z.pos m) < d) by (unfold V in H2; rewrite HUd in H2; nia).
    pose proof (Z.div_mod (Z.pos m) d ltac:(lia)) as Hdm.
    pose proof (Z.mod_pos_bound (Z.pos m) d Hd) as Hr.
    set (q := Z.pos m / d) in *. set (r := Z.pos m mod d) in *.
    assert (Hq : q = k \/ q = k - 1).
    { destruct (Z.le_gt_cases (k + 1) q) as [Hhi|Hhi].
      - assert (d * (k + 1) <= d * q) by (apply Z.mul_le_mono_nonneg_l; lia). lia.
      - destruct (Z.le_gt_cases q (k - 2)) as [Hlo|Hlo]; [|lia].
        assert (d * q <= d * (k - 2)) by (apply Z.mul_le_mono_nonneg_l; lia). lia. }
    destruct (Z.compare_spec (2 * r) d) as [C|C|C]; destruct Hq as [Hq|Hq];
      rewrite Hq in *; try lia.
Qed.

Lemma thousand_mantissa : Z.pos 8796093022208000 = 1000 * 2 ^ 43.
Proof. reflexivity. Qed.

Lemma cent_units :
  let U := scale prec emax 0 in
  let K := scale prec emax (-59) in
  U = 2 ^ 59 * K /\ 100 * (Z.pos cent_mantissa * K) = U + 12 * K /\ 0 < K.
Proof. vm_compute. repeat split; reflexivity. Qed.

Lemma overflow_units :
  scale prec emax (emax - prec + 1) = 2 ^ 972 * scale prec emax 0.
Proof. vm_compute. reflexivity. Qed.

Lemma one_units : scale prec emax 0 = 2 ^ 1074.
Proof. reflexivity. Qed.

Lemma digits_below (p : positive) (a : Z) :
  Z.pos p < 2 ^ a -> 0 <= a -> Z.pos (digits2_pos p) <= a.
Proof.
  intros Hp Ha. pose proof (digits2_pos_bounds p) as [Hl _].
  destruct (Z.le_gt_cases (Z.pos (digits2_pos p)) a) as [H|H]; [exact H|].
  assert (2 ^ a <= 2 ^ (Z.pos (digits2_pos p) - 1)) by (apply Z.pow_le_mono_r; lia). lia.
Qed.

Lemma digits_above (p : positive) (a : Z) :
  2 ^ a <= Z.pos p -> 0 <= a -> a < Z.pos (digits2_pos p).
Proof.
  intros Hp Ha. pose proof (digits2_pos_bounds p) as [_ Hu].
  destruct (Z.lt_ge_cases a (Z.pos (digits2_pos p))) as [H|H]; [exact H|].
  assert (2 ^ Z.pos (digits2_pos p) <= 2 ^ a) by (apply Z.pow_le_mono_r; lia). lia.
Qed.

Lemma mantissa_below (p : positive) :
  Z.pos (digits2_pos p) <= prec -> Z.pos p < 2 ^ 53.
Proof.
  intros H. pose proof (digits2_pos_bounds p) as [_ Hu].
  assert (2 ^ Z.pos (digits2_pos p) <= 2 ^ 53) by (apply Z.pow_le_mono_r; unfold prec in H; lia).
  lia.
Qed.

(** [float(n)] is exact for a positive integer below [2^53]. *)
Lemma of_int_exact (n : Z) :
  1 <= n < 2 ^ 53 ->
  exists m e,
    of_int n = Ok (S754_finite false m e)
    /\ SpecFloat.emin prec emax <= e
    /\ Z.pos (digits2_pos m) <= prec
    /\ Z.pos m * scale prec emax e = n * scale prec emax 0.
Proof.
  intros Hn. unfold of_int. destruct n as [|p|p]; try lia. cbn [binary_normalize].
  assert (Hd : Z.pos (digits2_pos p) <= prec) by (apply (digits_below p 53); lia).
  pose proof (rnd_small prec emax p 0 ltac:(rewrite emin_value; lia) Hd) as Hex.
  destruct (binary_round_value prec emax prec_pos false p 0 ltac:(rewrite emin_value; lia))
    as [[_ H]|(m & e & H1 & H2 & H3)].
  - exfalso. rewrite Hex, overflow_units in H.
    assert (0 < scale prec emax 0) by (rewrite one_units; lia).
    assert (2 ^ 53 <= 2 ^ 972) by (apply Z.pow_le_mono_r; lia). nia.
  - exists m, e. rewrite H1. split; [reflexivity|]. split; [exact H2|].
    split; [exact (binary_round_bounded prec emax false false p 0 m e H1)|].
    rewrite H3. exact Hex.
Qed.

Lemma units_large : 2 ^ 1074 <= scale prec emax 0.
Proof. rewrite one_units. lia. Qed.

(** A decoded offer price: [n / 1000], off by at most [2^-53] of itself. *)
Lemma decode_price_units (n : Z) :
  1 <= n <= 2 ^ 40 ->
  exists m e,
    PriceManager.decode_price (JInt n) = Ok (S754_finite false m e)
    /\ SpecFloat.emin prec emax <= e
    /\ Z.pos (digits2_pos m) <= prec
    /\ valid (S754_finite false m e) = true
    /\ let V := Z.pos m * scale prec emax e in
       let W := n * scale prec emax 0 in
       2 ^ 53 * (1000 * V) <= 2 ^ 53 * W + W /\ 2 ^ 53 * W <= 2 ^ 53 * (1000 * V) + W.
Proof.
  intros Hn.
  destruct (of_int_exact n ltac:(lia)) as (mf & ef & Hof & Hef & Hdf & Hvf).
  unfold PriceManager.decode_price, float_of_jnum. rewrite Hof, thousand. unfold fdiv.
  pose proof units_large as HU.
  pose proof (mantissa_below mf Hdf) as Hmf.
  assert (Hlow : 2 ^ 1074 <= Z.pos mf * scale prec emax ef) by (rewrite Hvf; nia).
  pose proof (exponent_lower prec emax mf ef 53 1074 Hef ltac:(lia) Hmf Hlow) as Hexp.
  rewrite emin_value in Hexp, Hef.
  assert (Hnorm : Z.pos (digits2_pos 8796093022208000) - Z.pos (digits2_pos mf) + 1
                  <= ef - -43 - SpecFloat.emin prec emax).
  { rewrite emin_value. change (Z.pos (digits2_pos 8796093022208000)) with 53. lia. }
  pose proof (SFdiv_positive prec emax prec_pos mf ef 8796093022208000 (-43)
                ltac:(rewrite emin_value; lia) ltac:(lia) Hdf Hnorm) as Hdiv.
  cbv zeta in Hdiv. rewrite Hvf in Hdiv.
  change (2 ^ (- -43)) with 8796093022208 in Hdiv.
  set (U := scale prec emax 0) in *.
  set (A := n * U * 8796093022208) in *.
  destruct (rnd_error prec emax prec_pos A (Z.pos 8796093022208000) ltac:(lia)) as [E1 E2].
  { unfold A. change (2 ^ prec) with 9007199254740992. nia. }
  change (2 ^ prec) with (2 ^ 53) in E1, E2.
  set (R := rnd prec emax A (Z.pos 8796093022208000)) in *.
  destruct Hdiv as [[_ Hinf]|(m & e & H1 & H2 & H3 & Hv & H4)].
  - exfalso. rewrite overflow_units in Hinf. fold U in Hinf.
    assert (2 ^ 972 * U <= R) by exact Hinf.
    assert (2 ^ 64 <= 2 ^ 972) by (apply Z.pow_le_mono_r; lia).
    unfold A in E1. nia.
  - exists m, e. rewrite H1. split; [reflexivity|]. split; [exact H2|]. split; [exact H3|].
    split; [exact Hv|].
    cbv zeta. rewrite H4. fold R. unfold A in E1, E2. lia.
Qed.

(** The encoding of a positive price that is within a sixteenth of a
    thousandth of [k] thousandths. *)
Lemma price_formatted_units (m : positive) (e k : Z) :
  SpecFloat.emin prec emax <= e ->
  Z.pos (digits2_pos m) <= prec ->
  let V := Z.pos m * scale prec emax e in
  let U := scale prec emax 0 in
  2 ^ 1000 <= V -> 1000 * V <= 2 ^ 41 * U ->
  16 * (1000 * V - k * U) <= U -> 16 * (k * U - 1000 * V) <= U ->
  MarketAPI.price_formatted (S754_finite false m e) = Ok k.
Proof.
  intros He Hd V U Hlow Hhigh H1 H2.
  unfold MarketAPI.price_formatted. rewrite thousand. unfold fmul.
  pose proof units_large as HU. fold U in HU.
  pose proof (mantissa_below m Hd) as Hm.
  pose proof (exponent_lower prec emax m e 53 1000 He ltac:(lia) Hm Hlow) as Hexp.
  rewrite emin_value in Hexp, He.
  assert (Hdp : prec <= Z.pos (digits2_pos (m * 8796093022208000))).
  { assert (52 < Z.pos (digits2_pos (m * 8796093022208000))); [|unfold prec; lia].
    apply digits_above; [|lia]. rewrite Pos2Z.inj_mul.
    change (2 ^ 52) with (1 * 4503599627370496). apply Z.mul_le_mono_nonneg; lia. }
  pose proof (SFmul_positive prec emax prec_pos m e 8796093022208000 (-43)
                ltac:(rewrite emin_value; lia) Hdp) as Hmul.
  cbv zeta in Hmul.
  assert (HA : Z.pos (m * 8796093022208000) * scale prec emax (e + -43) = 1000 * V).
  { rewrite Pos2Z.inj_mul, thousand_mantissa. unfold V.
    assert (Hs : scale prec emax e = scale prec emax (e + -43) * 2 ^ 43).
    { rewrite <- scale_add by (rewrite ?emin_value; lia). f_equal. lia. }
    rewrite Hs. ring. }
  rewrite HA in Hmul.
  assert (HVpos : 0 < V) by (pose proof (Z.pow_pos_nonneg 2 1000); lia).
  destruct (rnd_error prec emax prec_pos (1000 * V) 1 ltac:(lia)) as [E1 E2].
  { change (2 ^ prec) with (2 ^ 53).
    assert (2 ^ 53 <= 2 ^ 1000) by (apply Z.pow_le_mono_r; lia). lia. }
  change (2 ^ prec) with (2 ^ 53) in E1, E2. rewrite Z.mul_1_r in E1, E2.
  set (R := rnd prec emax (1000 * V) 1) in *.
  destruct Hmul as [[_ Hinf]|(mt & et & T1 & T2 & T3)].
  - exfalso. rewrite overflow_units in Hinf. fold U in Hinf.
    assert (2 ^ 64 <= 2 ^ 972) by (apply Z.pow_le_mono_r; lia).
    assert (0 < U) by lia. nia.
  - rewrite T1. apply round_units; [exact T2| |]; rewrite T3; fold R; fold U; lia.
Qed.

(** The candidate price for a best offer of [n] thousandths: the decoded
    offer minus [0.01], within [2^-51] of [n] thousandths of [n - 10]
    thousandths. *)
Lemma candidate_units (n : Z) :
  11 <= n <= 2 ^ 40 ->
  exists best m e,
    PriceManager.decode_price (JInt n) = Ok best
    /\ fsub best PriceManager.cent = S754_finite false m e
    /\ SpecFloat.emin prec emax <= e
    /\ Z.pos (digits2_pos m) <= prec
    /\ let V := Z.pos m * scale prec emax e in
       let U := scale prec emax 0 in
       2 ^ 51 * (1000 * V - (n - 10) * U) <= n * U
       /\ 2 ^ 51 * ((n - 10) * U - 1000 * V) <= n * U.
Proof.
  intros Hn.
  destruct (decode_price_units n ltac:(lia)) as (mb & eb & Hdec & Heb & Hdb & _ & Hb1 & Hb2).
  exists (S754_finite false mb eb). rewrite Hdec, cent_shape. unfold fsub.
  destruct cent_units as (HUK & Hc & HK).
  pose proof units_large as HU.
  set (U := scale prec emax 0) in *. set (K := scale prec emax (-59)) in *.
  set (Vb := Z.pos mb * scale prec emax eb) in *.
  set (Vc := Z.pos cent_mantissa * K) in *.
  set (W := n * U) in *.
  assert (HW : 11 * U <= W /\ W <= 2 ^ 40 * U) by (unfold W; nia).
  assert (Hlt : Vc < Vb) by lia.
  pose proof (SFsub_positive prec emax prec_pos mb eb cent_mantissa (-59) Heb
                ltac:(rewrite emin_value; lia) Hlt) as Hsub.
  cbv zeta in Hsub. fold K Vc Vb in Hsub.
  destruct (rnd_error prec emax prec_pos (Vb - Vc) 1 ltac:(lia)) as [E1 E2].
  { change (2 ^ prec) with (2 ^ 53).
    assert (2 ^ 64 <= 2 ^ 1074) by (apply Z.pow_le_mono_r; lia). lia. }
  change (2 ^ prec) with (2 ^ 53) in E1, E2. rewrite Z.mul_1_r in E1, E2.
  set (R := rnd prec emax (Vb - Vc) 1) in *.
  destruct Hsub as [[_ Hinf]|(m & e & S1 & S2 & S3 & S4)].
  - exfalso. rewrite overflow_units in Hinf. fold U in Hinf.
    assert (2 ^ 64 <= 2 ^ 972) by (apply Z.pow_le_mono_r; lia). lia.
  - exists m, e. split; [reflexivity|]. split; [exact S1|]. split; [exact S2|].
    split; [exact S3|]. cbv zeta. rewrite S4. fold R. fold W.
    replace ((n - 10) * U) with (W - 10 * U) by (unfold W; ring). lia.
Qed.

(** The encoding of a decoded offer minus [0.01]. *)
Lemma candidate_encoding (n : Z) :
  11 <= n <= 2 ^ 40 ->
  exists best_price,
    PriceManager.decode_price (JInt n) = Ok best_price
    /\ MarketAPI.price_formatted (fsub best_price PriceManager.cent) = Ok (n - 10).
Proof.
  intros Hn.
  destruct (candidate_units n Hn) as (best & m & e & Hdec & Hsub & He & Hd & B1 & B2).
  exists best. split; [exact Hdec|]. rewrite Hsub.
  pose proof units_large as HU.
  set (U := scale prec emax 0) in *. set (V := Z.pos m * scale prec emax e) in *.
  assert (HW : 11 * U <= n * U /\ n * U <= 2 ^ 40 * U) by nia.
  assert (HK : (n - 10) * U = n * U - 10 * U) by ring.
  rewrite HK in B1, B2.
  assert (H74 : 2 ^ 1074 = 2 ^ 1000 * 2 ^ 74) by (rewrite <- Z.pow_add_r by lia; reflexivity).
  assert (0 < 2 ^ 1000) by (apply Z.pow_pos_nonneg; lia).
  apply price_formatted_units; [exact He|exact Hd| | | |]; fold V; fold U;
    rewrite ?HK; lia.
Qed.

(** X17. On the wire the candidate price is exactly ten thousandths below
    the best offer. For a listing whose best price was decoded from an offer
    of [n] thousandths, from 0.011 up to [2^40] thousandths, the encoding of
    the best price minus [0.01] is the integer [n - 10], although neither
    [n / 1000] nor [0.01] is a binary fraction; so every submission that the
    decision rule allows for the listing carries the price [n - 10]. *)
Theorem candidate_price_on_the_wire (api_key : string) (config : ConfigManager.config)
    (item : ItemInfo) (n : Z) (req : request) :
  11 <= n <= 2 ^ 40 ->
  PriceManager.decode_price (JInt n) = Ok (best_price item) ->
  MarketAPI.price_formatted (fsub (best_price item) PriceManager.cent) = Ok (n - 10)
  /\ (allowed_submission api_key config [item] req ->
      req = set_price_request api_key (item_id item) (n - 10)).
Proof.
  intros Hn Hdec.
  destruct (candidate_encoding n Hn) as (best & Hbest & Hpf).
  rewrite Hdec in Hbest. injection Hbest as <-.
  split; [exact Hpf|].
  intros (item' & pf & Hin & _ & Hpf' & -> & _).
  destruct Hin as [<-|[]]. rewrite Hpf in Hpf'. injection Hpf' as <-. reflexivity.
Qed.

(** X18. Decoding and encoding are inverse on the wire: every offer price
    of [n] thousandths, up to [2^40], is decoded to a float whose encoding is
    [n] again. *)
Theorem wire_price_round_trip (n : Z) :
  0 <= n <= 2 ^ 40 ->
  exists price,
    PriceManager.decode_price (JInt n) = Ok price
    /\ MarketAPI.price_formatted price = Ok n.
Proof.
  intros Hn. destruct (Z.eq_dec n 0) as [->|Hnz].
  { eexists. split; vm_compute; reflexivity. }
  destruct (decode_price_units n ltac:(lia)) as (m & e & Hdec & He & Hd & _ & B1 & B2).
  eexists. split; [exact Hdec|].
  pose proof units_large as HU.
  set (U := scale prec emax 0) in *. set (V := Z.pos m * scale prec emax e) in *.
  assert (HW : 1 * U <= n * U /\ n * U <= 2 ^ 40 * U) by nia.
  assert (H74 : 2 ^ 1074 = 2 ^ 1000 * 2 ^ 74) by (rewrite <- Z.pow_add_r by lia; reflexivity).
  assert (0 < 2 ^ 1000) by (apply Z.pow_pos_nonneg; lia).
  apply price_formatted_units; [exact He|exact Hd| | | |]; fold V; fold U; lia.
Qed.

Lemma candidate_price_on_the_wire_witness :
  PriceManager.decode_price (JInt 9500) = Ok (best_price Scenario.second)
  /\ MarketAPI.price_formatted (fsub (best_price Scenario.second) PriceManager.cent)
     = Ok (9500 - 10).
Proof.
  assert (H : PriceManager.decode_price (JInt 9500) = Ok (best_price Scenario.second))
    by (vm_compute; reflexivity).
  split; [exact H|].
  apply (candidate_price_on_the_wire "KEY" Scenario.no_floor Scenario.second 9500
           (set_price_request "KEY" "2" 9490)); [lia|exact H].
Defined.

Lemma wire_price_round_trip_witness :
  exists price,
    PriceManager.decode_price (JInt 114391) = Ok price
    /\ MarketAPI.price_formatted price = Ok 114391.
Proof. apply (wire_price_round_trip 114391). lia. Defined.

(** ** A submission over a network that is down *)

(** [set_price] when each of its three attempts fails in transit. *)
Lemma set_price_unreachable (api_key item_id : string) (price : float) (pf : Z)
    (env : env) (w : world) (e0 e1 e2 : string) :
  MarketAPI.price_formatted price = Ok pf ->
  let req := set_price_request api_key item_id pf in
  transient (http_get env (http_count w) req) e0 ->
  transient (http_get env (S (http_count w)) req) e1 ->
  transient (http_get env (S (S (http_count w))) req) e2 ->
  exists w',
    MarketAPI.set_price api_key item_id price env w = (Ok (Some (MarketAPI.failure e2)), w')
    /\ net (trace w') = net (trace w) ++ attempts_with_waits 3 req (10 # 1)
    /\ http_count w' = (http_count w + 3)%nat
    /\ input_count w' = input_count w.
Proof.
  intros Hpf req H0 H1 H2.
  unfold MarketAPI.set_price, MarketAPI.set_price_cur.
  unfold bind at 1. unfold lift. rewrite Hpf.
  unfold MarketAPI._make_request, MarketAPI._make_request_retries.
  change (range 3) with [0; 1; 2].
  change ([("item_id", PStr item_id); ("price", PInt pf); ("cur", PStr "USD")]
            ++ [("key", PStr api_key)]) with (params req).
  change {| endpoint := "set-price"; params := params req |} with req.
  io_unfold. cbn [fst snd].
  match goal with
  | |- context [MarketAPI._make_request_loop req 3 _ env ?w0] => set (w5 := w0)
  end.
  assert (Hc : http_count w5 = http_count w) by reflexivity.
  assert (Hn : net (trace w5) = net (trace w)).
  { unfold w5. cbn [trace]. rewrite !net_print. reflexivity. }
  assert (Hi : input_count w5 = input_count w) by reflexivity.
  clearbody w5.
  rewrite (loop_retries req 0 [1; 2] e0 env w5); [|rewrite Hc; exact H0|reflexivity].
  set (w6 := after_transient req 0 e0 w5).
  rewrite (loop_retries req 1 [2] e1 env w6);
    [|unfold w6; cbn [after_transient http_count]; rewrite Hc; exact H1|reflexivity].
  set (w7 := after_transient req 1 e1 w6).
  rewrite (loop_gives_up req 2 [] e2 env w7);
    [|unfold w7, w6; cbn [after_transient http_count]; rewrite Hc; exact H2|reflexivity].
  eexists. split; [reflexivity|].
  rewrite net_after_final. unfold w7. rewrite net_after_transient. unfold w6.
  rewrite net_after_transient, Hn, <- !app_assoc.
  split; [reflexivity|]. cbn [after_final after_transient http_count input_count].
  split; lia.
Qed.

(** X19. The two retry loops do not multiply. When the network is down, so
    that each of the three attempts of the first [set_price] fails in
    transit, a confirmed update gives up there: [update_item_price] returns
    [False] after three requests, 10 seconds apart, and does not start a
    second round, because the failure it is handed is not "too often". *)
Theorem update_item_price_unreachable (api_key : string) (item : ItemInfo)
    (new_price : float) (pf : Z) (auto_confirm : bool) (env : env) (w : world)
    (e0 e1 e2 : string) :
  MarketAPI.price_formatted new_price = Ok pf ->
  auto_confirm = true \/ operator_answer env (input_count w) ∈ ["yes"; "y"; "да"] ->
  let req := set_price_request api_key (item_id item) pf in
  let run := PriceManager.update_item_price api_key item new_price auto_confirm env w in
  transient (http_get env (http_count w) req) e0 ->
  transient (http_get env (http_count w + 1)%nat req) e1 ->
  transient (http_get env (http_count w + 2)%nat req) e2 ->
  e2 <> "too_often" ->
  fst run = Ok false
  /\ net (trace (snd run)) = net (trace w) ++ attempts_with_waits 3 req (10 # 1)
  /\ http_count (snd run) = (http_count w + 3)%nat
  /\ last (prints (trace (snd run))) = Some (MsgDebugResponse (MarketAPI.failure e2)).
Proof.
  intros Hpf Hconf req run H0 H1 H2 Hne.
  destruct (update_item_price_confirmed api_key item new_price auto_confirm env w Hconf)
    as (w0 & Hrun & Hn0 & Hc0).
  unfold run. rewrite Hrun. change (range PriceManager.max_retries) with [0; 1; 2].
  clear Hrun run. cbn [PriceManager.update_item_price_loop].
  change (when (0 <? 0) (print (MsgAttempt (0 + 1) PriceManager.max_retries)))
    with (ret (A := unit) tt).
  rewrite (bind_ok _ _ _ w0 w0 tt) by reflexivity.
  rewrite Nat.add_1_r in H1. replace (http_count w + 2)%nat with (S (S (http_count w))) in H2 by lia.
  rewrite <- Hc0 in H0, H1, H2.
  destruct (set_price_unreachable api_key (item_id item) new_price pf env w0 e0 e1 e2
              Hpf H0 H1 H2) as (w1 & Hsp & Hn1 & Hc1 & _).
  rewrite (bind_ok _ _ _ _ _ _ Hsp). unfold MarketAPI.dict_of.
  rewrite (bind_ok _ _ _ w1 w1 (MarketAPI.failure e2)) by reflexivity.
  change (resp_success (MarketAPI.failure e2)) with false. cbv iota.
  change (default "Неизвестная ошибка" (resp_error (MarketAPI.failure e2))) with e2.
  assert (Heq : String.eqb e2 "too_often" = false) by (apply String.eqb_neq; exact Hne).
  rewrite Heq. cbn [andb]. io_unfold.
  change (0 =? PriceManager.max_retries - 1) with false.
  cbn [fst snd trace http_count].
  rewrite !net_app, !prints_app, Hn1, Hn0. simpl. rewrite !app_nil_r.
  split; [reflexivity|]. split; [reflexivity|]. split; [lia|].
  apply last_snoc.
Qed.

Lemma update_item_price_unreachable_witness :
  let req := set_price_request "KEY" "2" 9490 in
  let run := PriceManager.update_item_price "KEY" Scenario.second (literal 949 2) true
               Scenario.offline world0 in
  fst run = Ok false
  /\ net (trace (snd run)) = attempts_with_waits 3 req (10 # 1)
  /\ http_count (snd run) = 3%nat
  /\ last (prints (trace (snd run))) = Some (MsgDebugResponse (MarketAPI.failure "timed out")).
Proof.
  cbv zeta.
  apply (update_item_price_unreachable "KEY" Scenario.second (literal 949 2) 9490 true
           Scenario.offline world0 "timed out" "timed out" "timed out").
  - vm_compute. reflexivity.
  - left. reflexivity.
  - left. reflexivity.
  - left. reflexivity.
  - left. reflexivity.
  - discriminate.
Defined.

(** ** The pace of the evaluation *)

Lemma make_request_reliable (api_key ep : string) (ps : list (string * pval))
    (env : env) (w : world) :
  reliable env ->
  exists body w',
    MarketAPI._make_request api_key ep ps env w = (Ok (Some body), w')
    /\ net (trace w')
       = net (trace w) ++ [EvGet {| endpoint := ep; params := ps ++ [("key", PStr api_key)] |}].
Proof.
  intros Hrel. unfold MarketAPI._make_request, MarketAPI._make_request_retries.
  change (range 3) with [0; 1; 2].
  rewrite loop_returns by apply Hrel.
  eexists _, _. split; [reflexivity|]. apply net_after_final.
Qed.

Lemma query_item_info_paced (api_key : string) (raw : raw_item) (env : env)
    (w w' : world) (info : ItemInfo) :
  reliable env ->
  PriceManager.query_item_info api_key raw env w = (Ok info, w') ->
  net (trace w') = net (trace w) ++ paced_queries api_key [raw].
Proof.
  intros Hrel. unfold PriceManager.query_item_info.
  unfold bind at 1. unfold lift at 1.
  destruct (float_of_jnum (raw_price raw)) as [cur|x]; [|discriminate].
  set (name := raw_market_hash_name raw).
  rewrite (bind_ok _ _ _ w (snd (print (MsgQuerying name) env w)) tt) by reflexivity.
  assert (Hn0 : net (trace (snd (print (MsgQuerying name) env w))) = net (trace w))
    by apply net_print.
  set (w0 := snd (print (MsgQuerying name) env w)) in *. clearbody w0.
  unfold MarketAPI.get_best_offer_for_item.
  destruct (make_request_reliable api_key "search-item-by-hash-name"
              [("hash_name", PStr name)] env w0 Hrel) as (body & w1 & Hrun & Hn1).
  change {| endpoint := _; params := _ |} with (best_offer_request api_key name) in Hn1.
  rewrite (bind_ok _ _ _ _ _ _ Hrun). unfold MarketAPI.dict_of.
  rewrite (bind_ok _ _ _ w1 w1 body) by reflexivity.
  match goal with
  | |- context [bind ?m _ env w1] =>
      assert (Hbest : (exists x, m env w1 = (Raise x, w1))
                      \/ exists best msg, m env w1 = (Ok best, snd (print msg env w1)))
  end.
  { destruct (resp_success body && negb (bool_decide (resp_data body = []))).
    - destruct (resp_data body) as [|first rest].
      + right. exists cur, MsgNoOffers. reflexivity.
      + unfold bind at 1. unfold lift at 1.
        destruct (PriceManager.decode_price (offer_price first)) as [best|x].
        * right. exists best, (MsgBestPrice best). reflexivity.
        * left. exists x. reflexivity.
    - right. exists cur, (MsgPricesUnavailable name). reflexivity. }
  destruct Hbest as [(x & Hb)|(best & msg & Hb)].
  { rewrite (bind_raise _ _ _ _ _ _ Hb). discriminate. }
  rewrite (bind_ok _ _ _ _ _ _ Hb). clear Hb.
  assert (Hn2 : net (trace (snd (print msg env w1))) = net (trace w1)) by apply net_print.
  set (w2 := snd (print msg env w1)) in *. clearbody w2.
  unfold bind at 1. unfold lift at 1.
  destruct (PriceManager._calculate_position cur best) as [pos|x]; [|discriminate].
  io_unfold. cbn [fst snd].
  destruct (pos =? 1); intros [= _ <-]; cbn [trace];
    rewrite !net_app, Hn2, Hn1, Hn0; simpl; rewrite ?app_nil_r, <- ?app_assoc; reflexivity.
Qed.

(** X20. On a network without transport failures the evaluation is paced:
    when the loop of [get_my_items_info] returns, it has sent exactly one
    best-offer request per item, in the order of the items, each followed by
    a pause of half a second, and nothing else. *)
Theorem evaluation_is_paced (api_key : string) (my_items : list raw_item)
    (items_info l : list ItemInfo) (env : env) (w w' : world) :
  reliable env ->
  PriceManager.get_my_items_info_loop api_key my_items items_info env w = (Ok l, w') ->
  net (trace w') = net (trace w) ++ paced_queries api_key my_items.
Proof.
  intros Hrel. revert items_info w.
  induction my_items as [|raw rest IH]; intros items_info w.
  - intros [= _ <-]. symmetry. apply app_nil_r.
  - cbn [PriceManager.get_my_items_info_loop].
    destruct (PriceManager.query_item_info api_key raw env w) as [[info|x] w1] eqn:Hq.
    + rewrite (bind_ok _ _ _ _ _ _ Hq). intros Hrest.
      rewrite (IH _ _ Hrest), (query_item_info_paced _ _ _ _ _ _ Hrel Hq), <- app_assoc.
      reflexivity.
    + rewrite (bind_raise _ _ _ _ _ _ Hq). discriminate.
Qed.

Lemma evaluation_is_paced_witness :
  let env := Scenario.market Scenario.three_listings [9500] (HttpOk Scenario.ok_response) in
  let run := PriceManager.get_my_items_info_loop "KEY" Scenario.three_listings [] env world0 in
  net (trace (snd run)) = paced_queries "KEY" Scenario.three_listings.
Proof.
  cbv zeta.
  apply (evaluation_is_paced "KEY" Scenario.three_listings []
           [Scenario.first; Scenario.second; Scenario.third]
           (Scenario.market Scenario.three_listings [9500] (HttpOk Scenario.ok_response))
           world0).
  - intros n req e. unfold transient, Scenario.market. cbn [http_get].
    destruct (String.eqb (endpoint req) "items");
      [|destruct (String.eqb (endpoint req) "search-item-by-hash-name");
        [|destruct (String.eqb (endpoint req) "set-price")]];
      intros [H|H]; discriminate.
  - vm_compute. reflexivity.
Defined.

(** ** Where the code departs from the wording of the specification *)

(** The position of 10.03 against 10.00 is 3, where the formula of the
    specification, on the decimal prices, gives 4: in binary64, [10.03 - 10.0]
    is a little less than [0.03]. *)
Lemma position_is_not_the_decimal_formula :
  PriceManager._calculate_position (literal 1003 2) (literal 1000 2) = Ok 3
  /\ decimal_position (1003 # 100) (1000 # 100) = 4.
Proof. split; vm_compute; reflexivity. Qed.


(** ** The wire encoding of prices, for every price *)

Lemma round_half_even_shift_nearest (m k : Z) :
  0 <= m -> 0 < k ->
  let r := round_half_even_shift m k in
  let d := 2 ^ k in
  0 <= r
  /\ 2 * Z.abs (r * d - m) <= d
  /\ (2 * Z.abs (r * d - m) = d -> Z.even r = true).
Proof.
  intros Hm Hk r d. unfold r, round_half_even_shift. cbv zeta. fold d.
  assert (Hd : 0 < d) by (apply Z.pow_pos_nonneg; lia).
  pose proof (Z.div_mod m d ltac:(lia)) as Hdm.
  pose proof (Z.mod_pos_bound m d Hd) as Hr.
  assert (Hq : 0 <= m / d) by (apply Z.div_pos; lia).
  set (q := m / d) in *. set (rem := m mod d) in *.
  assert (E1 : q * d - m = - rem) by lia.
  assert (E2 : (q + 1) * d - m = d - rem) by lia.
  destruct (Z.compare_spec (2 * rem) d) as [C|C|C].
  - destruct (Z.even q) eqn:Ev.
    + rewrite E1. split; [lia|]. split; [lia|auto].
    + rewrite E2. split; [lia|]. split; [lia|]. intros _.
      rewrite Z.even_add, Ev. reflexivity.
  - rewrite E1. split; [lia|]. split; lia.
  - rewrite E2. split; [lia|]. split; lia.
Qed.

(** [round] gives the nearest integer, ties to even. *)
Lemma round_nearest (x : float) (k : Z) : round x = Ok k -> nearest_integer x k.
Proof.
  destruct x as [s|s| |s m e]; try discriminate; cbn [round nearest_integer].
  - intros [= <-]. reflexivity.
  - intros [= <-]. destruct (Z.leb_spec 0 e) as [Hpos|Hneg].
    + rewrite (Z.max_r 0 e), (Z.max_l 0 (- e)) by lia. rewrite Z.shiftl_mul_pow2 by lia.
      change (2 ^ 0) with 1.
      assert (E : cond_Zopp s (Z.pos m * 2 ^ e) * 1 - cond_Zopp s (Z.pos m) * 2 ^ e = 0)
        by (destruct s; cbn [cond_Zopp]; ring).
      rewrite E. simpl. split; [lia|discriminate].
    + rewrite (Z.max_l 0 e), (Z.max_r 0 (- e)) by lia. change (2 ^ 0) with 1. rewrite Z.mul_1_r.
      destruct (round_half_even_shift_nearest (Z.pos m) (- e) ltac:(lia) ltac:(lia))
        as (H0 & H1 & H2).
      set (r := round_half_even_shift (Z.pos m) (- e)) in *.
      set (d := 2 ^ (- e)) in *.
      assert (E : Z.abs (cond_Zopp s r * d - cond_Zopp s (Z.pos m)) = Z.abs (r * d - Z.pos m))
        by (destruct s; cbn [cond_Zopp]; lia).
      rewrite E. split; [exact H1|]. intros Ht.
      destruct s; cbn [cond_Zopp]; [rewrite Z.even_opp|]; auto.
Qed.

(** The float of a decoded offer of [n] thousandths is the float that the
    decimal literal [n / 1000] denotes. *)
Lemma decode_price_literal (n : Z) :
  0 <= n <= 2 ^ 40 -> PriceManager.decode_price (JInt n) = Ok (literal n 3).
Proof.
  intros Hn. destruct (Z.eq_dec n 0) as [->|Hnz]; [vm_compute; reflexivity|].
  destruct (of_int_exact n ltac:(lia)) as (m & e & Hof & _).
  unfold PriceManager.decode_price, float_of_jnum. rewrite Hof.
  unfold literal, of_small_int. change (10 ^ 3) with 1000.
  unfold of_int in Hof.
  destruct (binary_normalize prec emax n 0 false) as [s0|s0| |s0 m0 e0];
    try discriminate.
  injection Hof as Hs Hm He. subst s0 m0 e0. reflexivity.
Qed.

(** C8. [set_price] sends, as the [price] parameter of every request it
    makes, the integer nearest to the binary64 product of the price and 1000,
    the even one of the two nearest on a tie; and an offer price is decoded
    by dividing the integer by 1000. For every price of [n] thousandths, up
    to [2^40], this is a round trip at three decimals: [n] is decoded to the
    float that the decimal literal [n / 1000] denotes, and the encoding of
    that float is [n]. So at 114.391, and at 1.001, whose product with 1000
    lies just below 1001. *)
Theorem price_wire_encoding :
  (forall price pf,
     MarketAPI.price_formatted price = Ok pf ->
     nearest_integer (fmul price (of_small_int 1000)) pf)
  /\ (forall api_key item_id price env w pf,
        MarketAPI.price_formatted price = Ok pf ->
        exists k : nat,
          (1 <= k <= 3)%nat
          /\ gets (trace (snd (MarketAPI.set_price api_key item_id price env w)))
             = gets (trace w) ++ repeat (set_price_request api_key item_id pf) k)
  /\ (forall n f, of_int n = Ok f ->
                  PriceManager.decode_price (JInt n) = Ok (fdiv f (of_small_int 1000)))
  /\ (forall n, 0 <= n <= 2 ^ 40 ->
                PriceManager.decode_price (JInt n) = Ok (literal n 3)
                /\ MarketAPI.price_formatted (literal n 3) = Ok n)
  /\ MarketAPI.price_formatted (literal 114391 3) = Ok 114391
  /\ PriceManager.decode_price (JInt 114391) = Ok (literal 114391 3)
  /\ MarketAPI.price_formatted (literal 1001 3) = Ok 1001
  /\ fmul (literal 1001 3) (of_small_int 1000) <> of_small_int 1001.
Proof.
  split; [|split; [|split; [|split]]].
  - intros price pf. unfold MarketAPI.price_formatted. apply round_nearest.
  - intros api_key item_id price env w pf Hpf.
    unfold MarketAPI.set_price, MarketAPI.set_price_cur.
    unfold bind at 1. unfold lift. rewrite Hpf.
    unfold MarketAPI._make_request, MarketAPI._make_request_retries.
    change (range 3) with [0; 1; 2].
    change {| endpoint := "set-price"; params := _ |}
      with (set_price_request api_key item_id pf).
    io_unfold. cbn [fst snd].
    match goal with
    | |- context [MarketAPI._make_request_loop ?r 3 _ env ?w0] =>
        set (req := r); set (w5 := w0)
    end.
    assert (Hg : gets (trace w5) = gets (trace w)).
    { unfold w5. cbn [trace]. rewrite !gets_print. reflexivity. }
    rewrite <- Hg.
    destruct (make_request_loop_gets req [0; 1; 2] env w5) as (k & Hk & Hk1 & Hgets).
    exists k. split; [|exact Hgets].
    split; [apply Hk1; discriminate|exact Hk].
  - intros n f Hf. unfold PriceManager.decode_price, float_of_jnum. rewrite Hf. reflexivity.
  - intros n Hn. pose proof (decode_price_literal n Hn) as Hlit.
    split; [exact Hlit|].
    destruct (Z.eq_dec n 0) as [->|Hnz]; [vm_compute; reflexivity|].
    destruct (decode_price_units n ltac:(lia)) as (m & e & Hdec & He & Hd & _ & B1 & B2).
    rewrite Hlit in Hdec. injection Hdec as ->.
    pose proof units_large as HU.
    set (U := scale prec emax 0) in *. set (V := Z.pos m * scale prec emax e) in *.
    assert (HW : 1 * U <= n * U /\ n * U <= 2 ^ 40 * U) by nia.
    assert (H74 : 2 ^ 1074 = 2 ^ 1000 * 2 ^ 74)
      by (rewrite <- Z.pow_add_r by lia; reflexivity).
    assert (0 < 2 ^ 1000) by (apply Z.pow_pos_nonneg; lia).
    apply price_formatted_units; [exact He|exact Hd| | | |]; fold V; fold U; lia.
  - repeat split; try (vm_compute; reflexivity). vm_compute. discriminate.
Qed.

Lemma price_wire_encoding_witness :
  PriceManager.decode_price (JInt 1001) = Ok (literal 1001 3)
  /\ MarketAPI.price_formatted (literal 1001 3) = Ok 1001.
Proof.
  apply (proj1 (proj2 (proj2 (proj2 price_wire_encoding))) 1001). lia.
Defined.

(** ** The position of decimal prices *)

(** The formula of the specification at two prices in thousandths. *)
Lemma decimal_position_thousandths (nc nb : Z) :
  decimal_position (nc # 1000) (nb # 1000)
  = if nc <=? nb then 1 else Z.max 2 ((nc - nb) / 10 + 1).
Proof.
  unfold decimal_position, Qle_bool. cbn [Qnum Qden].
  assert (H : (nc * 1000 <=? nb * 1000) = (nc <=? nb)).
  { destruct (Z.leb_spec nc nb); [apply Z.leb_le|apply Z.leb_gt]; lia. }
  rewrite H. destruct (nc <=? nb); [reflexivity|]. f_equal. f_equal.
  unfold Qfloor, Qdiv, Qmult, Qminus, Qplus, Qopp, Qinv. cbn [Qnum Qden].
  change (Z.pos (1000 * 1000 * 1)) with (100000 * 10).
  replace ((nc * 1000 + - nb * 1000) * 100) with ((nc - nb) * 100000) by ring.
  rewrite (Z.mul_comm (nc - nb)), Z.div_mul_cancel_l by lia. reflexivity.
Qed.

(** The float of a decimal price of [n] thousandths. *)
Lemma literal_units (n : Z) :
  1 <= n <= 2 ^ 40 ->
  exists m e,
    literal n 3 = S754_finite false m e
    /\ SpecFloat.emin prec emax <= e
    /\ valid (S754_finite false m e) = true
    /\ let V := Z.pos m * scale prec emax e in
       let W := n * scale prec emax 0 in
       2 ^ 53 * (1000 * V) <= 2 ^ 53 * W + W /\ 2 ^ 53 * W <= 2 ^ 53 * (1000 * V) + W.
Proof.
  intros Hn.
  destruct (decode_price_units n Hn) as (m & e & Hdec & He & _ & Hv & HB).
  rewrite (decode_price_literal n ltac:(lia)) in Hdec. injection Hdec as Hlit.
  exists m, e. auto.
Qed.

Lemma cent_hundred : 100 * Z.pos cent_mantissa = 2 ^ 59 + 12.
Proof. reflexivity. Qed.

(** The quotient [(c - b) / 0.01] of two decimal prices, [c] the larger:
    within a sixty-fourth of the tenth of their difference in thousandths. *)
Lemma quotient_thousandths (nc nb : Z) :
  1 <= nb -> nb < nc -> nc <= 2 ^ 40 ->
  exists mq eq,
    fdiv (fsub (literal nc 3) (literal nb 3)) PriceManager.cent = S754_finite false mq eq
    /\ SpecFloat.emin prec emax <= eq
    /\ fle (literal nc 3) (literal nb 3) = false
    /\ let Vq := Z.pos mq * scale prec emax eq in
       let U := scale prec emax 0 in
       64 * (10 * Vq - (nc - nb) * U) <= U /\ 64 * ((nc - nb) * U - 10 * Vq) <= U.
Proof.
  intros Hb Hlt Hc.
  destruct (literal_units nc ltac:(lia)) as (mc & ec & Hlc & Hec & Hvc & C1 & C2).
  destruct (literal_units nb ltac:(lia)) as (mb & eb & Hlb & Heb & Hvb & B1 & B2).
  rewrite Hlc, Hlb.
  pose proof units_large as HU.
  set (U := scale prec emax 0) in *.
  set (Vc := Z.pos mc * scale prec emax ec) in *.
  set (Vb := Z.pos mb * scale prec emax eb) in *.
  assert (HWb : 1 * U <= nb * U) by nia.
  assert (HWc : nc * U <= 2 ^ 40 * U) by nia.
  assert (HWk : 1 * U <= (nc - nb) * U) by nia.
  assert (HK : (nc - nb) * U = nc * U - nb * U) by ring.
  set (Wc := nc * U) in *. set (Wb := nb * U) in *.
  assert (H64 : 2 ^ 64 <= 2 ^ 1074) by (apply Z.pow_le_mono_r; lia).
  assert (Hgt : Vb < Vc) by lia.
  (* the comparison *)
  assert (Hfle : fle (S754_finite false mc ec) (S754_finite false mb eb) = false).
  { rewrite (fle_units _ _ Hvc Hvb eq_refl eq_refl). cbn [Nval cond_Zopp].
    apply Z.leb_gt. exact Hgt. }
  (* the difference *)
  pose proof (SFsub_positive prec emax prec_pos mc ec mb eb Hec Heb Hgt) as Hsub.
  cbv zeta in Hsub. fold Vc Vb in Hsub.
  destruct (rnd_error prec emax prec_pos (Vc - Vb) 1 ltac:(lia)) as [D1 D2].
  { change (2 ^ prec) with (2 ^ 53). lia. }
  change (2 ^ prec) with (2 ^ 53) in D1, D2. rewrite Z.mul_1_r in D1, D2.
  set (Rd := rnd prec emax (Vc - Vb) 1) in *.
  assert (Hmax : 2 ^ 972 * U = scale prec emax (emax - prec + 1))
    by (symmetry; apply overflow_units).
  assert (H972 : 2 ^ 64 <= 2 ^ 972) by (apply Z.pow_le_mono_r; lia).
  unfold fsub, fdiv. rewrite cent_shape.
  destruct Hsub as [[_ Hinf]|(md & ed & S1 & S2 & _ & S4)].
  { exfalso. rewrite <- Hmax in Hinf. nia. }
  rewrite S1.
  set (Vd := Z.pos md * scale prec emax ed) in *.
  (* the quotient *)
  pose proof (SFdiv_value prec emax prec_pos md ed cent_mantissa (-59) S2 cent_below_one)
    as Hdiv.
  cbv zeta in Hdiv. fold Vd in Hdiv. change (- -59) with 59 in Hdiv.
  pose proof cent_hundred as Hcm.
  destruct (rnd_error prec emax prec_pos (Vd * 2 ^ 59) (Z.pos cent_mantissa) ltac:(lia))
    as [Q1 Q2].
  { change (2 ^ prec) with (2 ^ 53). lia. }
  change (2 ^ prec) with (2 ^ 53) in Q1, Q2.
  set (Rq := rnd prec emax (Vd * 2 ^ 59) (Z.pos cent_mantissa)) in *.
  destruct Hdiv as [[_ Hinf]|(mq & eq & T1 & T2 & T3)].
  { exfalso. rewrite <- Hmax in Hinf. nia. }
  exists mq, eq. split; [exact T1|]. split; [exact T2|]. split; [exact Hfle|].
  cbv zeta. rewrite T3. fold Rq. rewrite HK. lia.
Qed.

(** The position of two decimal prices against the formula of the
    specification: the same, or one less. *)
Lemma position_thousandths (nc nb : Z) :
  1 <= nb <= 2 ^ 40 -> 1 <= nc <= 2 ^ 40 ->
  exists p,
    PriceManager._calculate_position (literal nc 3) (literal nb 3) = Ok p
    /\ (p = decimal_position (nc # 1000) (nb # 1000)
        \/ p = decimal_position (nc # 1000) (nb # 1000) - 1)
    /\ ((nc - nb) mod 10 <> 0 -> p = decimal_position (nc # 1000) (nb # 1000)).
Proof.
  intros Hb Hc. rewrite decimal_position_thousandths.
  unfold PriceManager._calculate_position.
  destruct (Z.leb_spec nc nb) as [Hle|Hgt].
  - assert (Hfle : fle (literal nc 3) (literal nb 3) = true).
    { destruct (Z.eq_dec nc nb) as [->|Hne].
      - destruct (literal_units nb Hb) as (m & e & Hl & _ & Hv & _).
        rewrite Hl, (fle_units _ _ Hv Hv eq_refl eq_refl). apply Z.leb_refl.
      - destruct (literal_units nc Hc) as (mc & ec & Hlc & _ & Hvc & C1 & C2).
        destruct (literal_units nb Hb) as (mb & eb & Hlb & _ & Hvb & B1 & B2).
        rewrite Hlc, Hlb, (fle_units _ _ Hvc Hvb eq_refl eq_refl). cbn [Nval cond_Zopp].
        apply Z.leb_le.
        pose proof units_large as HU. set (U := scale prec emax 0) in *.
        assert (1 * U <= (nb - nc) * U) by (apply Z.mul_le_mono_nonneg_r; lia).
        assert ((nb - nc) * U = nb * U - nc * U) by ring.
        assert (nb * U <= 2 ^ 40 * U) by (apply Z.mul_le_mono_nonneg_r; lia).
        assert (0 <= nc * U) by nia.
        lia. }
    rewrite Hfle. exists 1. auto.
  - destruct (quotient_thousandths nc nb ltac:(lia) Hgt ltac:(lia))
      as (mq & eq & Hq & Heq & Hfle & Q1 & Q2).
    rewrite Hfle, Hq. cbn [to_int cond_Zopp].
    rewrite to_int_units by (rewrite emin_value in Heq; exact Heq).
    rewrite <- one_units.
    set (U := scale prec emax 0) in *. set (Vq := Z.pos mq * scale prec emax eq) in *.
    assert (HU : 0 < U) by (unfold U; rewrite one_units; lia).
    eexists. split; [reflexivity|].
    set (k := nc - nb) in *.
    pose proof (Z.div_mod k 10 ltac:(lia)) as Hk.
    pose proof (Z.mod_pos_bound k 10 ltac:(lia)) as Hr.
    set (a := k / 10) in *. set (r := k mod 10) in *.
    assert (HkU : k * U = 10 * (a * U) + r * U) by (rewrite Hk; ring).
    assert (HrU : 0 <= r * U <= 9 * U) by nia.
    assert (Ha : 0 <= a) by lia.
    assert (HaU : 0 <= a * U) by nia.
    destruct (Z.eq_dec r 0) as [Hz|Hnz].
    + rewrite Hz in HkU. split; [|intros Hn; contradiction].
      assert (Hcases : Vq / U = a \/ Vq / U = a - 1).
      { destruct (Z.le_gt_cases (a * U) Vq) as [H|H].
        - left. symmetry. apply (Z.div_unique Vq U a (Vq - a * U)); [lia|ring].
        - right. symmetry. apply (Z.div_unique Vq U (a - 1) (Vq - (a - 1) * U)); [|ring].
          left. replace ((a - 1) * U) with (a * U - U) by ring. lia. }
      destruct Hcases as [-> | ->]; lia.
    + assert (Hru : 1 * U <= r * U) by (apply Z.mul_le_mono_nonneg_r; lia).
      assert (Hdiv : Vq / U = a).
      { symmetry. apply (Z.div_unique Vq U a (Vq - a * U)); [left; lia|ring]. }
      rewrite Hdiv. split; [left; reflexivity|reflexivity].
Qed.

(** ** The position estimate, for binary64 and for decimal prices *)

Section PositionEstimate.

Variables c1 c2 b : float.

(** C4. For valid binary64 prices: the position is 1 exactly when
    [current_price <= best_price]; otherwise it is
    [max(2, floor((current_price - best_price) / 0.01) + 1)], the subtraction
    and the division being those of binary64, and it is at least 2. The
    position is computed for all prices up to [2^900] in absolute value.
    For a fixed best price, a larger current price never has a smaller
    position. On decimal prices this is not always the value that the formula
    has in exact arithmetic: for two prices in thousandths, up to [2^40], the
    position is that value or one less, and it is that value whenever the
    difference of the prices is not a multiple of [0.01]. *)
Theorem position_estimate :
  (valid c1 = true -> valid c2 = true -> valid b = true ->
   (fle c1 b = true -> PriceManager._calculate_position c1 b = Ok 1)
  /\ (forall p, PriceManager._calculate_position c1 b = Ok p ->
                (p = 1 <-> fle c1 b = true)
                /\ (fle c1 b = false ->
                    2 <= p
                    /\ exists n, floor (fdiv (fsub c1 b) PriceManager.cent) = Some n
                                 /\ p = Z.max 2 (n + 1)))
  /\ (fle (SFopp price_limit) b = true -> fle c1 price_limit = true ->
      exists p, PriceManager._calculate_position c1 b = Ok p)
  /\ (fle c1 c2 = true ->
      forall p1 p2,
        PriceManager._calculate_position c1 b = Ok p1 ->
        PriceManager._calculate_position c2 b = Ok p2 ->
        p1 <= p2))
  /\ (forall nc nb : Z,
        1 <= nb <= 2 ^ 40 -> 1 <= nc <= 2 ^ 40 ->
        exists p,
          PriceManager._calculate_position (literal nc 3) (literal nb 3) = Ok p
          /\ (p = decimal_position (nc # 1000) (nb # 1000)
              \/ p = decimal_position (nc # 1000) (nb # 1000) - 1)
          /\ ((nc - nb) mod 10 <> 0 -> p = decimal_position (nc # 1000) (nb # 1000))).
Proof.
  split; [|exact position_thousandths].
  intros Hv1 Hv2 Hvb.
  assert (Hgt : forall c p, valid c = true -> fle c b = false ->
                  PriceManager._calculate_position c b = Ok p ->
                  is_finite c = true /\ is_finite b = true
                  /\ Nval prec emax b < Nval prec emax c).
  { intros c p Hvc Hle Hp.
    destruct (position_operands_finite c b p Hle Hp) as [Hfc Hfb].
    split; [exact Hfc|]. split; [exact Hfb|].
    rewrite (fle_units c b Hvc Hvb Hfc Hfb) in Hle. apply Z.leb_gt. exact Hle. }
  split; [|split; [|split]].
  - intros Hle. unfold PriceManager._calculate_position. rewrite Hle. reflexivity.
  - intros p Hp. destruct (position_first_iff c1 b p Hp) as [Hp1 Hiff].
    split; [exact Hiff|]. intros Hle.
    destruct (Hgt c1 p Hv1 Hle Hp) as (Hfc & Hfb & Hlt).
    destruct (position_units c1 b Hv1 Hvb Hfc Hfb Hlt p Hp) as [Hfl Hpe].
    split; [lia|]. eexists. split; [exact Hfl|exact Hpe].
  - intros Hlow Hhigh.
    destruct (fle c1 b) eqn:Hle.
    { exists 1. unfold PriceManager._calculate_position. rewrite Hle. reflexivity. }
    destruct (below_limit_cases c1 Hhigh) as [Hfc|Hc];
      [|subst c1; destruct b as [?|[|]| |]; vm_compute in Hle; try discriminate;
        rewrite price_limit_shape in Hlow; vm_compute in Hlow; discriminate].
    destruct (above_limit_cases b Hlow) as [Hfb|Hb];
      [|subst b; destruct c1 as [?|[|]| |[|] ? ?]; vm_compute in Hle; discriminate].
    assert (Hfl : is_finite price_limit = true) by (rewrite price_limit_shape; reflexivity).
    rewrite (fle_units c1 b Hv1 Hvb Hfc Hfb) in Hle. apply Z.leb_gt in Hle.
    rewrite (fle_units c1 price_limit Hv1 price_limit_valid Hfc Hfl) in Hhigh.
    apply Z.leb_le in Hhigh.
    assert (Hvo : valid (SFopp price_limit) = true) by (vm_compute; reflexivity).
    assert (Hfo : is_finite (SFopp price_limit) = true) by (vm_compute; reflexivity).
    rewrite (fle_units (SFopp price_limit) b Hvo Hvb Hfo Hfb) in Hlow.
    apply Z.leb_le in Hlow.
    assert (Hopp : Nval prec emax (SFopp price_limit) = - Nval prec emax price_limit)
      by (vm_compute; reflexivity).
    rewrite Hopp in Hlow.
    eexists. apply (position_defined c1 b Hv1 Hvb Hfc Hfb Hle).
    eapply Z.le_lt_trans; [|exact quotient_units_limit].
    apply quotient_units_mono; lia.
  - intros Hle12 p1 p2 Hp1 Hp2.
    destruct (position_first_iff c1 b p1 Hp1) as [H1 Hiff1].
    destruct (position_first_iff c2 b p2 Hp2) as [H2 Hiff2].
    destruct (fle c1 b) eqn:Hle1; [assert (p1 = 1) by tauto; lia|].
    destruct (Hgt c1 p1 Hv1 Hle1 Hp1) as (Hfc1 & Hfb & Hlt1).
    assert (Hfc2 : is_finite c2 = true).
    { destruct c2 as [?|[|]| |]; try reflexivity.
      - destruct c1 as [?|?| |? ? ?]; try discriminate; vm_compute in Hle12; discriminate.
      - unfold PriceManager._calculate_position, fsub, fdiv in Hp2.
        rewrite cent_shape in Hp2.
        destruct b as [?|?| |? ? ?]; try discriminate; vm_compute in Hp2; discriminate.
      - destruct c1; vm_compute in Hle12; discriminate. }
    rewrite (fle_units c1 c2 Hv1 Hv2 Hfc1 Hfc2) in Hle12. apply Z.leb_le in Hle12.
    assert (Hlt2 : Nval prec emax b < Nval prec emax c2) by lia.
    destruct (position_units c1 b Hv1 Hvb Hfc1 Hfb Hlt1 p1 Hp1) as [_ ->].
    destruct (position_units c2 b Hv2 Hvb Hfc2 Hfb Hlt2 p2 Hp2) as [_ ->].
    assert (Hq : quotient_units (Nval prec emax c1 - Nval prec emax b)
                 <= quotient_units (Nval prec emax c2 - Nval prec emax b))
      by (apply quotient_units_mono; lia).
    assert (Hd : quotient_units (Nval prec emax c1 - Nval prec emax b) / 2 ^ 1074
                 <= quotient_units (Nval prec emax c2 - Nval prec emax b) / 2 ^ 1074)
      by (apply Z.div_le_mono; [reflexivity|exact Hq]).
    lia.
Qed.

End PositionEstimate.

Lemma position_estimate_witness :
  PriceManager._calculate_position (literal 1000 2) (literal 950 2) = Ok 51
  /\ PriceManager._calculate_position (literal 1003 2) (literal 950 2) = Ok 53
  /\ 51 <= 53.
Proof.
  assert (H1 : PriceManager._calculate_position (literal 1000 2) (literal 950 2) = Ok 51)
    by (vm_compute; reflexivity).
  assert (H2 : PriceManager._calculate_position (literal 1003 2) (literal 950 2) = Ok 53)
    by (vm_compute; reflexivity).
  split; [exact H1|]. split; [exact H2|].
  refine (proj2 (proj2 (proj2 (proj1 (position_estimate (literal 1000 2) (literal 1003 2)
                                        (literal 950 2)) _ _ _))) _ 51 53 H1 H2);
    vm_compute; reflexivity.
Defined.

(** The arithmetic is that of binary64: [10.03 - 10.0] is a little less than
    [0.03], so the position of 10.03 against 10.00 is 3. *)
Example position_of_10_03 :
  PriceManager._calculate_position (literal 1003 2) (literal 1000 2) = Ok 3.
Proof. vm_compute. reflexivity. Qed.
